(** * AttributeMaster: the attribute state model and the reorder protocol

    A shallow embedding of [AttributeMaster.py].  The tool is a thin layer
    over the host's command module ([maya.cmds]); the host is therefore part
    of the model: a scene of attributes and connections, the undo queue with
    its settings, and a ghost trace of the mutating commands issued.  Python
    code becomes programs in a state-and-exception monad in which, as in
    Python, the effects performed before an exception is raised persist. *)

From Stdlib Require Import String Ascii List Bool Arith Lia DecimalString.
From Stdlib Require Import Permutation.
Import ListNotations.
Open Scope string_scope.
Open Scope list_scope.

(** ** Data types of the tool *)

Definition type_vector : nat := 0.
Definition type_integer : nat := 1.
Definition type_string : nat := 2.
Definition type_double : nat := 3.
Definition type_boolean : nat := 4.
Definition type_enum : nat := 5.

(** [get_type_index(name)]: a chain of [==] tests with a final fallback. *)
Definition get_type_index (name : string) : nat :=
  if name =? "vector" then type_vector
  else if name =? "integer" then type_integer
  else if name =? "string" then type_string
  else if name =? "double" then type_double
  else if name =? "boolean" then type_boolean
  else if name =? "enum" then type_enum
  else type_double.

(** ** Exceptions and the state-and-exception monad *)

Inductive exn : Type :=
| RuntimeError (msg : string)     (* raised by a host command *)
| AttributeError (msg : string)   (* attribute access on [None] *)
| OutOfFuel.                      (* a loop of the model ran out of fuel *)

Inductive result (A : Type) : Type :=
| Ok (a : A)
| Raise (e : exn).
Arguments Ok {A} a.
Arguments Raise {A} e.

(** A computation over a state [S]: the final state is returned on both
    outcomes, since Python keeps the effects that precede an exception. *)
Definition M (S A : Type) : Type := S -> S * result A.

Definition ret {S A} (a : A) : M S A := fun s => (s, Ok a).

Definition bind {S A B} (m : M S A) (k : A -> M S B) : M S B :=
  fun s => match m s with
           | (s1, Ok a) => k a s1
           | (s1, Raise e) => (s1, Raise e)
           end.

Definition raise {S A} (e : exn) : M S A := fun s => (s, Raise e).
Definition gets {S A} (f : S -> A) : M S A := fun s => (s, Ok (f s)).
Definition modify {S} (f : S -> S) : M S unit := fun s => (f s, Ok tt).

Declare Scope prog_scope.
Delimit Scope prog_scope with prog.
Notation "x <- m ;; k" := (bind m (fun x => k))
  (at level 61, m at next level, right associativity) : prog_scope.
Notation "m ;; k" := (bind m (fun _ => k))
  (at level 61, right associativity) : prog_scope.
Open Scope prog_scope.

(** [for x in xs: body(x)] *)
Fixpoint for_ {S X} (xs : list X) (body : X -> M S unit) : M S unit :=
  match xs with
  | [] => ret tt
  | x :: rest => body x ;; for_ rest body
  end.

(** [with ctx: body] where [__enter__] and [__exit__] are the two commands:
    [__exit__] runs on the normal and on the exceptional exit of the body and,
    returning [None], lets the body's exception propagate. *)
Definition with_ {S A} (enter exit : M S unit) (body : M S A) : M S A :=
  fun s => match enter s with
           | (s1, Raise e) => (s1, Raise e)
           | (s1, Ok _) =>
               match body s1 with
               | (s2, r) =>
                   match exit s2 with
                   | (s3, Raise e) => (s3, Raise e)
                   | (s3, Ok _) => (s3, r)
                   end
               end
           end.

(** A host command run from a tool whose state pairs the host with its own
    data. *)
Definition liftH {H X A} (m : M H A) : M (H * X) A :=
  fun s => match m (fst s) with (h, r) => ((h, snd s), r) end.

(** ** The host: scene, undo queue, command trace

    The host application is not part of the repository.  Its state and its
    commands are modelled from what the design says of them (sections 3, 4.2
    and 6) and from the way the tool calls them. *)

(** A plug ["node.attribute"], kept as the pair the format string joins. *)
Definition plug : Type := string * string.

Definition plug_eqb (p q : plug) : bool :=
  (fst p =? fst q) && (snd p =? snd q).

(** Modelled from the spec: one attribute of a node as the host stores it
    (owner, long and nice name, the locked, keyable and channel-box flags,
    the type, and whether it is user defined). *)
Record attr : Type := mkAttr {
  a_node : string;
  a_long : string;
  a_nice : string;
  a_lock : bool;
  a_keyable : bool;
  a_cb : bool;          (* the channelBox flag *)
  a_type : string;
  a_user : bool         (* user defined (dynamic) attribute *)
}.

Definition key (a : attr) : plug := (a_node a, a_long a).

Definition set_lock (v : bool) (a : attr) : attr :=
  mkAttr (a_node a) (a_long a) (a_nice a) v (a_keyable a) (a_cb a) (a_type a) (a_user a).
Definition set_keyable_flag (v : bool) (a : attr) : attr :=
  mkAttr (a_node a) (a_long a) (a_nice a) (a_lock a) v (a_cb a) (a_type a) (a_user a).
Definition set_cb (v : bool) (a : attr) : attr :=
  mkAttr (a_node a) (a_long a) (a_nice a) (a_lock a) (a_keyable a) v (a_type a) (a_user a).
Definition set_long (v : string) (a : attr) : attr :=
  mkAttr (a_node a) v (a_nice a) (a_lock a) (a_keyable a) (a_cb a) (a_type a) (a_user a).
Definition set_nice (v : string) (a : attr) : attr :=
  mkAttr (a_node a) (a_long a) v (a_lock a) (a_keyable a) (a_cb a) (a_type a) (a_user a).

(** Modelled from the spec: an entry of the host's linear undo history, the
    inverse of the command it recorded. *)
Inductive inverse : Type :=
| InvLock (p : plug) (old : bool)
| InvKeyable (p : plug) (old : bool)
| InvChannelBox (p : plug) (old : bool)
| InvConnect (src dst : plug)          (* undoes disconnectAttr *)
| InvCreate (a : attr)                 (* undoes deleteAttr *)
| InvRename (p : plug) (old : string)  (* undoes renameAttr; [p] is the new plug *)
| InvNice (p : plug) (old : string)    (* undoes addAttr -edit -niceName *)
| InvRemove (p : plug).                (* undoes addAttr *)

(** The mutating commands, as they appear in the ghost trace. *)
Inductive cmd : Type :=
| SetAttrLock (p : plug) (v : bool)
| SetAttrKeyable (p : plug) (v : bool)
| SetAttrChannelBox (p : plug) (v : bool)
| DisconnectAttr (src dst : plug)
| DeleteAttr (p : plug)
| RenameAttr (p : plug) (new : string)
| AddAttrNice (p : plug) (nice : string)
| AddAttr (p : plug)
| UndoInfoSet (state infinity : bool) (length : option nat)
| OpenChunk
| CloseChunk
| Undo.

(** Modelled from the spec: the state of the host, as far as the tool
    reads or writes it. *)
Record host : Type := mkHost {
  attrs : list attr;               (* every attribute, in creation order *)
  conns : list (plug * plug);      (* connections, source to destination *)
  selection : list string;         (* selected nodes *)
  undo_state : bool;
  undo_infinity : bool;
  undo_length : nat;
  queue : list (list inverse);     (* undo queue, newest chunk first *)
  chunk_depth : nat;               (* open undo chunks *)
  chunk : list inverse;            (* entries of the open chunk, newest first *)
  trace : list cmd                 (* ghost: mutating commands, oldest first *)
}.

Definition with_attrs (l : list attr) (h : host) : host :=
  mkHost l (conns h) (selection h) (undo_state h) (undo_infinity h)
         (undo_length h) (queue h) (chunk_depth h) (chunk h) (trace h).
Definition with_conns (c : list (plug * plug)) (h : host) : host :=
  mkHost (attrs h) c (selection h) (undo_state h) (undo_infinity h)
         (undo_length h) (queue h) (chunk_depth h) (chunk h) (trace h).
Definition with_undo (st inf : bool) (len : nat) (q : list (list inverse)) (h : host) : host :=
  mkHost (attrs h) (conns h) (selection h) st inf len q
         (chunk_depth h) (chunk h) (trace h).
Definition with_queue (q : list (list inverse)) (h : host) : host :=
  mkHost (attrs h) (conns h) (selection h) (undo_state h) (undo_infinity h)
         (undo_length h) q (chunk_depth h) (chunk h) (trace h).
Definition with_chunk (d : nat) (c : list inverse) (h : host) : host :=
  mkHost (attrs h) (conns h) (selection h) (undo_state h) (undo_infinity h)
         (undo_length h) (queue h) d c (trace h).
Definition log (c : cmd) (h : host) : host :=
  mkHost (attrs h) (conns h) (selection h) (undo_state h) (undo_infinity h)
         (undo_length h) (queue h) (chunk_depth h) (chunk h) (trace h ++ [c]).

(** The undo settings the tool saves and restores. *)
Definition undo_settings (h : host) : bool * bool * nat :=
  (undo_state h, undo_infinity h, undo_length h).

Definition lookup (p : plug) (l : list attr) : option attr :=
  find (fun a => plug_eqb (key a) p) l.

Definition update (p : plug) (f : attr -> attr) (l : list attr) : list attr :=
  map (fun a => if plug_eqb (key a) p then f a else a) l.

Definition remove_attr (p : plug) (l : list attr) : list attr :=
  filter (fun a => negb (plug_eqb (key a) p)) l.

Definition conn_eqb (c d : plug * plug) : bool :=
  plug_eqb (fst c) (fst d) && plug_eqb (snd c) (snd d).

Definition touches (p : plug) (c : plug * plug) : bool :=
  plug_eqb (fst c) p || plug_eqb (snd c) p.

(** Modelled from the spec: the queue keeps at most [length] chunks unless
    it is infinite. *)
Definition trim (inf : bool) (len : nat) (q : list (list inverse)) : list (list inverse) :=
  if inf then q else firstn len q.

(** Modelled from the spec: recording the inverse of a command that
    succeeded; nothing while undo is off, into the open chunk if there is
    one, else as a chunk of its own. *)
Definition record (i : inverse) (h : host) : host :=
  if undo_state h then
    match chunk_depth h with
    | O => with_queue (trim (undo_infinity h) (undo_length h) ([i] :: queue h)) h
    | S _ => with_chunk (chunk_depth h) (i :: chunk h) h
    end
  else h.

Definition rename_plug (p : plug) (new : string) (q : plug) : plug :=
  if plug_eqb q p then (fst p, new) else q.

(** Modelled from the spec: replaying one inverse.  The host has no move
    and can only append, so a re-created attribute goes after the existing
    ones.  Replay never fails: an entry whose target is gone changes
    nothing. *)
Definition apply_inverse (i : inverse) (h : host) : host :=
  match i with
  | InvLock p v => with_attrs (update p (set_lock v) (attrs h)) h
  | InvKeyable p v => with_attrs (update p (set_keyable_flag v) (attrs h)) h
  | InvChannelBox p v => with_attrs (update p (set_cb v) (attrs h)) h
  | InvConnect s d =>
      if existsb (conn_eqb (s, d)) (conns h) then h
      else with_conns (conns h ++ [(s, d)]) h
  | InvCreate a =>
      match lookup (key a) (attrs h) with
      | Some _ => h
      | None => with_attrs (attrs h ++ [a]) h
      end
  | InvRename p old =>
      match lookup (fst p, old) (attrs h) with
      | Some _ => h
      | None =>
          with_conns (map (fun c => (rename_plug p old (fst c), rename_plug p old (snd c)))
                          (conns h))
                     (with_attrs (update p (set_long old) (attrs h)) h)
      end
  | InvNice p old => with_attrs (update p (set_nice old) (attrs h)) h
  | InvRemove p =>
      with_conns (filter (fun c => negb (touches p c)) (conns h))
                 (with_attrs (remove_attr p (attrs h)) h)
  end.

(** Modelled from the spec: a chunk is replayed newest entry first. *)
Definition apply_chunk (c : list inverse) (h : host) : host :=
  fold_left (fun h' i => apply_inverse i h') c h.

(** ** The host commands ([maya.cmds]) *)

(** Modelled from the spec: the scene, attribute and undo-queue commands of
    the host (section 6), each named after the call of the tool it stands
    for.  A command either succeeds or raises at once (section 5); one that
    names a missing plug raises, a locked attribute can be neither renamed
    nor deleted, a new attribute is appended after the existing ones, and an
    undo step replays the newest chunk of the queue (section 4.2).  Every
    mutating command is logged in the trace when it is issued. *)
Module cmds.

Definition no_object := RuntimeError "No object matches name".

(** [cmds.attributeQuery(name, node=node, exists=True)] *)
Definition attributeQuery_exists (name nd : string) : M host bool :=
  gets (fun h => match lookup (nd, name) (attrs h) with
                 | Some _ => true
                 | None => false
                 end).

(** The other [attributeQuery] flags read fields of the attribute. *)
Definition attributeQuery (name nd : string) : M host attr :=
  fun h => match lookup (nd, name) (attrs h) with
           | Some a => (h, Ok a)
           | None => (h, Raise no_object)
           end.

(** [cmds.getAttr(path, lock=True)] and its siblings *)
Definition getAttr (flag : attr -> bool) (p : plug) : M host bool :=
  fun h => match lookup p (attrs h) with
           | Some a => (h, Ok (flag a))
           | None => (h, Raise no_object)
           end.
Definition getAttr_lock := getAttr a_lock.
Definition getAttr_keyable := getAttr a_keyable.
Definition getAttr_channelBox := getAttr a_cb.

Definition setAttr (c : cmd) (inv : attr -> inverse) (f : attr -> attr)
           (p : plug) : M host unit :=
  fun h0 =>
    let h := log c h0 in
    match lookup p (attrs h) with
    | None => (h, Raise no_object)
    | Some a => (with_attrs (update p f (attrs h)) (record (inv a) h), Ok tt)
    end.

(** [cmds.setAttr(path, lock=v)] *)
Definition setAttr_lock (p : plug) (v : bool) : M host unit :=
  setAttr (SetAttrLock p v) (fun a => InvLock p (a_lock a)) (set_lock v) p.
(** [cmds.setAttr(path, keyable=v)] *)
Definition setAttr_keyable (p : plug) (v : bool) : M host unit :=
  setAttr (SetAttrKeyable p v) (fun a => InvKeyable p (a_keyable a)) (set_keyable_flag v) p.
(** [cmds.setAttr(path, channelBox=v)] *)
Definition setAttr_channelBox (p : plug) (v : bool) : M host unit :=
  setAttr (SetAttrChannelBox p v) (fun a => InvChannelBox p (a_cb a)) (set_cb v) p.

(** [cmds.listConnections(path, plugs=True, destination=False, source=True)]:
    the plugs feeding [p]. *)
Definition listConnections_source (p : plug) : M host (list plug) :=
  gets (fun h => map fst (filter (fun c => plug_eqb (snd c) p) (conns h))).

(** [cmds.listConnections(path, plugs=True, destination=True, source=False)]:
    the plugs fed by [p]. *)
Definition listConnections_destination (p : plug) : M host (list plug) :=
  gets (fun h => map snd (filter (fun c => plug_eqb (fst c) p) (conns h))).

(** [cmds.disconnectAttr(src, dst)] *)
Definition disconnectAttr (s d : plug) : M host unit :=
  fun h0 =>
    let h := log (DisconnectAttr s d) h0 in
    if existsb (conn_eqb (s, d)) (conns h) then
      match lookup d (attrs h) with
      | Some a =>
          if a_lock a then (h, Raise (RuntimeError "destination is locked"))
          else (with_conns (filter (fun c => negb (conn_eqb (s, d) c)) (conns h))
                           (record (InvConnect s d) h), Ok tt)
      | None => (h, Raise no_object)
      end
    else (h, Raise (RuntimeError "not connected")).

(** [cmds.deleteAttr(path)]: connections still attached go with the
    attribute and come back with it on undo. *)
Definition deleteAttr (p : plug) : M host unit :=
  fun h0 =>
    let h := log (DeleteAttr p) h0 in
    match lookup p (attrs h) with
    | None => (h, Raise no_object)
    | Some a =>
        if a_lock a then (h, Raise (RuntimeError "attribute is locked"))
        else if negb (a_user a) then (h, Raise (RuntimeError "not a dynamic attribute"))
        else
          let gone := filter (touches p) (conns h) in
          let h1 := fold_right (fun c h' => record (InvConnect (fst c) (snd c)) h')
                               (record (InvCreate a) h) gone in
          (with_conns (filter (fun c => negb (touches p c)) (conns h))
                      (with_attrs (remove_attr p (attrs h)) h1), Ok tt)
    end.

(** [cmds.renameAttr(path, new)] *)
Definition renameAttr (p : plug) (new : string) : M host unit :=
  fun h0 =>
    let h := log (RenameAttr p new) h0 in
    match lookup p (attrs h) with
    | None => (h, Raise no_object)
    | Some a =>
        if a_lock a then (h, Raise (RuntimeError "attribute is locked"))
        else match lookup (fst p, new) (attrs h) with
             | Some _ => (h, Raise (RuntimeError "name already in use"))
             | None =>
                 (with_conns (map (fun c => (rename_plug p new (fst c),
                                             rename_plug p new (snd c))) (conns h))
                             (with_attrs (update p (set_long new) (attrs h))
                                         (record (InvRename (fst p, new) (snd p)) h)),
                  Ok tt)
             end
    end.

(** [cmds.addAttr(path, edit=True, nn=nice)] *)
Definition addAttr_edit_nn (p : plug) (nice : string) : M host unit :=
  setAttr (AddAttrNice p nice) (fun a => InvNice p (a_nice a)) (set_nice nice) p.

(** [cmds.addAttr(node, longName=long, attributeType=ty, niceName=nice, ...)] *)
Definition addAttr (nd long ty nice : string) : M host unit :=
  fun h0 =>
    let h := log (AddAttr (nd, long)) h0 in
    match lookup (nd, long) (attrs h) with
    | Some _ => (h, Raise (RuntimeError "name already in use"))
    | None =>
        (with_attrs (attrs h ++ [mkAttr nd long nice false false false ty true])
                    (record (InvRemove (nd, long)) h), Ok tt)
    end.

(** [cmds.listAttr(node, userDefined=True)]: [None] when there is none. *)
Definition listAttr_userDefined (nd : string) : M host (option (list string)) :=
  gets (fun h =>
          match map a_long (filter (fun a => (a_node a =? nd) && a_user a) (attrs h)) with
          | [] => None
          | l => Some l
          end).

(** [cmds.ls(sl=True)] *)
Definition ls_sl : M host (list string) := gets selection.

(** [cmds.undoInfo(query=True, state=True)] and its siblings *)
Definition undoInfo_query_state : M host bool := gets undo_state.
Definition undoInfo_query_infinity : M host bool := gets undo_infinity.
Definition undoInfo_query_length : M host nat := gets undo_length.

(** [cmds.undoInfo(state=st, infinity=inf[, length=len])]: turning undo
    off flushes the queue, a finite queue is cut to its length. *)
Definition undoInfo_set (st inf : bool) (len : option nat) : M host unit :=
  fun h0 =>
    let h := log (UndoInfoSet st inf len) h0 in
    let l := match len with Some n => n | None => undo_length h end in
    let q := if st then trim inf l (queue h) else [] in
    (with_undo st inf l q h, Ok tt).

(** [cmds.undoInfo(openChunk=True)] *)
Definition undoInfo_openChunk : M host unit :=
  fun h0 =>
    let h := log OpenChunk h0 in
    (with_chunk (S (chunk_depth h)) (chunk h) h, Ok tt).

(** [cmds.undoInfo(closeChunk=True)]: closing the outermost chunk puts
    it on the queue if it recorded anything. *)
Definition undoInfo_closeChunk : M host unit :=
  fun h0 =>
    let h := log CloseChunk h0 in
    match chunk_depth h with
    | O => (h, Ok tt)
    | 1 =>
        match chunk h with
        | [] => (with_chunk 0 [] h, Ok tt)
        | c => (with_chunk 0 []
                  (with_queue (trim (undo_infinity h) (undo_length h) (c :: queue h)) h),
                Ok tt)
        end
    | S d => (with_chunk d (chunk h) h, Ok tt)
    end.

(** [cmds.undo()]: replays the newest chunk and drops it from the queue. *)
Definition undo : M host unit :=
  fun h0 =>
    let h := log Undo h0 in
    if undo_state h then
      match queue h with
      | [] => (h, Raise (RuntimeError "There are no more commands to undo"))
      | c :: q => (apply_chunk c (with_queue q h), Ok tt)
      end
    else (h, Raise (RuntimeError "Undo is turned off")).

End cmds.

(** ** [UndoStateContext] and [UndoChunkContext] *)
Module UndoStateContext.

Record t : Type := mk { state : bool; infinity : bool; length : nat }.

(** [__init__]: the three queries *)
Definition init : M host t :=
  st <- cmds.undoInfo_query_state ;;
  inf <- cmds.undoInfo_query_infinity ;;
  len <- cmds.undoInfo_query_length ;;
  ret (mk st inf len).

Definition enter (self : t) : M host unit :=
  cmds.undoInfo_set true true None.

Definition exit (self : t) : M host unit :=
  cmds.undoInfo_set (state self) (infinity self) (Some (length self)).

End UndoStateContext.

Module UndoChunkContext.

Definition enter : M host unit := cmds.undoInfo_openChunk.
Definition exit : M host unit := cmds.undoInfo_closeChunk.

End UndoChunkContext.

(** [with UndoStateContext(): body], run from a tool: the constructor, then
    [__enter__], the body and [__exit__]. *)
Definition with_UndoStateContext {X A} (body : M (host * X) A) : M (host * X) A :=
  ctx <- liftH UndoStateContext.init ;;
  with_ (liftH (UndoStateContext.enter ctx)) (liftH (UndoStateContext.exit ctx)) body.

(** ** [class Attribute]: one attribute of the inspected node, as a widget *)

(** [sub in s] on strings *)
Fixpoint contains (sub s : string) : bool :=
  if prefix sub s then true
  else match s with
       | EmptyString => false
       | String _ s' => contains sub s'
       end.

(** The style sheet of [refresh] with its [%] replaced by [bg]. *)
Definition style_replace (bg : string) : string :=
  "QWidget { padding: 5px 20px; }             #ShortName { background: " ++ bg
  ++ "; border-radius: 3px }             #LongName { color: rgba(255, 255, 255, 0.5) }"
  ++ "             #DeleteBtn { padding: 0; background: transparent; border: 0; }".

Module Attribute.

Record t : Type := mk {
  node : string;
  niceName : string;
  longName : string;
  locked : bool;
  keyable : bool;
  channelBox : bool;
  type : string;
  label : string;        (* text of the nice-name label *)
  labelLong : string;    (* text of the long-name label *)
  styleSheet : string
}.

Definition set_niceName (v : string) (a : t) : t :=
  mk (node a) v (longName a) (locked a) (keyable a) (channelBox a) (type a)
     v (labelLong a) (styleSheet a).
Definition set_longName (v : string) (a : t) : t :=
  mk (node a) (niceName a) v (locked a) (keyable a) (channelBox a) (type a)
     (label a) v (styleSheet a).
Definition setStyleSheet (v : string) (a : t) : t :=
  mk (node a) (niceName a) (longName a) (locked a) (keyable a) (channelBox a) (type a)
     (label a) (labelLong a) v.

(** [path]: ["{}.{}".format(self.node, self.longName)] *)
Definition path (self : t) : plug := (node self, longName self).

Definition exists_ (self : t) : M host bool :=
  cmds.attributeQuery_exists (longName self) (node self).

(** [self.exists() and cmds.getAttr(self.path, keyable=True)] *)
Definition is_keyable (self : t) : M host bool :=
  e <- exists_ self ;;
  if e then cmds.getAttr_keyable (path self) else ret false.

Definition is_locked (self : t) : M host bool :=
  e <- exists_ self ;;
  if e then cmds.getAttr_lock (path self) else ret false.

(** [self.exists() and cmds.getAttr(self.path, channelBox=True) is False] *)
Definition is_hidden (self : t) : M host bool :=
  e <- exists_ self ;;
  if e then (cb <- cmds.getAttr_channelBox (path self) ;; ret (negb cb)) else ret false.

(** [self.longName is not None and "__seperator_" in self.longName];
    the long name is a string here, so the first test always passes. *)
Definition is_seperator (self : t) : bool :=
  contains "__seperator_" (longName self).

(** [delete]: unlock, break the connections in and out, delete; all in one
    undo chunk.  A loop over an empty or absent list does nothing. *)
Definition delete (self : t) : M host unit :=
  with_ UndoChunkContext.enter UndoChunkContext.exit
    (cmds.setAttr_lock (path self) false ;;
     incoming <- cmds.listConnections_source (path self) ;;
     for_ incoming (fun c =>
       cmds.setAttr_lock c false ;;
       cmds.disconnectAttr c (path self)) ;;
     outgoing <- cmds.listConnections_destination (path self) ;;
     for_ outgoing (fun c =>
       cmds.setAttr_lock c false ;;
       cmds.disconnectAttr (path self) c) ;;
     cmds.deleteAttr (path self)).

(** [refresh]: the [if]/[elif] chain picks the background; a chain that
    matched nothing would leave the [%] of the template in place. *)
Definition refresh (self : t) : M host t :=
  bg <- (if is_seperator self then ret "rgb(49, 167, 214)"
         else
           hid <- is_hidden self ;;
           hk <- (if hid then (k <- is_keyable self ;; ret (negb k)) else ret false) ;;
           if hk then ret "rgb(51,51,51)"
           else
             l <- is_locked self ;;
             if l then ret "rgb(89,104,117)"
             else
               k <- is_keyable self ;;
               if negb k then ret "rgb(148,148,148)"
               else
                 k' <- is_keyable self ;;
                 if k' then ret "transparent" else ret "%") ;;
  ret (setStyleSheet (style_replace bg) self).

(** [__init__]: the fields, the [listEnum] query of an enum attribute (its
    answer is dropped), the labels of [create_ui], then [refresh]. *)
Definition init (nd nice long : string) (lck k cb : bool) (ty : string) : M host t :=
  (if ty =? "enum" then (_ <- cmds.attributeQuery long nd ;; ret tt) else ret tt) ;;
  refresh (mk nd nice long lck k cb ty nice long "").

(** The state of [rename]: the host and the widget [self]. *)
Definition self : M (host * t) t := gets snd.

Definition unlock_if (was_locked : bool) : M (host * t) unit :=
  if was_locked then (s <- self ;; liftH (cmds.setAttr_lock (path s) false)) else ret tt.

Definition relock_if (was_locked : bool) : M (host * t) unit :=
  if was_locked then (s <- self ;; liftH (cmds.setAttr_lock (path s) true)) else ret tt.

(** The [if longName is not None:] block of [rename] *)
Definition rename_long (new : option string) : M (host * t) unit :=
  match new with
  | None => ret tt
  | Some longName' =>
      s <- self ;;
      e <- liftH (cmds.attributeQuery_exists longName' (node s)) ;;
      if e then ret tt
      else
        was_locked <- liftH (is_locked s) ;;
        unlock_if was_locked ;;
        liftH (cmds.renameAttr (path s) longName') ;;
        modify (fun st => (fst st, set_longName longName' (snd st))) ;;
        relock_if was_locked
  end.

(** [rename(niceName=None, longName=None)]; a [return] in the first block
    skips the second. *)
Definition rename (niceName' longName' : option string) : M (host * t) unit :=
  match niceName' with
  | None => rename_long longName'
  | Some nice =>
      s <- self ;;
      e <- liftH (cmds.attributeQuery_exists nice (node s)) ;;
      if e then ret tt
      else
        liftH (cmds.addAttr_edit_nn (path s) nice) ;;
        was_locked <- liftH (is_locked s) ;;
        unlock_if was_locked ;;
        liftH (cmds.renameAttr (path s) ("TMP_" ++ longName s)%string) ;;
        liftH (cmds.renameAttr (node s, ("TMP_" ++ longName s)%string) (longName s)) ;;
        relock_if was_locked ;;
        modify (fun st => (fst st, set_niceName nice (snd st))) ;;
        rename_long longName'
  end.

End Attribute.

(** ** [class AttributeMaster]: the panel *)
Module AttributeMaster.

(** One row of the list widget: its item widget, if any, and whether the
    row is selected. *)
Record item : Type := mkItem {
  widget : option Attribute.t;
  selected : bool
}.

(** The panel: the host and the rows of [self.listWidget]. *)
Definition tool : Type := (host * list item)%type.

Definition listWidget : M tool (list item) := gets snd.

(** [selected_node]: the first selected node, or [None]. *)
Definition selected_node : M tool (option string) :=
  sel <- liftH cmds.ls_sl ;;
  ret (match sel with [] => None | n :: _ => Some n end).

(** [attributes_ordered]: the item widgets in row order, rows without a
    widget skipped. *)
Definition attributes_ordered : M tool (list Attribute.t) :=
  lw <- listWidget ;;
  ret (flat_map (fun it => match widget it with
                           | Some w => [w]
                           | None => []
                           end) lw).

(** The rows of [selectedItems()], by index and in row order.  The list is
    never [None], so the early [return] of the callers is dead. *)
Definition selectedItems : M tool (list nat) :=
  lw <- listWidget ;;
  ret (filter (fun i => match nth_error lw i with
                        | Some it => selected it
                        | None => false
                        end) (seq 0 (List.length lw))).

(** [itemWidget(item)], then an attribute access on the result. *)
Definition itemWidget (i : nat) : M tool Attribute.t :=
  lw <- listWidget ;;
  match nth_error lw i with
  | Some (mkItem (Some w) _) => ret w
  | _ => raise (AttributeError "'NoneType' object has no attribute 'path'")
  end.

Fixpoint set_nth {X} (i : nat) (x : X) (l : list X) : list X :=
  match l, i with
  | [], _ => []
  | _ :: r, O => x :: r
  | y :: r, S j => y :: set_nth j x r
  end.

(** [attr.refresh()] on the widget of row [i] *)
Definition refresh_row (i : nat) (w : Attribute.t) : M tool unit :=
  w' <- liftH (Attribute.refresh w) ;;
  modify (fun st : tool =>
            (fst st,
             match nth_error (snd st) i with
             | Some it => set_nth i (mkItem (Some w') (selected it)) (snd st)
             | None => snd st
             end)).

(** The body of the loop of [set_keyable], for the selected row [i] *)
Definition set_keyable_row (i : nat) : M tool unit :=
  w <- itemWidget i ;;
  liftH (cmds.setAttr_lock (Attribute.path w) false) ;;
  liftH (cmds.setAttr_keyable (Attribute.path w) true) ;;
  refresh_row i w.

Definition set_keyable : M tool unit :=
  sel <- selectedItems ;;
  for_ sel set_keyable_row.

Definition set_notkeyable : M tool unit :=
  sel <- selectedItems ;;
  for_ sel (fun i =>
    w <- itemWidget i ;;
    liftH (cmds.setAttr_lock (Attribute.path w) false) ;;
    liftH (cmds.setAttr_keyable (Attribute.path w) false) ;;
    liftH (cmds.setAttr_channelBox (Attribute.path w) true) ;;
    refresh_row i w).

Definition set_displayable : M tool unit :=
  sel <- selectedItems ;;
  for_ sel (fun i =>
    w <- itemWidget i ;;
    liftH (cmds.setAttr_lock (Attribute.path w) true) ;;
    liftH (cmds.setAttr_keyable (Attribute.path w) false) ;;
    liftH (cmds.setAttr_channelBox (Attribute.path w) true) ;;
    refresh_row i w).

Definition set_hidden : M tool unit :=
  sel <- selectedItems ;;
  for_ sel (fun i =>
    w <- itemWidget i ;;
    liftH (cmds.setAttr_keyable (Attribute.path w) false) ;;
    liftH (cmds.setAttr_lock (Attribute.path w) true) ;;
    liftH (cmds.setAttr_channelBox (Attribute.path w) false) ;;
    refresh_row i w).

(** [refresh]: the list is cleared and rebuilt from the host, one row with
    its widget per user attribute of the first selected node.  The title, the
    data panel and [on_selection_change], which finds the list empty, touch
    widgets only; the [maxExists] and [minExists] answers are not used. *)
Definition refresh : M tool unit :=
  modify (fun st : tool => (fst st, [])) ;;
  sel <- liftH cmds.ls_sl ;;
  match sel with
  | [] => ret tt
  | select :: _ =>
      user_attributes <- liftH (cmds.listAttr_userDefined select) ;;
      match user_attributes with
      | None => ret tt
      | Some names =>
          for_ names (fun x =>
            a <- liftH (cmds.attributeQuery x select) ;;
            w <- liftH (Attribute.init select (a_nice a) (a_long a) false
                                       (a_keyable a) (a_cb a) (a_type a)) ;;
            modify (fun st : tool => (fst st, snd st ++ [mkItem (Some w) false])))
      end
  end.

(** [for _ in range(n): body] *)
Definition repeat_ {S} (n : nat) (body : M S unit) : M S unit :=
  for_ (seq 0 n) (fun _ => body).

(** The body of the [with] of [reorder] *)
Definition reorder_body : M tool unit :=
  ordered <- attributes_ordered ;;
  for_ (rev ordered) (fun attribute => liftH (Attribute.delete attribute)) ;;
  lw <- listWidget ;;
  repeat_ (List.length lw) (liftH cmds.undo).

Definition reorder : M tool unit :=
  with_UndoStateContext reorder_body.

(** [str(id)] for a natural number *)
Definition str (n : nat) : string := NilZero.string_of_uint (Nat.to_uint n).

(** The [while] of [add_new_seperator], which ends with [id] as its
    result:
    [while exists("__seperator_" + str(id)): max += 1; if max > 10: break; id += 1] *)
Fixpoint next_id (fuel : nat) (nd : string) (id max : nat) : M host nat :=
  match fuel with
  | O => raise OutOfFuel
  | S fuel' =>
      e <- cmds.attributeQuery_exists ("__seperator_" ++ str id)%string nd ;;
      if e then
        let max := max + 1 in
        if Nat.ltb 10 max then ret id
        else next_id fuel' nd (id + 1) max
      else ret id
  end.

(** [add_new_seperator]; [text] and [result] are what the input dialog
    returns.  The loop leaves after at most eleven tests, so twelve units of
    fuel are never used up. *)
Definition add_new_seperator (text : string) (result : bool) : M tool unit :=
  nd <- selected_node ;;
  match nd with
  | None => ret tt
  | Some nd =>
      id <- liftH (next_id 12 nd 0 0) ;;
      let name := ("__seperator_" ++ str id)%string in
      if result && Nat.ltb 0 (String.length text) then
        liftH (cmds.addAttr nd name "enum" text) ;;
        liftH (cmds.setAttr_channelBox (nd, name) true) ;;
        liftH (cmds.setAttr_lock (nd, name) true) ;;
        refresh
      else ret tt
  end.

End AttributeMaster.

(** ** The display classes of the design, in its words

    Priority order, first match wins:
    separator > hidden-and-not-keyable > locked > not-keyable > keyable.
    An attribute is hidden when it is not visible in the summary. *)
Inductive display_class : Type :=
| Separator
| Hidden
| Locked
| NotKeyable
| Keyable.

Definition classify (separator locked keyable visible : bool) : display_class :=
  if separator then Separator
  else if negb visible && negb keyable then Hidden
  else if locked then Locked
  else if negb keyable then NotKeyable
  else Keyable.

(** The background the panel gives each class. *)
Definition class_color (c : display_class) : string :=
  match c with
  | Separator => "rgb(49, 167, 214)"
  | Hidden => "rgb(51,51,51)"
  | Locked => "rgb(89,104,117)"
  | NotKeyable => "rgb(148,148,148)"
  | Keyable => "transparent"
  end.

(** ** Vocabulary of the statements *)

(** What the panel can tell of a row: the plug of its widget and whether
    the row is selected. *)
Definition row_sig (it : AttributeMaster.item) : option plug * bool :=
  (option_map Attribute.path (AttributeMaster.widget it), AttributeMaster.selected it).

(** What [listAttr(node, userDefined=True)] lists, as a plain list. *)
Definition user_names (nd : string) (h : host) : list string :=
  map a_long (filter (fun a => (a_node a =? nd)%string && a_user a) (attrs h)).

(** The identity of an attribute: its plug and whether it is user defined.
    The flags are left out: they play no part in the order. *)
Definition ident (a : attr) : plug * bool := (key a, a_user a).
Definition idents (h : host) : list (plug * bool) := map ident (attrs h).
Definition keys (h : host) : list plug := map key (attrs h).

(** A well-formed scene: plugs are unique, a connection exists once and
    joins existing plugs. *)
Definition wf (h : host) : Prop :=
  NoDup (keys h)
  /\ NoDup (conns h)
  /\ forall s d, In (s, d) (conns h) -> In s (keys h) /\ In d (keys h).

(** No undo chunk is open. *)
Definition idle (h : host) : Prop := chunk_depth h = 0 /\ chunk h = [].

(** The part of the undo machinery a command inside a chunk leaves alone. *)
Definition undo_view (h : host) : bool * bool * nat * list (list inverse) * nat :=
  (undo_state h, undo_infinity h, undo_length h, queue h, chunk_depth h).

(** Entries whose replay leaves the set and order of attributes alone. *)
Definition harmless (i : inverse) : Prop :=
  match i with
  | InvLock _ _ | InvConnect _ _ => True
  | _ => False
  end.

(** The entries of the chunk [delete] records for the user attribute [p]:
    harmless ones and the re-creation of [p]. *)
Definition delete_entry (p : plug) (i : inverse) : Prop :=
  match i with
  | InvLock _ _ | InvConnect _ _ => True
  | InvCreate a => ident a = (p, true)
  | _ => False
  end.

Definition is_create (i : inverse) : Prop :=
  match i with InvCreate _ => True | _ => False end.

(** The chunk of a [delete] of [p]. *)
Definition recreates (p : plug) (c : list inverse) : Prop :=
  Forall (delete_entry p) c /\ Exists is_create c.

(** The states [delete] goes through inside its chunk, for the plug [p]:
    the scene stays well formed, the attributes are those it started with,
    [p] is unlocked, and the chunk has recorded harmless entries only. *)
Definition in_delete_chunk (p : plug) (ids : list (plug * bool)) (len : nat)
           (q : list (list inverse)) (h : host) : Prop :=
  wf h
  /\ undo_view h = (true, true, len, q, 1)
  /\ idents h = ids
  /\ Forall harmless (chunk h)
  /\ exists a, lookup p (attrs h) = Some a /\ a_lock a = false.

(** The identities that stay when the plugs [ps] are deleted. *)
Definition kept (ps : list plug) (i : plug * bool) : bool :=
  negb (existsb (plug_eqb (fst i)) ps).

(** The rows of a list widget showing the attributes [ds] of [nd], in order. *)
Definition rows_show (nd : string) (ds : list string) (lw : list AttributeMaster.item) : Prop :=
  Forall2 (fun it d => exists w, AttributeMaster.widget it = Some w
                                 /\ Attribute.path w = (nd, d)) lw ds.

Definition is_Undo (c : cmd) : bool :=
  match c with Undo => true | _ => false end.
Definition is_DeleteAttr (c : cmd) : bool :=
  match c with DeleteAttr _ => true | _ => false end.

(** ** Sample scenes *)

(** A user-defined attribute of type double, nice name as the long one. *)
Definition sample_attr (nd long : string) (lck k cb : bool) : attr :=
  mkAttr nd long long lck k cb "double" true.

(** A scene with node ["n"] selected, undo on with a queue of fifty. *)
Definition sample_host (l : list attr) (c : list (plug * plug)) : host :=
  mkHost l c ["n"] true false 50 [] 0 [] [].

(** The widget the panel builds for an attribute, before it is styled. *)
Definition sample_widget (nd long : string) : Attribute.t :=
  Attribute.mk nd long long false true false "double" long long "".

Definition seperator_name (i : nat) : string :=
  ("__seperator_" ++ AttributeMaster.str i)%string.

(** Node ["n"] with the separators [__seperator_0] to [__seperator_9]. *)
Definition ten_seperators : host :=
  sample_host (map (fun i => mkAttr "n" (seperator_name i) "title" true false true "enum" true)
                   (seq 0 10)) [].

(** Node ["n"] with the attributes [A], [B] (locked) and [C], [A] feeding [B]. *)
Definition abc_host : host :=
  sample_host [sample_attr "n" "A" false true false;
               sample_attr "n" "B" true false true;
               sample_attr "n" "C" false true false]
              [(("n", "A"), ("n", "B"))].

(** The rows after [C] was dragged to the top. *)
Definition cab_rows : list AttributeMaster.item :=
  [AttributeMaster.mkItem (Some (sample_widget "n" "C")) false;
   AttributeMaster.mkItem (Some (sample_widget "n" "A")) false;
   AttributeMaster.mkItem (Some (sample_widget "n" "B")) false].

(** Node ["n"] with one attribute, as [set_hidden] leaves it: not keyable,
    locked, out of the channel box; its row is selected. *)
Definition hidden_host : host :=
  sample_host [sample_attr "n" "tx" true false false] [].
Definition tx_rows : list AttributeMaster.item :=
  [AttributeMaster.mkItem (Some (sample_widget "n" "tx")) true].

(** Node ["n"] with the single attribute [A]. *)
Definition a_host : host :=
  sample_host [sample_attr "n" "A" false true false] [].

(** Two rows; the attribute of the second is not on the host. *)
Definition rows_a_z : list AttributeMaster.item :=
  [AttributeMaster.mkItem (Some (sample_widget "n" "A")) false;
   AttributeMaster.mkItem (Some (sample_widget "n" "Z")) false].

(** The deletions and undo steps of the trace, in the order issued. *)
Definition marks (h : host) : list cmd :=
  filter (fun c => is_DeleteAttr c || is_Undo c) (trace h).

(** The item widgets of the rows, rows without one skipped. *)
Definition widgets (lw : list AttributeMaster.item) : list Attribute.t :=
  flat_map (fun it => match AttributeMaster.widget it with
                      | Some w => [w]
                      | None => []
                      end) lw.

(** [data_types], the names the type indices stand for *)
Definition data_types : list string :=
  ["Vector"; "Integer"; "String"; "Double"; "Boolean"; "Enum"].

(** A row as the panel's [refresh] builds it for the user attribute [x] of
    [nd]: not selected, with a widget for that plug that carries the nice
    name the host has and the style of some display class. *)
Definition built_from (h : host) (nd : string) (it : AttributeMaster.item) (x : string) : Prop :=
  exists w a c,
    AttributeMaster.widget it = Some w
    /\ AttributeMaster.selected it = false
    /\ lookup (nd, x) (attrs h) = Some a
    /\ Attribute.path w = (nd, x)
    /\ Attribute.niceName w = a_nice a
    /\ Attribute.styleSheet w = style_replace (class_color c).

(** The plugs of the selected rows that have a widget. *)
Definition selected_plugs (lw : list AttributeMaster.item) : list plug :=
  flat_map (fun it => if AttributeMaster.selected it
                      then match AttributeMaster.widget it with
                           | Some w => [Attribute.path w]
                           | None => []
                           end
                      else []) lw.

(** The plug of the widget of row [i], if there is one. *)
Definition row_plug (lw : list AttributeMaster.item) (i : nat) : list plug :=
  match nth_error lw i with
  | Some it => match AttributeMaster.widget it with
               | Some w => [Attribute.path w]
               | None => []
               end
  | None => []
  end.

(** The flags the three states other than keyable write. *)
Definition as_notkeyable (a : attr) : attr :=
  set_cb true (set_keyable_flag false (set_lock false a)).
Definition as_displayable (a : attr) : attr :=
  set_cb true (set_keyable_flag false (set_lock true a)).
Definition as_hidden (a : attr) : attr :=
  set_cb false (set_lock true (set_keyable_flag false a)).

(** The attributes after the plugs [ps] were given the flags of [F]. *)
Definition flagged (F : attr -> attr) (ps : list plug) (l : list attr) : list attr :=
  map (fun a => if existsb (plug_eqb (key a)) ps then F a else a) l.

(** Every selected row has a widget, for an attribute that is on the host. *)
Definition selection_alive (h : host) (lw : list AttributeMaster.item) : Prop :=
  forall i it, nth_error lw i = Some it -> AttributeMaster.selected it = true ->
    exists w a, AttributeMaster.widget it = Some w
                /\ lookup (Attribute.path w) (attrs h) = Some a.

(** Two scenes with the same attributes and the same connections, in
    whatever order. *)
Definition same_scene (h h' : host) : Prop :=
  Permutation (attrs h) (attrs h') /\ Permutation (conns h) (conns h').

(** The entries a [delete] records. *)
Definition replayable (i : inverse) : Prop :=
  match i with
  | InvLock _ _ | InvConnect _ _ | InvCreate _ => True
  | _ => False
  end.

(** The states [delete] goes through inside its chunk, seen from the
    undo queue: replaying the open chunk leads back to the scene [h0] the
    chunk was opened on. *)
Definition undoable_from (h0 : host) (len : nat) (q : list (list inverse)) (h : host) : Prop :=
  undo_view h = (true, true, len, q, 1)
  /\ Forall replayable (chunk h)
  /\ NoDup (keys h) /\ NoDup (conns h)
  /\ same_scene (apply_chunk (chunk h) h) h0.

(** Replaying the chunks [cs], newest first. *)
Definition replay (cs : list (list inverse)) (h : host) : host :=
  fold_left (fun u c => apply_chunk c u) cs h.

(** Whether a connection joins [q] and [p], in either direction. *)
Definition linked (p q : plug) (cs : list (plug * plug)) : bool :=
  existsb (conn_eqb (q, p)) cs || existsb (conn_eqb (p, q)) cs.

Definition unlock_when (b : bool) (a : attr) : attr :=
  if b then set_lock false a else a.

(** [Attribute.__delete], the handler of a row's delete button: [delete],
    then the [refresh] of the panel ([self.ui]). *)
Definition __delete (self : Attribute.t) : M AttributeMaster.tool unit :=
  liftH (Attribute.delete self) ;; AttributeMaster.refresh.

(** ** The window and the selection callback

    [run] registers [refresh] as the host's selection callback and marks the
    window open; [closeEvent] releases the callback.  The host's callback
    registry and the toolkit are not part of the repository: [addCallback],
    [removeCallback] and the [closeEvent] of the base class are left open, as
    any commands over a host state [R]. *)
Module Window.

Record t : Type := mk {
  window_is_open : bool;
  callback : option (option nat)   (* [None]: the field is not assigned yet *)
}.

Section Host.

Variable R : Type.
Variable addCallback : M R nat.
Variable removeCallback : nat -> M R unit.
Variable super_closeEvent : M R unit.

Definition register_callback : M (R * t) unit :=
  id <- liftH addCallback ;;
  modify (fun s : R * t => (fst s, mk (window_is_open (snd s)) (Some (Some id)))).

Definition remove_callback : M (R * t) unit :=
  cb <- gets (fun s : R * t => callback (snd s)) ;;
  match cb with
  | None => raise (AttributeError "callback")
  | Some None => ret tt
  | Some (Some id) => liftH (removeCallback id)
  end.

Definition closeEvent : M (R * t) unit :=
  opened <- gets (fun s : R * t => window_is_open (snd s)) ;;
  if negb opened then ret tt
  else
    modify (fun s : R * t => (fst s, mk false (callback (snd s)))) ;;
    remove_callback ;;
    liftH super_closeEvent.

Definition dockCloseEventTriggered : M (R * t) unit := closeEvent.

End Host.

End Window.

(** [abc_host] with an infinite undo queue. *)
Definition abc_host_inf : host := with_undo true true 50 [] abc_host.

(** One row, for [A]. *)
Definition a_rows : list AttributeMaster.item :=
  [AttributeMaster.mkItem (Some (sample_widget "n" "A")) false].

(** Node ["n"] with [A], locked, and an attribute under the name [rename]
    parks [A] at. *)
Definition tmp_host : host :=
  sample_host [sample_attr "n" "A" true true false;
               sample_attr "n" "TMP_A" false true false] [].

(** Node ["n"] with the separators [__seperator_0] to [__seperator_10]. *)
Definition eleven_seperators : host :=
  sample_host (map (fun i => mkAttr "n" (seperator_name i) "title" true false true "enum" true)
                   (seq 0 11)) [].

(** The test of the hidden class, as the second branch of [refresh] and the
    hidden button of [on_selection_change] write it:
    [attr.is_hidden() and attr.is_keyable() is False]. *)
Definition is_hidden_and_not_keyable (self : Attribute.t) : M host bool :=
  hid <- Attribute.is_hidden self ;;
  if hid then (k <- Attribute.is_keyable self ;; ret (negb k)) else ret false.

(** The host as [UndoStateContext.__enter__] leaves it for the body of
    [reorder]. *)
Definition entered (h : host) : host :=
  fst (UndoStateContext.enter
         (UndoStateContext.mk (undo_state h) (undo_infinity h) (undo_length h)) h).

(** * Properties *)

(** ** Plugs and attribute lists *)

Lemma plug_eqb_spec (p q : plug) : reflect (p = q) (plug_eqb p q).
Proof.
  destruct p as [n a], q as [m b]; unfold plug_eqb; simpl.
  destruct (String.eqb_spec n m), (String.eqb_spec a b); simpl;
    constructor; congruence.
Qed.

Lemma plug_eqb_refl (p : plug) : plug_eqb p p = true.
Proof. destruct (plug_eqb_spec p p); congruence. Qed.

Lemma plug_eqb_sym (p q : plug) : plug_eqb p q = plug_eqb q p.
Proof. destruct (plug_eqb_spec p q), (plug_eqb_spec q p); congruence. Qed.

Lemma lookup_key p l a : lookup p l = Some a -> key a = p.
Proof.
  unfold lookup; intros H; apply find_some in H.
  destruct H as [_ H]. destruct (plug_eqb_spec (key a) p); congruence.
Qed.

Lemma lookup_In p l a : lookup p l = Some a -> In a l.
Proof. unfold lookup; intros H; apply find_some in H; tauto. Qed.

Lemma lookup_None p l : lookup p l = None <-> ~ In p (map key l).
Proof.
  induction l as [|x l IH]; simpl; [tauto|].
  destruct (plug_eqb_spec (key x) p); [split; [discriminate | tauto]|].
  rewrite IH; tauto.
Qed.

Lemma lookup_Some_In p l : In p (map key l) <-> exists a, lookup p l = Some a.
Proof.
  destruct (lookup p l) as [a|] eqn:E.
  - split; [eauto|]. intros _. apply in_map_iff. exists a.
    split; [eapply lookup_key | eapply lookup_In]; eassumption.
  - apply lookup_None in E. split; [tauto | intros [a Ha]; discriminate].
Qed.

(** An update that keeps the keys is seen by [lookup] as a map. *)
Lemma lookup_update q p f l :
  (forall a, key (f a) = key a) ->
  lookup q (update p f l) =
  if plug_eqb q p then option_map f (lookup q l) else lookup q l.
Proof.
  intros Hf. induction l as [|x l IH]; simpl.
  - destruct (plug_eqb q p); reflexivity.
  - destruct (plug_eqb_spec (key x) p) as [E|E].
    + rewrite Hf. destruct (plug_eqb_spec (key x) q) as [E'|E'].
      * subst. rewrite plug_eqb_refl. reflexivity.
      * exact IH.
    + destruct (plug_eqb_spec (key x) q) as [E'|E'].
      * subst. destruct (plug_eqb_spec (key x) p); [contradiction | reflexivity].
      * exact IH.
Qed.

Lemma key_update p f l :
  (forall a, key (f a) = key a) -> map key (update p f l) = map key l.
Proof.
  intros Hf. unfold update. rewrite map_map. apply map_ext.
  intros a. destruct (plug_eqb (key a) p); auto.
Qed.

(** Renaming [p] to a free name: the attribute is found under the new name. *)
Lemma lookup_rename nd old new l a :
  lookup (nd, old) l = Some a ->
  lookup (nd, new) l = None ->
  lookup (nd, new) (update (nd, old) (set_long new) l) = Some (set_long new a).
Proof.
  induction l as [|x l IH]; simpl; [discriminate|].
  destruct (plug_eqb_spec (key x) (nd, old)) as [E|E].
  - intros Hx _. injection Hx as ->. simpl.
    unfold key in *; simpl. injection E as -> _.
    rewrite plug_eqb_refl. reflexivity.
  - destruct (plug_eqb_spec (key x) (nd, new)) as [E'|E']; [discriminate|].
    simpl. destruct (plug_eqb_spec (key x) (nd, new)); [contradiction|]. exact IH.
Qed.

(** ** What the queries of a widget return *)

Lemma is_locked_run self h :
  Attribute.is_locked self h =
  (h, Ok match lookup (Attribute.path self) (attrs h) with
         | Some a => a_lock a
         | None => false
         end).
Proof.
  unfold Attribute.is_locked, Attribute.exists_, cmds.attributeQuery_exists,
    cmds.getAttr_lock, cmds.getAttr, bind, gets, ret, Attribute.path.
  cbv beta.
  destruct (lookup (Attribute.node self, Attribute.longName self) (attrs h))
    eqn:E; cbn; rewrite ?E; reflexivity.
Qed.

Lemma is_keyable_run self h :
  Attribute.is_keyable self h =
  (h, Ok match lookup (Attribute.path self) (attrs h) with
         | Some a => a_keyable a
         | None => false
         end).
Proof.
  unfold Attribute.is_keyable, Attribute.exists_, cmds.attributeQuery_exists,
    cmds.getAttr_keyable, cmds.getAttr, bind, gets, ret, Attribute.path.
  cbv beta.
  destruct (lookup (Attribute.node self, Attribute.longName self) (attrs h))
    eqn:E; cbn; rewrite ?E; reflexivity.
Qed.

Lemma is_hidden_run self h :
  Attribute.is_hidden self h =
  (h, Ok match lookup (Attribute.path self) (attrs h) with
         | Some a => negb (a_cb a)
         | None => false
         end).
Proof.
  unfold Attribute.is_hidden, Attribute.exists_, cmds.attributeQuery_exists,
    cmds.getAttr_channelBox, cmds.getAttr, bind, gets, ret, Attribute.path.
  cbv beta.
  destruct (lookup (Attribute.node self, Attribute.longName self) (attrs h))
    eqn:E; cbn; rewrite ?E; reflexivity.
Qed.

(** Stepping through the queries of [refresh]. *)
Ltac run_queries :=
  repeat (progress (rewrite ?is_hidden_run, ?is_locked_run, ?is_keyable_run;
                    repeat match goal with
                           | H : _ = _ |- _ => rewrite H
                           end;
                    cbn -[style_replace Attribute.is_hidden Attribute.is_locked
                           Attribute.is_keyable])).

(** [refresh] reads the host, never fails, and leaves [%] in no style. *)
Lemma refresh_total self h :
  exists c, Attribute.refresh self h =
            (h, Ok (Attribute.setStyleSheet (style_replace (class_color c)) self)).
Proof.
  unfold Attribute.refresh, bind.
  destruct (Attribute.is_seperator self) eqn:Es; [exists Separator; reflexivity|].
  destruct (lookup (Attribute.path self) (attrs h)) as [a|] eqn:E.
  - destruct (a_cb a) eqn:Ecb, (a_keyable a) eqn:Ek, (a_lock a) eqn:El;
      [ exists Locked | exists Keyable | exists Locked | exists NotKeyable
      | exists Locked | exists Keyable | exists Hidden | exists Hidden ];
      run_queries; reflexivity.
  - exists NotKeyable. run_queries. reflexivity.
Qed.

(** [refresh] on an attribute of the host: the style of the first class
    that matches. *)
Lemma refresh_class (h : host) (self : Attribute.t) (a : attr) :
  lookup (Attribute.path self) (attrs h) = Some a ->
  Attribute.refresh self h =
    (h, Ok (Attribute.setStyleSheet
              (style_replace
                 (class_color (classify (Attribute.is_seperator self)
                                        (a_lock a) (a_keyable a) (a_cb a))))
              self)).
Proof.
  intros E. unfold Attribute.refresh, classify, bind.
  destruct (Attribute.is_seperator self) eqn:Es; [reflexivity|].
  destruct (a_cb a) eqn:Ecb, (a_keyable a) eqn:Ek, (a_lock a) eqn:El;
    run_queries; reflexivity.
Qed.

(** The style sheets of two classes differ. *)
Lemma style_of_class c d :
  style_replace (class_color c) = style_replace (class_color d) -> c = d.
Proof.
  intros H. apply (proj2 (String.eqb_eq _ _)) in H.
  destruct c, d; try reflexivity; vm_compute in H; discriminate.
Qed.

(** C8.  Whatever the separator, locked, keyable and visible-in-summary
    flags of an attribute are, [refresh] gives its widget the style sheet of
    the first class that matches in the order separator,
    hidden-and-not-keyable, locked, not-keyable, keyable.  The style sheet
    it writes has no [%] left in it, and it is the style sheet of that class
    and of no other. *)
Theorem refresh_display_class (h : host) (self : Attribute.t) (a : attr) :
  lookup (Attribute.path self) (attrs h) = Some a ->
  exists self',
    Attribute.refresh self h = (h, Ok self')
    /\ self' = Attribute.setStyleSheet
                 (style_replace
                    (class_color (classify (Attribute.is_seperator self)
                                           (a_lock a) (a_keyable a) (a_cb a))))
                 self
    /\ contains "%" (Attribute.styleSheet self') = false
    /\ forall c, Attribute.styleSheet self' = style_replace (class_color c) ->
                 c = classify (Attribute.is_seperator self)
                              (a_lock a) (a_keyable a) (a_cb a).
Proof.
  intros E. eexists. split; [apply (refresh_class h self a E)|].
  split; [reflexivity|]. split.
  - simpl.
    destruct (classify (Attribute.is_seperator self) (a_lock a) (a_keyable a) (a_cb a));
      vm_compute; reflexivity.
  - intros c H. simpl in H. apply style_of_class. symmetry. exact H.
Qed.

(** C10.  A type name other than the six known ones gets the index of
    Double, the one ["double"] gets. *)
Theorem get_type_index_fallback (name : string) :
  name <> "vector" -> name <> "integer" -> name <> "string" ->
  name <> "double" -> name <> "boolean" -> name <> "enum" ->
  get_type_index name = type_double
  /\ get_type_index name = get_type_index "double".
Proof.
  intros H1 H2 H3 H4 H5 H6. unfold get_type_index.
  apply String.eqb_neq in H1, H2, H3, H4, H5, H6.
  rewrite H1, H2, H3, H4, H5, H6. split; reflexivity.
Qed.

(** ** Running host commands *)

Lemma attrs_record i h : attrs (record i h) = attrs h.
Proof. unfold record. destruct (undo_state h), (chunk_depth h); reflexivity. Qed.

Lemma conns_record i h : conns (record i h) = conns h.
Proof. unfold record. destruct (undo_state h), (chunk_depth h); reflexivity. Qed.

Lemma undo_settings_record i h : undo_settings (record i h) = undo_settings h.
Proof. unfold record. destruct (undo_state h), (chunk_depth h); reflexivity. Qed.

Lemma bind_Ok {S A B} (m : M S A) (k : A -> M S B) s s1 a :
  m s = (s1, Ok a) -> bind m k s = k a s1.
Proof. unfold bind. intros ->. reflexivity. Qed.

Lemma bind_Raise {S A B} (m : M S A) (k : A -> M S B) s s1 e :
  m s = (s1, Raise e) -> bind m k s = (s1, Raise e).
Proof. unfold bind. intros ->. reflexivity. Qed.

Lemma liftH_run {H X A} (m : M H A) (h h' : H) (x : X) r :
  m h = (h', r) -> liftH m (h, x) = ((h', x), r).
Proof. unfold liftH. simpl. intros ->. reflexivity. Qed.

Lemma setAttr_run c inv f p h a :
  lookup p (attrs h) = Some a ->
  cmds.setAttr c inv f p h =
  (with_attrs (update p f (attrs h)) (record (inv a) (log c h)), Ok tt).
Proof. unfold cmds.setAttr. simpl. intros ->. reflexivity. Qed.

Lemma setAttr_missing c inv f p h :
  lookup p (attrs h) = None ->
  cmds.setAttr c inv f p h = (log c h, Raise cmds.no_object).
Proof. unfold cmds.setAttr. simpl. intros ->. reflexivity. Qed.

Lemma renameAttr_run nd old new h a :
  lookup (nd, old) (attrs h) = Some a ->
  a_lock a = false ->
  lookup (nd, new) (attrs h) = None ->
  exists h', cmds.renameAttr (nd, old) new h = (h', Ok tt)
             /\ attrs h' = update (nd, old) (set_long new) (attrs h).
Proof.
  intros E L N. unfold cmds.renameAttr. simpl. rewrite E, L, N.
  eexists; split; [reflexivity|]. reflexivity.
Qed.

(** What a run that returned has gone through. *)
Lemma bind_inv {S A B} (m : M S A) (k : A -> M S B) s s' b :
  bind m k s = (s', Ok b) ->
  exists s1 a, m s = (s1, Ok a) /\ k a s1 = (s', Ok b).
Proof.
  unfold bind. destruct (m s) as [s1 [a|e]] eqn:E; [|discriminate].
  intros R. exists s1, a. auto.
Qed.

Lemma with_inv {S A} (enter exit : M S unit) (body : M S A) s s' b :
  with_ enter exit body s = (s', Ok b) ->
  exists s1 s2, enter s = (s1, Ok tt) /\ body s1 = (s2, Ok b) /\ exit s2 = (s', Ok tt).
Proof.
  unfold with_. destruct (enter s) as [s1 [[]|e]] eqn:E1; [|discriminate].
  destruct (body s1) as [s2 r] eqn:E2.
  destruct (exit s2) as [s3 [[]|e]] eqn:E3; [|discriminate].
  intros [= <- ->]. exists s1, s2. auto.
Qed.

Lemma liftH_inv {H X A} (m : M H A) (h h' : H) (x x' : X) r :
  liftH m (h, x) = ((h', x'), r) -> m h = (h', r) /\ x' = x.
Proof.
  unfold liftH. simpl. destruct (m h) as [h1 r1]. intros [= -> -> ->]. auto.
Qed.

(** C6.  [rename(longName=X)] with [X] already an attribute of the owner
    returns at once: no command is issued, the host and the widget are
    exactly as before. *)
Theorem rename_existing_long_name_noop
        (h : host) (self : Attribute.t) (X : string) (b : attr) :
  lookup (Attribute.node self, X) (attrs h) = Some b ->
  Attribute.rename None (Some X) (h, self) = ((h, self), Ok tt).
Proof.
  intros E.
  unfold Attribute.rename, Attribute.rename_long, Attribute.self, bind, gets,
    liftH, cmds.attributeQuery_exists.
  simpl. rewrite E. reflexivity.
Qed.

(** C7.  Renaming the long name of an existing attribute to a free name
    succeeds and keeps its lock state: what [is_locked] answers for the
    renamed widget is what it answered before. *)
Theorem rename_long_name_preserves_lock
        (h : host) (self : Attribute.t) (a : attr) (new : string) :
  lookup (Attribute.path self) (attrs h) = Some a ->
  lookup (Attribute.node self, new) (attrs h) = None ->
  exists h' self',
    Attribute.rename None (Some new) (h, self) = ((h', self'), Ok tt)
    /\ Attribute.longName self' = new
    /\ Attribute.node self' = Attribute.node self
    /\ Attribute.is_locked self h = (h, Ok (a_lock a))
    /\ Attribute.is_locked self' h' = (h', Ok (a_lock a)).
Proof.
  intros E N.
  assert (Hl : Attribute.is_locked self h = (h, Ok (a_lock a)))
    by (rewrite is_locked_run, E; reflexivity).
  unfold Attribute.rename, Attribute.rename_long.
  rewrite (bind_Ok _ _ (h, self) (h, self) self) by reflexivity.
  rewrite (bind_Ok _ _ (h, self) (h, self) false)
    by (apply liftH_run; unfold cmds.attributeQuery_exists, gets; rewrite N; reflexivity).
  rewrite (bind_Ok _ _ (h, self) (h, self) (a_lock a)) by (apply liftH_run, Hl).
  unfold Attribute.path in E.
  destruct (a_lock a) eqn:L.
  - (* locked: unlock, rename, lock again *)
    pose (h1 := with_attrs (update (Attribute.path self) (set_lock false) (attrs h))
                  (record (InvLock (Attribute.path self) (a_lock a))
                          (log (SetAttrLock (Attribute.path self) false) h))).
    assert (E1 : lookup (Attribute.node self, Attribute.longName self) (attrs h1)
                 = Some (set_lock false a)).
    { unfold h1. simpl. unfold Attribute.path.
      rewrite lookup_update by reflexivity. rewrite plug_eqb_refl, E. reflexivity. }
    assert (N1 : lookup (Attribute.node self, new) (attrs h1) = None).
    { unfold h1. simpl. rewrite lookup_update by reflexivity.
      rewrite N. destruct (plug_eqb _ _); reflexivity. }
    destruct (renameAttr_run _ _ _ _ _ E1 eq_refl N1) as (h2 & R2 & A2).
    assert (E2 : lookup (Attribute.node self, new) (attrs h2)
                 = Some (set_long new (set_lock false a))).
    { rewrite A2. apply lookup_rename; assumption. }
    unfold Attribute.unlock_if, Attribute.relock_if, Attribute.self.
    rewrite (bind_Ok _ _ (h, self) (h1, self) tt).
    2:{ rewrite (bind_Ok _ _ (h, self) (h, self) self) by reflexivity.
        apply liftH_run. unfold cmds.setAttr_lock.
        rewrite (setAttr_run _ _ _ _ _ _ E). reflexivity. }
    rewrite (bind_Ok _ _ (h1, self) (h2, self) tt) by (apply liftH_run, R2).
    rewrite (bind_Ok _ _ (h2, self) (h2, Attribute.set_longName new self) tt)
      by reflexivity.
    rewrite (bind_Ok _ _ _ (h2, Attribute.set_longName new self)
                     (Attribute.set_longName new self)) by reflexivity.
    unfold cmds.setAttr_lock, Attribute.path. simpl.
    erewrite liftH_run by (apply setAttr_run, E2).
    do 2 eexists. split; [reflexivity|]. repeat split; auto.
    rewrite is_locked_run. unfold Attribute.path. simpl.
    rewrite lookup_update by reflexivity. rewrite plug_eqb_refl, E2. reflexivity.
  - (* unlocked: rename only *)
    destruct (renameAttr_run _ _ _ _ _ E L N) as (h2 & R2 & A2).
    unfold Attribute.unlock_if, Attribute.relock_if.
    rewrite (bind_Ok _ _ (h, self) (h, self) tt) by reflexivity.
    rewrite (bind_Ok _ _ (h, self) (h2, self) tt) by (apply liftH_run, R2).
    rewrite (bind_Ok _ _ (h2, self) (h2, Attribute.set_longName new self) tt)
      by reflexivity.
    do 2 eexists. split; [reflexivity|]. repeat split; auto.
    rewrite is_locked_run. unfold Attribute.path. simpl.
    rewrite A2. erewrite lookup_rename by eassumption. simpl. rewrite L. reflexivity.
Qed.

(** ** [set_keyable] *)

Lemma set_nth_row_sig i x lw it :
  nth_error lw i = Some it -> row_sig x = row_sig it ->
  map row_sig (AttributeMaster.set_nth i x lw) = map row_sig lw.
Proof.
  revert i. induction lw as [|y lw IH]; intros [|i]; simpl; try discriminate.
  - intros [= ->] ->. reflexivity.
  - intros H Hx. f_equal. auto.
Qed.

Lemma nth_error_row_sig lw lw' i it :
  map row_sig lw' = map row_sig lw ->
  nth_error lw i = Some it ->
  exists it', nth_error lw' i = Some it' /\ row_sig it' = row_sig it.
Proof.
  intros Hs Hn.
  assert (H : nth_error (map row_sig lw') i = Some (row_sig it))
    by (rewrite Hs; apply map_nth_error; assumption).
  rewrite nth_error_map in H.
  destruct (nth_error lw' i) as [it'|]; [|discriminate].
  exists it'. split; [reflexivity|]. simpl in H. congruence.
Qed.

(** One row of [set_keyable]: two flag updates on the plug of the row. *)
Lemma set_keyable_row_run i w s h lw a :
  nth_error lw i = Some (AttributeMaster.mkItem (Some w) s) ->
  lookup (Attribute.path w) (attrs h) = Some a ->
  exists h1 lw1,
    AttributeMaster.set_keyable_row i (h, lw) = ((h1, lw1), Ok tt)
    /\ map row_sig lw1 = map row_sig lw
    /\ attrs h1 = update (Attribute.path w) (set_keyable_flag true)
                         (update (Attribute.path w) (set_lock false) (attrs h)).
Proof.
  intros Hn E. unfold AttributeMaster.set_keyable_row.
  rewrite (bind_Ok _ _ (h, lw) (h, lw) w).
  2:{ unfold AttributeMaster.itemWidget, AttributeMaster.listWidget.
      rewrite (bind_Ok _ _ (h, lw) (h, lw) lw) by reflexivity.
      rewrite Hn. reflexivity. }
  unfold cmds.setAttr_lock, cmds.setAttr_keyable.
  erewrite bind_Ok by (apply liftH_run, setAttr_run, E).
  match goal with
  | |- context [bind _ _ (?h1, lw)] =>
      assert (E1 : lookup (Attribute.path w) (attrs h1) = Some (set_lock false a))
  end.
  { simpl. rewrite lookup_update by reflexivity.
    rewrite plug_eqb_refl, E. reflexivity. }
  erewrite bind_Ok by (apply liftH_run, setAttr_run, E1).
  unfold AttributeMaster.refresh_row.
  match goal with
  | |- context [bind _ _ (?h2, lw)] =>
      destruct (refresh_total w h2) as [c Hc]
  end.
  erewrite bind_Ok by (apply liftH_run, Hc).
  unfold modify. simpl. rewrite Hn.
  do 2 eexists. split; [reflexivity|]. split; [|reflexivity].
  eapply set_nth_row_sig; [eassumption|]. reflexivity.
Qed.

(** The flags of any plug after one row: only ever unlocked and made
    keyable, the channelBox flag untouched. *)
Lemma set_keyable_flags p l q a :
  lookup q l = Some a ->
  exists a',
    lookup q (update p (set_keyable_flag true) (update p (set_lock false) l)) = Some a'
    /\ a_cb a' = a_cb a
    /\ (a_lock a = false \/ q = p -> a_lock a' = false)
    /\ (a_keyable a = true \/ q = p -> a_keyable a' = true).
Proof.
  intros E. rewrite !lookup_update by reflexivity. rewrite E.
  destruct (plug_eqb_spec q p) as [->|Hne]; simpl; eexists; split; try reflexivity;
    simpl; intuition congruence.
Qed.

Lemma set_keyable_loop sel : forall h lw,
  (forall i, In i sel ->
     exists w s a, nth_error lw i = Some (AttributeMaster.mkItem (Some w) s)
                   /\ lookup (Attribute.path w) (attrs h) = Some a) ->
  exists h' lw',
    for_ sel AttributeMaster.set_keyable_row (h, lw) = ((h', lw'), Ok tt)
    /\ (forall q a, lookup q (attrs h) = Some a ->
          exists a', lookup q (attrs h') = Some a'
                     /\ a_cb a' = a_cb a
                     /\ (a_lock a = false -> a_lock a' = false)
                     /\ (a_keyable a = true -> a_keyable a' = true))
    /\ (forall i w s, In i sel ->
          nth_error lw i = Some (AttributeMaster.mkItem (Some w) s) ->
          exists a', lookup (Attribute.path w) (attrs h') = Some a'
                     /\ a_lock a' = false /\ a_keyable a' = true).
Proof.
  induction sel as [|i sel IH]; intros h lw Hsel.
  - exists h, lw. split; [reflexivity|]. split.
    + intros q a E. exists a. auto.
    + intros i w s [].
  - destruct (Hsel i (or_introl eq_refl)) as (w & s & a & Hn & E).
    destruct (set_keyable_row_run i w s h lw a Hn E) as (h1 & lw1 & R1 & S1 & A1).
    assert (F1 : forall q b, lookup q (attrs h) = Some b ->
              exists b', lookup q (attrs h1) = Some b'
                         /\ a_cb b' = a_cb b
                         /\ (a_lock b = false \/ q = Attribute.path w -> a_lock b' = false)
                         /\ (a_keyable b = true \/ q = Attribute.path w -> a_keyable b' = true)).
    { intros q b Eq. rewrite A1. apply set_keyable_flags, Eq. }
    destruct (IH h1 lw1) as (h' & lw' & R & F & G).
    { intros j Hj. destruct (Hsel j (or_intror Hj)) as (wj & sj & aj & Hnj & Ej).
      destruct (nth_error_row_sig _ _ _ _ S1 Hnj) as (it' & Hn' & Hs').
      destruct it' as [[wj'|] sj']; unfold row_sig in Hs'; simpl in Hs'; [|discriminate].
      assert (Hp : Attribute.path wj' = Attribute.path wj) by congruence.
      assert (sj' = sj) by congruence. subst sj'.
      destruct (F1 _ _ Ej) as (b' & Eb' & _).
      exists wj', sj, b'. rewrite Hp. auto. }
    exists h', lw'. split; [|split].
    + simpl. erewrite bind_Ok by exact R1. exact R.
    + intros q b Eq. destruct (F1 _ _ Eq) as (b1 & E1 & C1 & L1 & K1).
      destruct (F _ _ E1) as (b2 & E2 & C2 & L2 & K2).
      exists b2. repeat split; try congruence; auto.
    + intros j wj sj [<-|Hj] Hnj.
      * rewrite Hn in Hnj. injection Hnj as <- <-.
        destruct (F1 _ _ E) as (b1 & E1 & C1 & L1 & K1).
        destruct (F _ _ E1) as (b2 & E2 & C2 & L2 & K2).
        exists b2. split; [assumption|].
        split; [apply L2, L1 | apply K2, K1]; right; reflexivity.
      * destruct (nth_error_row_sig _ _ _ _ S1 Hnj) as (it' & Hn' & Hs').
        destruct it' as [[wj'|] sj']; unfold row_sig in Hs'; simpl in Hs'; [|discriminate].
        assert (Hp : Attribute.path wj' = Attribute.path wj) by congruence.
        rewrite <- Hp. eapply G; eassumption.
Qed.

Lemma selectedItems_run h lw :
  exists sel, AttributeMaster.selectedItems (h, lw) = ((h, lw), Ok sel)
              /\ forall i, In i sel <->
                   exists it, nth_error lw i = Some it
                              /\ AttributeMaster.selected it = true.
Proof.
  eexists. split; [reflexivity|]. simpl. intros i. rewrite filter_In, in_seq.
  split.
  - intros [_ H]. destruct (nth_error lw i) as [it|]; [eauto | discriminate].
  - intros (it & Hn & Hs). rewrite Hn. split; [|assumption].
    split; [lia|]. simpl. apply nth_error_Some. congruence.
Qed.

(** [set_keyable] on rows whose selected attributes are on the host. *)
Lemma set_keyable_selected (h : host) (lw : list AttributeMaster.item) :
  selection_alive h lw ->
  exists h' lw',
    AttributeMaster.set_keyable (h, lw) = ((h', lw'), Ok tt)
    /\ forall i it w,
         nth_error lw i = Some it -> AttributeMaster.selected it = true ->
         AttributeMaster.widget it = Some w ->
         exists a', lookup (Attribute.path w) (attrs h') = Some a'
                    /\ a_lock a' = false /\ a_keyable a' = true.
Proof.
  intros Hsel. unfold AttributeMaster.set_keyable.
  destruct (selectedItems_run h lw) as (sel & Rs & Hin).
  rewrite (bind_Ok _ _ _ _ _ Rs).
  destruct (set_keyable_loop sel h lw) as (h' & lw' & R & F & G).
  { intros i Hi. apply Hin in Hi. destruct Hi as ([wo s] & Hn & Hs).
    destruct (Hsel _ _ Hn Hs) as (w & a & Hw & E). simpl in Hw. subst wo.
    exists w, s, a. auto. }
  exists h', lw'. split; [exact R|].
  intros i [wo s] w Hn Hs Hw. simpl in Hw, Hs. subst wo.
  apply (G i w s); [apply Hin; eauto | assumption].
Qed.

(** A row of [set_keyable] that returns had its widget and its attribute. *)
Lemma set_keyable_row_inv i h lw t1 :
  AttributeMaster.set_keyable_row i (h, lw) = (t1, Ok tt) ->
  exists w s a,
    nth_error lw i = Some (AttributeMaster.mkItem (Some w) s)
    /\ lookup (Attribute.path w) (attrs h) = Some a.
Proof.
  unfold AttributeMaster.set_keyable_row. intros R.
  apply bind_inv in R. destruct R as (t0 & w & Rw & R).
  unfold AttributeMaster.itemWidget, AttributeMaster.listWidget in Rw.
  apply bind_inv in Rw. destruct Rw as (t0' & lw0 & Rl & Rw).
  injection Rl as <- <-. simpl in Rw.
  destruct (nth_error lw i) as [[[w0|] s]|] eqn:Hn; try discriminate.
  injection Rw as <- ->.
  apply bind_inv in R. destruct R as ([h1 lw1] & [] & R1 & _).
  apply liftH_inv in R1. destruct R1 as [R1 _].
  unfold cmds.setAttr_lock, cmds.setAttr in R1. simpl in R1.
  destruct (lookup (Attribute.path w) (attrs h)) as [a|] eqn:E; [|discriminate].
  exists w, s, a. split; [reflexivity | exact E].
Qed.

Lemma set_keyable_loop_inv sel : forall h lw t',
  for_ sel AttributeMaster.set_keyable_row (h, lw) = (t', Ok tt) ->
  forall i, In i sel ->
    exists w s a, nth_error lw i = Some (AttributeMaster.mkItem (Some w) s)
                  /\ lookup (Attribute.path w) (attrs h) = Some a.
Proof.
  induction sel as [|j sel IH]; intros h lw t' R i Hi; [destruct Hi|].
  simpl in R. apply bind_inv in R. destruct R as ([h1 lw1] & [] & R1 & R).
  destruct (set_keyable_row_inv _ _ _ _ R1) as (wj & sj & aj & Hnj & Ej).
  destruct Hi as [<-|Hi]; [exists wj, sj, aj; auto|].
  destruct (set_keyable_row_run j wj sj h lw aj Hnj Ej) as (h1' & lw1' & R1' & S1 & A1).
  rewrite R1 in R1'. injection R1' as <- <-.
  destruct (IH _ _ _ R i Hi) as (w1 & s1 & a1 & Hn1 & E1).
  destruct (nth_error_row_sig lw1 lw i _ (eq_sym S1) Hn1) as (it & Hn & Hs).
  destruct it as [[w|] s]; unfold row_sig in Hs; simpl in Hs; [|discriminate].
  assert (Hp : Attribute.path w = Attribute.path w1) by congruence.
  assert (s = s1) by congruence. subst s.
  rewrite A1, !lookup_update in E1 by reflexivity.
  destruct (lookup (Attribute.path w1) (attrs h)) as [a|] eqn:E.
  - exists w, s1, a. rewrite Hp. auto.
  - destruct (plug_eqb (Attribute.path w1) (Attribute.path wj)); discriminate.
Qed.

(** C9.  After [set_keyable], every selected attribute is unlocked and
    keyable and is not hidden: the test for the hidden class,
    [is_hidden() and is_keyable() is False], answers [False], and [refresh]
    gives the row the style of a class other than hidden.  The call returns
    when every selected row has its widget and its attribute on the host,
    and in no other case. *)
Theorem set_keyable_unlocks_and_keys (h : host) (lw : list AttributeMaster.item) :
  (selection_alive h lw <->
   exists t', AttributeMaster.set_keyable (h, lw) = (t', Ok tt))
  /\ forall h' lw',
       AttributeMaster.set_keyable (h, lw) = ((h', lw'), Ok tt) ->
       forall i it w,
         nth_error lw i = Some it -> AttributeMaster.selected it = true ->
         AttributeMaster.widget it = Some w ->
         Attribute.is_locked w h' = (h', Ok false)
         /\ Attribute.is_keyable w h' = (h', Ok true)
         /\ is_hidden_and_not_keyable w h' = (h', Ok false)
         /\ exists a',
              lookup (Attribute.path w) (attrs h') = Some a'
              /\ classify (Attribute.is_seperator w) (a_lock a')
                          (a_keyable a') (a_cb a') <> Hidden
              /\ Attribute.refresh w h'
                 = (h', Ok (Attribute.setStyleSheet
                              (style_replace
                                 (class_color (classify (Attribute.is_seperator w)
                                                        (a_lock a') (a_keyable a')
                                                        (a_cb a'))))
                              w)).
Proof.
  assert (Alive : forall t', AttributeMaster.set_keyable (h, lw) = (t', Ok tt) ->
                             selection_alive h lw).
  { intros t' R i [wo s] Hn Hs. simpl in Hs.
    unfold AttributeMaster.set_keyable in R.
    destruct (selectedItems_run h lw) as (sel & Rs & Hin).
    rewrite (bind_Ok _ _ _ _ _ Rs) in R.
    destruct (set_keyable_loop_inv sel _ _ _ R i) as (w & s' & a & Hn' & E).
    - apply Hin. exists (AttributeMaster.mkItem wo s). auto.
    - rewrite Hn in Hn'. injection Hn' as -> ->. exists w, a. auto. }
  split; [split|].
  - intros Hsel. destruct (set_keyable_selected h lw Hsel) as (h' & lw' & R & _).
    eauto.
  - intros [t' R]. exact (Alive t' R).
  - intros h' lw' R i it w Hn Hs Hw.
    destruct (set_keyable_selected h lw (Alive _ R)) as (h2 & lw2 & R2 & G).
    rewrite R in R2. injection R2 as <- <-.
    destruct (G i it w Hn Hs Hw) as (a' & E' & L' & K').
    assert (Rl : Attribute.is_locked w h' = (h', Ok false))
      by (rewrite is_locked_run, E', L'; reflexivity).
    assert (Rk : Attribute.is_keyable w h' = (h', Ok true))
      by (rewrite is_keyable_run, E', K'; reflexivity).
    assert (Rh : Attribute.is_hidden w h' = (h', Ok (negb (a_cb a'))))
      by (rewrite is_hidden_run, E'; reflexivity).
    split; [exact Rl|]. split; [exact Rk|]. split.
    + unfold is_hidden_and_not_keyable, bind. rewrite Rh.
      destruct (negb (a_cb a')); [rewrite Rk|]; reflexivity.
    + exists a'. split; [exact E'|]. split; [|apply refresh_class; exact E'].
      unfold classify. rewrite K'.
      destruct (Attribute.is_seperator w), (a_cb a'), (a_lock a'); discriminate.
Qed.

(** [is_hidden] on its own reads the channelBox flag, which [set_keyable]
    does not write: for an attribute hidden before, it still answers true.
    The panel never asks it alone. *)
Lemma set_keyable_leaves_is_hidden :
  snd (AttributeMaster.set_keyable (hidden_host, tx_rows)) = Ok tt
  /\ snd (Attribute.is_hidden (sample_widget "n" "tx")
                              (fst (fst (AttributeMaster.set_keyable (hidden_host, tx_rows)))))
     = Ok true
  /\ snd (is_hidden_and_not_keyable
            (sample_widget "n" "tx")
            (fst (fst (AttributeMaster.set_keyable (hidden_host, tx_rows)))))
     = Ok false.
Proof. vm_compute. repeat split; reflexivity. Qed.

(** ** [add_new_seperator] *)

Lemma update_absent p f l : lookup p l = None -> update p f l = l.
Proof.
  induction l as [|x l IH]; simpl; [reflexivity|].
  destruct (plug_eqb (key x) p); [discriminate|]. intros H. f_equal. auto.
Qed.

Lemma lookup_app_absent p l x :
  lookup p l = None -> key x = p -> lookup p (l ++ [x]) = Some x.
Proof.
  intros N K. induction l as [|y l IH]; simpl in *.
  - rewrite K, plug_eqb_refl. reflexivity.
  - destruct (plug_eqb (key y) p); [discriminate | auto].
Qed.

Lemma update_app_absent p f l x :
  lookup p l = None -> key x = p -> update p f (l ++ [x]) = l ++ [f x].
Proof.
  intros N K. unfold update at 1. rewrite map_app. fold (update p f l).
  rewrite update_absent by assumption. simpl. rewrite K, plug_eqb_refl. reflexivity.
Qed.

Lemma attributeQuery_exists_run name nd h :
  cmds.attributeQuery_exists name nd h =
  (h, Ok match lookup (nd, name) (attrs h) with Some _ => true | None => false end).
Proof. reflexivity. Qed.

(** The search goes on while the name is taken and the bound not reached. *)
Lemma next_id_taken fuel nd id max h :
  lookup (nd, seperator_name id) (attrs h) <> None -> max < 10 ->
  AttributeMaster.next_id (S fuel) nd id max h =
  AttributeMaster.next_id fuel nd (id + 1) (max + 1) h.
Proof.
  unfold seperator_name. intros E Hm.
  cbn [AttributeMaster.next_id]. unfold bind. rewrite attributeQuery_exists_run.
  destruct (lookup _ _); [|congruence].
  destruct (Nat.ltb_spec 10 (max + 1)); [lia | reflexivity].
Qed.

Lemma next_id_bound fuel nd id h :
  lookup (nd, seperator_name id) (attrs h) <> None ->
  AttributeMaster.next_id (S fuel) nd id 10 h = (h, Ok id).
Proof.
  unfold seperator_name. intros E.
  cbn [AttributeMaster.next_id]. unfold bind. rewrite attributeQuery_exists_run.
  destruct (lookup _ _); [reflexivity | congruence].
Qed.

Lemma next_id_free fuel nd id max h :
  lookup (nd, seperator_name id) (attrs h) = None ->
  AttributeMaster.next_id (S fuel) nd id max h = (h, Ok id).
Proof.
  unfold seperator_name. intros E.
  cbn [AttributeMaster.next_id]. unfold bind. rewrite attributeQuery_exists_run.
  rewrite E. reflexivity.
Qed.

(** The loop ends within eleven tests: twelve units of fuel never run
    out, and the search only reads the host. *)
Lemma next_id_total fuel : forall nd id max h,
  11 - max < fuel ->
  exists id', AttributeMaster.next_id fuel nd id max h = (h, Ok id').
Proof.
  induction fuel as [|fuel IH]; intros nd id max h Hf; [lia|].
  cbn [AttributeMaster.next_id]. unfold bind. rewrite attributeQuery_exists_run.
  destruct (lookup _ _); [|eexists; reflexivity].
  destruct (Nat.ltb_spec 10 (max + 1)); [eexists; reflexivity|].
  apply IH. lia.
Qed.

Lemma next_id_ten nd h :
  (forall i, i < 10 -> lookup (nd, seperator_name i) (attrs h) <> None) ->
  lookup (nd, seperator_name 10) (attrs h) = None ->
  AttributeMaster.next_id 12 nd 0 0 h = (h, Ok 10).
Proof.
  intros H N.
  do 10 (rewrite next_id_taken by (try apply H; simpl; lia)).
  apply next_id_free. exact N.
Qed.

(** Building a widget only reads the host. *)
Lemma init_run nd nice long lck k cb ty h a :
  lookup (nd, long) (attrs h) = Some a ->
  exists w, Attribute.init nd nice long lck k cb ty h = (h, Ok w).
Proof.
  intros E. unfold Attribute.init.
  match goal with
  | |- context [Attribute.refresh ?w0] =>
      destruct (refresh_total w0 h) as [c Hc]
  end.
  destruct (ty =? "enum")%string.
  - erewrite bind_Ok.
    2:{ erewrite bind_Ok; [reflexivity|]. unfold cmds.attributeQuery.
        rewrite E. reflexivity. }
    eexists. exact Hc.
  - erewrite bind_Ok by reflexivity. eexists. exact Hc.
Qed.

Lemma refresh_rows_run select names h : forall lw,
  (forall x, In x names -> lookup (select, x) (attrs h) <> None) ->
  exists lw',
    for_ names (fun x =>
      a <- liftH (cmds.attributeQuery x select) ;;
      w <- liftH (Attribute.init select (a_nice a) (a_long a) false
                                 (a_keyable a) (a_cb a) (a_type a)) ;;
      modify (fun st : AttributeMaster.tool =>
                (fst st, snd st ++ [AttributeMaster.mkItem (Some w) false])))
      (h, lw) = ((h, lw'), Ok tt).
Proof.
  induction names as [|x names IH]; intros lw Hx.
  - exists lw. reflexivity.
  - destruct (lookup (select, x) (attrs h)) as [a|] eqn:E;
      [|exfalso; eapply Hx; [left; reflexivity | exact E]].
    assert (Ka : a_long a = x) by (apply lookup_key in E; unfold key in E; congruence).
    destruct (init_run select (a_nice a) (a_long a) false (a_keyable a) (a_cb a)
                       (a_type a) h a) as [w Hw]; [rewrite Ka; exact E|].
    destruct (IH (lw ++ [AttributeMaster.mkItem (Some w) false])) as [lw' R];
      [intros y Hy; apply Hx; right; exact Hy|].
    exists lw'. simpl.
    erewrite bind_Ok; [exact R|].
    erewrite bind_Ok by (apply liftH_run; unfold cmds.attributeQuery; rewrite E; reflexivity).
    erewrite bind_Ok by (apply liftH_run, Hw).
    reflexivity.
Qed.

(** The panel's [refresh] rebuilds the rows and leaves the host alone. *)
Lemma tool_refresh_run h lw :
  exists lw', AttributeMaster.refresh (h, lw) = ((h, lw'), Ok tt).
Proof.
  unfold AttributeMaster.refresh.
  rewrite (bind_Ok _ _ (h, lw) (h, []) tt) by reflexivity.
  rewrite (bind_Ok _ _ (h, []) (h, []) (selection h)) by reflexivity.
  destruct (selection h) as [|select rest]; [eexists; reflexivity|].
  erewrite bind_Ok by (apply liftH_run; reflexivity).
  destruct (map a_long _) as [|x names] eqn:En; [eexists; reflexivity|].
  apply refresh_rows_run. intros y Hy. rewrite <- En in Hy.
  apply in_map_iff in Hy. destruct Hy as (a & <- & Ha).
  apply filter_In in Ha. destruct Ha as [Ha Hb].
  apply andb_prop in Hb. destruct Hb as [Hb _].
  apply String.eqb_eq in Hb. subst select.
  intros N. apply lookup_None in N. apply N. apply in_map_iff. exists a. auto.
Qed.

Lemma addAttr_run nd long ty nice h :
  lookup (nd, long) (attrs h) = None ->
  exists h', cmds.addAttr nd long ty nice h = (h', Ok tt)
             /\ attrs h' = attrs h ++ [mkAttr nd long nice false false false ty true].
Proof.
  intros N. unfold cmds.addAttr. simpl. rewrite N.
  eexists. split; reflexivity.
Qed.

Lemma setAttr_attrs c inv f p h a :
  lookup p (attrs h) = Some a ->
  exists h', cmds.setAttr c inv f p h = (h', Ok tt)
             /\ attrs h' = update p f (attrs h).
Proof.
  intros E. rewrite (setAttr_run _ _ _ _ _ _ E). eexists. split; reflexivity.
Qed.

(** C3, as the code has it.  With [__seperator_0] to [__seperator_9] on
    the selected node and [__seperator_10] free, the bounded search stops at
    id 10 and, the dialog accepted with a text, [add_new_seperator] appends
    [__seperator_10], an eleventh separator, shown in the channel box and
    locked; a cancelled dialog or an empty text leaves everything as it was. *)
Theorem add_new_seperator_eleventh
        (h : host) (lw : list AttributeMaster.item) (nd : string)
        (rest : list string) (text : string) :
  selection h = nd :: rest ->
  (forall i, i < 10 -> lookup (nd, seperator_name i) (attrs h) <> None) ->
  lookup (nd, seperator_name 10) (attrs h) = None ->
  text <> "" ->
  (exists h' lw',
     AttributeMaster.add_new_seperator text true (h, lw) = ((h', lw'), Ok tt)
     /\ attrs h' = attrs h ++ [mkAttr nd "__seperator_10" text true false true "enum" true])
  /\ AttributeMaster.add_new_seperator "" true (h, lw) = ((h, lw), Ok tt)
  /\ (forall t, AttributeMaster.add_new_seperator t false (h, lw) = ((h, lw), Ok tt)).
Proof.
  intros Hsel H N Ht.
  assert (Hn : AttributeMaster.selected_node (h, lw) = ((h, lw), Ok (Some nd))).
  { unfold AttributeMaster.selected_node.
    rewrite (bind_Ok _ _ (h, lw) (h, lw) (selection h)) by reflexivity.
    rewrite Hsel. reflexivity. }
  assert (Hid : liftH (X := list AttributeMaster.item)
                      (AttributeMaster.next_id 12 nd 0 0) (h, lw) = ((h, lw), Ok 10))
    by (apply liftH_run, next_id_ten; assumption).
  split; [|split].
  - unfold AttributeMaster.add_new_seperator.
    rewrite (bind_Ok _ _ _ _ _ Hn), (bind_Ok _ _ _ _ _ Hid).
    fold (seperator_name 10).
    destruct text as [|c text]; [congruence|].
    change (true && Nat.ltb 0 (String.length (String c text))) with true.
    cbv iota.
    set (x := mkAttr nd (seperator_name 10) (String c text) false false false "enum" true).
    destruct (addAttr_run nd (seperator_name 10) "enum" (String c text) h N)
      as (h1 & R1 & A1).
    assert (E1 : lookup (nd, seperator_name 10) (attrs h1) = Some x)
      by (rewrite A1; apply lookup_app_absent; [assumption | reflexivity]).
    destruct (setAttr_attrs (SetAttrChannelBox (nd, seperator_name 10) true)
                (fun a => InvChannelBox (nd, seperator_name 10) (a_cb a))
                (set_cb true) _ h1 x E1) as (h2 & R2 & A2).
    rewrite A1, update_app_absent in A2 by (assumption || reflexivity).
    assert (E2 : lookup (nd, seperator_name 10) (attrs h2) = Some (set_cb true x))
      by (rewrite A2; apply lookup_app_absent; [assumption | reflexivity]).
    destruct (setAttr_attrs (SetAttrLock (nd, seperator_name 10) true)
                (fun a => InvLock (nd, seperator_name 10) (a_lock a))
                (set_lock true) _ h2 _ E2) as (h3 & R3 & A3).
    rewrite A2, update_app_absent in A3 by (assumption || reflexivity).
    destruct (tool_refresh_run h3 lw) as [lw' R4].
    exists h3, lw'. split; [|exact A3].
    rewrite (bind_Ok _ _ (h, lw) (h1, lw) tt) by (apply liftH_run, R1).
    rewrite (bind_Ok _ _ (h1, lw) (h2, lw) tt) by (apply liftH_run, R2).
    rewrite (bind_Ok _ _ (h2, lw) (h3, lw) tt) by (apply liftH_run, R3).
    exact R4.
  - unfold AttributeMaster.add_new_seperator.
    rewrite (bind_Ok _ _ _ _ _ Hn), (bind_Ok _ _ _ _ _ Hid). reflexivity.
  - intros t. unfold AttributeMaster.add_new_seperator.
    rewrite (bind_Ok _ _ _ _ _ Hn), (bind_Ok _ _ _ _ _ Hid). reflexivity.
Qed.

(** C3 as stated fails: on the node with the ten separators the accepted
    dialog does add [__seperator_10], and the attributes are not what they
    were. *)
Lemma add_new_seperator_not_refused :
  map a_long (attrs ten_seperators) = map seperator_name (seq 0 10)
  /\ snd (AttributeMaster.add_new_seperator "title" true (ten_seperators, [])) = Ok tt
  /\ map a_long
         (attrs (fst (fst (AttributeMaster.add_new_seperator "title" true
                                                             (ten_seperators, [])))))
     = map seperator_name (seq 0 11)
  /\ attrs (fst (fst (AttributeMaster.add_new_seperator "title" true (ten_seperators, []))))
     <> attrs ten_seperators.
Proof. vm_compute. repeat split; discriminate. Qed.

(** X18.  Where the search does hit its bound: with [__seperator_0] to
    [__seperator_10] taken it gives up at id 10, a taken name, and the host
    rejects the [addAttr] that follows; the attributes stay as they were. *)
Lemma add_new_seperator_bound
      (h : host) (lw : list AttributeMaster.item) (nd : string)
      (rest : list string) (text : string) :
  selection h = nd :: rest ->
  (forall i, i < 11 -> lookup (nd, seperator_name i) (attrs h) <> None) ->
  text <> "" ->
  exists h', AttributeMaster.add_new_seperator text true (h, lw)
             = ((h', lw), Raise (RuntimeError "name already in use"))
             /\ attrs h' = attrs h.
Proof.
  intros Hsel H Ht.
  unfold AttributeMaster.add_new_seperator, AttributeMaster.selected_node.
  rewrite (bind_Ok _ _ (h, lw) (h, lw) (Some nd)).
  2:{ rewrite (bind_Ok _ _ (h, lw) (h, lw) (selection h)) by reflexivity.
      rewrite Hsel. reflexivity. }
  rewrite (bind_Ok _ _ (h, lw) (h, lw) 10).
  2:{ apply liftH_run.
      do 10 (rewrite next_id_taken by (try apply H; simpl; lia)).
      apply next_id_bound, H. lia. }
  destruct text as [|c text]; [congruence|].
  change (true && Nat.ltb 0 (String.length (String c text))) with true.
  cbv iota. fold (seperator_name 10).
  destruct (lookup (nd, seperator_name 10) (attrs h)) as [a|] eqn:E;
    [|exfalso; apply (H 10); [lia | exact E]].
  eexists. split.
  - erewrite bind_Raise; [reflexivity|]. apply liftH_run.
    unfold cmds.addAttr. simpl. rewrite E. reflexivity.
  - reflexivity.
Qed.

(** ** Commands inside an undo chunk *)

Lemma conn_eqb_spec (c d : plug * plug) : reflect (c = d) (conn_eqb c d).
Proof.
  destruct c as [s1 d1], d as [s2 d2]. unfold conn_eqb. simpl.
  destruct (plug_eqb_spec s1 s2), (plug_eqb_spec d1 d2); simpl;
    constructor; congruence.
Qed.

Lemma existsb_conn c l : In c l -> existsb (conn_eqb c) l = true.
Proof.
  intros H. apply existsb_exists. exists c. split; [assumption|].
  destruct (conn_eqb_spec c c); congruence.
Qed.

Lemma record_in_chunk i h d :
  undo_state h = true -> chunk_depth h = S d ->
  record i h = with_chunk (S d) (i :: chunk h) h.
Proof. unfold record. intros -> ->. reflexivity. Qed.

Lemma idents_update_lock p v l : map ident (update p (set_lock v) l) = map ident l.
Proof.
  unfold update. rewrite map_map. apply map_ext.
  intros a. destruct (plug_eqb (key a) p); reflexivity.
Qed.

Lemma keys_idents h : keys h = map fst (idents h).
Proof. unfold keys, idents. rewrite map_map. reflexivity. Qed.

(** Well-formedness looks at the plugs and the connections only. *)
Lemma wf_ext h h' :
  wf h -> idents h' = idents h -> conns h' = conns h -> wf h'.
Proof.
  unfold wf. rewrite !keys_idents. intros H -> ->. exact H.
Qed.

Lemma wf_filter_conns h h' f :
  wf h -> idents h' = idents h -> conns h' = filter f (conns h) -> wf h'.
Proof.
  unfold wf. rewrite !keys_idents. intros (K & C & E) -> ->.
  split; [assumption|]. split; [apply NoDup_filter; assumption|].
  intros s d H. apply filter_In in H. apply E. tauto.
Qed.

Lemma setAttr_lock_chunk p v h a d :
  undo_state h = true -> chunk_depth h = S d ->
  lookup p (attrs h) = Some a ->
  exists h', cmds.setAttr_lock p v h = (h', Ok tt)
             /\ attrs h' = update p (set_lock v) (attrs h)
             /\ conns h' = conns h
             /\ undo_view h' = undo_view h
             /\ chunk h' = InvLock p (a_lock a) :: chunk h.
Proof.
  intros Hs Hd E. unfold cmds.setAttr_lock.
  rewrite (setAttr_run _ _ _ _ _ _ E).
  rewrite (record_in_chunk _ _ d) by assumption.
  eexists. split; [reflexivity|]. repeat split.
  unfold undo_view. simpl. rewrite Hd. reflexivity.
Qed.

Lemma disconnectAttr_chunk s d h a n :
  undo_state h = true -> chunk_depth h = S n ->
  In (s, d) (conns h) ->
  lookup d (attrs h) = Some a -> a_lock a = false ->
  exists h', cmds.disconnectAttr s d h = (h', Ok tt)
             /\ attrs h' = attrs h
             /\ conns h' = filter (fun c => negb (conn_eqb (s, d) c)) (conns h)
             /\ undo_view h' = undo_view h
             /\ chunk h' = InvConnect s d :: chunk h.
Proof.
  intros Hs Hd Hin E L. unfold cmds.disconnectAttr. simpl.
  rewrite (existsb_conn _ _ Hin), E, L.
  rewrite (record_in_chunk _ _ n) by assumption.
  eexists. split; [reflexivity|]. repeat split.
  unfold undo_view. simpl. rewrite Hd. reflexivity.
Qed.

Lemma undo_view_state h len q n :
  undo_view h = (true, true, len, q, n) ->
  undo_state h = true /\ undo_infinity h = true /\ undo_length h = len
  /\ queue h = q /\ chunk_depth h = n.
Proof. unfold undo_view. intros [= -> -> -> -> ->]. auto. Qed.

Section DisconnectLoop.

(** The two loops of [delete] break the connections [mk c] of the plug
    [p], for the plugs [c] at their other end. *)
Variable p : plug.
Variable mk : plug -> plug * plug.
Hypothesis mk_inj : forall c c', mk c = mk c' -> c = c'.
Hypothesis mk_end : forall c, fst (mk c) = c \/ snd (mk c) = c.
Hypothesis mk_dst : forall c, snd (mk c) = p \/ snd (mk c) = c.

Variable ids : list (plug * bool).
Variable len : nat.
Variable q : list (list inverse).

Lemma disconnect_loop cs : forall h,
  in_delete_chunk p ids len q h ->
  NoDup cs ->
  (forall c, In c cs -> In (mk c) (conns h)) ->
  exists h',
    for_ cs (fun c => cmds.setAttr_lock c false ;;
                      cmds.disconnectAttr (fst (mk c)) (snd (mk c))) h = (h', Ok tt)
    /\ in_delete_chunk p ids len q h'.
Proof.
  induction cs as [|c cs IH]; intros h J Hnd Hin.
  - exists h. split; [reflexivity | assumption].
  - destruct J as (W & V & I & Hh & a & Ea & La).
    destruct (undo_view_state _ _ _ _ V) as (Hs & _ & _ & _ & Hd).
    assert (Hc : In (mk c) (conns h)) by (apply Hin; left; reflexivity).
    assert (Hk : In c (keys h)).
    { destruct W as (_ & _ & E). rewrite (surjective_pairing (mk c)) in Hc.
      apply E in Hc. destruct (mk_end c) as [<-|<-]; tauto. }
    apply lookup_Some_In in Hk. destruct Hk as [b Eb].
    destruct (setAttr_lock_chunk c false h b 0 Hs Hd Eb)
      as (h1 & R1 & A1 & C1 & V1 & K1).
    assert (I1 : idents h1 = idents h)
      by (unfold idents; rewrite A1; apply idents_update_lock).
    assert (Ep : exists a1, lookup p (attrs h1) = Some a1 /\ a_lock a1 = false).
    { rewrite A1, lookup_update by reflexivity. rewrite Ea.
      destruct (plug_eqb p c); eexists; split; try reflexivity; assumption. }
    assert (Ec : exists b1, lookup c (attrs h1) = Some b1 /\ a_lock b1 = false).
    { rewrite A1, lookup_update by reflexivity. rewrite plug_eqb_refl, Eb.
      eexists; split; reflexivity. }
    assert (Ed : exists d1, lookup (snd (mk c)) (attrs h1) = Some d1
                            /\ a_lock d1 = false)
      by (destruct (mk_dst c) as [->| ->]; assumption).
    destruct Ed as (d1 & Ed & Ld).
    rewrite V in V1.
    destruct (undo_view_state _ _ _ _ V1) as (Hs1 & _ & _ & _ & Hd1).
    destruct (disconnectAttr_chunk (fst (mk c)) (snd (mk c)) h1 d1 0 Hs1 Hd1)
      as (h2 & R2 & A2 & C2 & V2 & K2); try assumption.
    { rewrite <- surjective_pairing, C1. exact Hc. }
    rewrite <- surjective_pairing in C2.
    destruct (IH h2) as (h' & R & J').
    + split; [|split; [|split; [|split]]].
      * eapply wf_filter_conns; [exact W | | rewrite C2, C1; reflexivity].
        unfold idents. rewrite A2. exact I1.
      * rewrite V2. exact V1.
      * unfold idents. rewrite A2. fold (idents h1). congruence.
      * rewrite K2, K1. repeat constructor. exact Hh.
      * rewrite A2. exact Ep.
    + inversion Hnd; assumption.
    + intros c' Hc'. rewrite C2, C1. apply filter_In. split.
      * apply Hin. right. exact Hc'.
      * destruct (conn_eqb_spec (mk c) (mk c')) as [E|]; [|reflexivity].
        apply mk_inj in E. subst c'. inversion Hnd. contradiction.
    + exists h'. split; [|exact J'].
      simpl. erewrite bind_Ok; [exact R|].
      erewrite bind_Ok by exact R1. exact R2.
Qed.

End DisconnectLoop.

(** ** [delete] of an existing user attribute *)

Lemma with_run {S A} (enter exit : M S unit) (body : M S A) s s1 s2 s3 r :
  enter s = (s1, Ok tt) -> body s1 = (s2, r) -> exit s2 = (s3, Ok tt) ->
  with_ enter exit body s = (s3, r).
Proof. unfold with_. intros -> -> ->. reflexivity. Qed.

Lemma record_connects gone : forall h n,
  undo_state h = true -> chunk_depth h = S n ->
  let h1 := fold_right (fun c h' => record (InvConnect (fst c) (snd c)) h') h gone in
  undo_view h1 = undo_view h
  /\ chunk h1 = map (fun c => InvConnect (fst c) (snd c)) gone ++ chunk h.
Proof.
  induction gone as [|c gone IH]; intros h n Hs Hd; simpl; [auto|].
  destruct (IH h n Hs Hd) as [V K].
  assert (Hv : undo_state (fold_right (fun c h' => record (InvConnect (fst c) (snd c)) h')
                                      h gone) = true
               /\ chunk_depth (fold_right (fun c h' => record (InvConnect (fst c) (snd c)) h')
                                          h gone) = S n).
  { unfold undo_view in V. injection V as -> _ _ _ ->. auto. }
  destruct Hv as [Hs' Hd'].
  rewrite (record_in_chunk _ _ n) by assumption. simpl. split.
  - unfold undo_view in *. simpl. injection V as -> -> -> -> _.
    rewrite Hd. reflexivity.
  - rewrite K. reflexivity.
Qed.

Lemma deleteAttr_chunk p h a n :
  undo_state h = true -> chunk_depth h = S n ->
  lookup p (attrs h) = Some a -> a_lock a = false -> a_user a = true ->
  exists h' pre,
    cmds.deleteAttr p h = (h', Ok tt)
    /\ attrs h' = remove_attr p (attrs h)
    /\ conns h' = filter (fun c => negb (touches p c)) (conns h)
    /\ undo_view h' = undo_view h
    /\ chunk h' = pre ++ InvCreate a :: chunk h
    /\ Forall harmless pre.
Proof.
  intros Hs Hd E L U. unfold cmds.deleteAttr. simpl. rewrite E, L, U. simpl.
  set (h0 := record (InvCreate a) (log (DeleteAttr p) h)).
  assert (H0 : h0 = with_chunk (S n) (InvCreate a :: chunk h) (log (DeleteAttr p) h))
    by exact (record_in_chunk _ (log (DeleteAttr p) h) n Hs Hd).
  destruct (record_connects (filter (touches p) (conns h)) h0 n) as [V K];
    [rewrite H0; assumption | rewrite H0; reflexivity |].
  eexists. exists (map (fun c => InvConnect (fst c) (snd c)) (filter (touches p) (conns h))).
  split; [reflexivity|]. repeat split.
  - unfold undo_view in *. simpl. rewrite V, H0. simpl. rewrite Hd. reflexivity.
  - simpl. rewrite K, H0. reflexivity.
  - apply Forall_forall. intros i Hi. apply in_map_iff in Hi.
    destruct Hi as (c & <- & _). exact I.
Qed.

Lemma closeChunk_outermost h c0 c :
  chunk_depth h = 1 -> chunk h = c0 :: c -> undo_infinity h = true ->
  exists h', cmds.undoInfo_closeChunk h = (h', Ok tt)
             /\ attrs h' = attrs h /\ conns h' = conns h
             /\ undo_settings h' = undo_settings h
             /\ queue h' = (c0 :: c) :: queue h
             /\ idle h'.
Proof.
  intros Hd Hc Hi. unfold cmds.undoInfo_closeChunk. simpl. rewrite Hd, Hc, Hi.
  eexists. split; [reflexivity|]. repeat split.
Qed.

Lemma NoDup_map_fst_filter (p : plug) (l : list (plug * plug)) :
  NoDup l -> NoDup (map fst (filter (fun c => plug_eqb (snd c) p) l)).
Proof.
  induction 1 as [|[s d] l Hn Hd IH]; simpl; [constructor|].
  destruct (plug_eqb_spec d p) as [->|]; [|assumption].
  simpl. constructor; [|assumption].
  intros H. apply in_map_iff in H. destruct H as ([s' d'] & Hs & H').
  apply filter_In in H'. destruct H' as [H' Hp]. simpl in *.
  destruct (plug_eqb_spec d' p); [|discriminate]. subst. contradiction.
Qed.

Lemma NoDup_map_snd_filter (p : plug) (l : list (plug * plug)) :
  NoDup l -> NoDup (map snd (filter (fun c => plug_eqb (fst c) p) l)).
Proof.
  induction 1 as [|[s d] l Hn Hd IH]; simpl; [constructor|].
  destruct (plug_eqb_spec s p) as [->|]; [|assumption].
  simpl. constructor; [|assumption].
  intros H. apply in_map_iff in H. destruct H as ([s' d'] & Hs & H').
  apply filter_In in H'. destruct H' as [H' Hp]. simpl in *.
  destruct (plug_eqb_spec s' p); [|discriminate]. subst. contradiction.
Qed.

Lemma idents_remove p l :
  map ident (remove_attr p l) =
  filter (fun i => negb (plug_eqb (fst i) p)) (map ident l).
Proof.
  induction l as [|a l IH]; simpl; [reflexivity|].
  destruct (plug_eqb (key a) p); simpl; [assumption | f_equal; assumption].
Qed.

(** With unique plugs, [lookup] finds the attribute that is in the list. *)
Lemma lookup_unique l a :
  NoDup (map key l) -> In a l -> lookup (key a) l = Some a.
Proof.
  induction l as [|x l IH]; simpl; [contradiction|].
  intros Hn [->|Hin].
  - rewrite plug_eqb_refl. reflexivity.
  - inversion Hn as [|? ? Hx Hn']; subst.
    destruct (plug_eqb_spec (key x) (key a)) as [E|]; [|auto].
    exfalso. apply Hx. rewrite E. apply in_map. assumption.
Qed.

Lemma lookup_ident h p u :
  NoDup (keys h) -> In (p, u) (idents h) ->
  exists a, lookup p (attrs h) = Some a /\ a_user a = u.
Proof.
  intros Hn Hin. apply in_map_iff in Hin. destruct Hin as (a & Ha & Hin).
  unfold ident in Ha. injection Ha as <- <-.
  exists a. split; [apply lookup_unique; assumption | reflexivity].
Qed.

Lemma lookup_in_idents h p a :
  lookup p (attrs h) = Some a -> In (p, a_user a) (idents h).
Proof.
  intros E. apply in_map_iff. exists a. split.
  - unfold ident. rewrite (lookup_key _ _ _ E). reflexivity.
  - eapply lookup_In; eassumption.
Qed.

Lemma wf_remove h h' p :
  wf h ->
  attrs h' = remove_attr p (attrs h) ->
  conns h' = filter (fun c => negb (touches p c)) (conns h) ->
  wf h'.
Proof.
  intros (K & C & E) A B. unfold wf, keys in *. rewrite A, B.
  assert (Hk : map key (remove_attr p (attrs h))
               = filter (fun k => negb (plug_eqb k p)) (map key (attrs h))).
  { clear. induction (attrs h) as [|a l IH]; simpl; [reflexivity|].
    destruct (plug_eqb (key a) p); simpl; [assumption | f_equal; assumption]. }
  rewrite Hk. split; [apply NoDup_filter; assumption|].
  split; [apply NoDup_filter; assumption|].
  intros s d H. apply filter_In in H. destruct H as [H T].
  apply E in H. unfold touches in T. simpl in T.
  apply negb_true_iff, orb_false_elim in T. destruct T as [Ts Td].
  rewrite !filter_In, Ts, Td. tauto.
Qed.

(** Deleting an existing user attribute succeeds: the attribute leaves the
    scene and the queue gets one chunk, whose replay re-creates it. *)
Lemma delete_ok self h a :
  wf h -> idle h -> undo_state h = true -> undo_infinity h = true ->
  lookup (Attribute.path self) (attrs h) = Some a -> a_user a = true ->
  exists h' c,
    Attribute.delete self h = (h', Ok tt)
    /\ wf h' /\ idle h'
    /\ undo_settings h' = undo_settings h
    /\ idents h' = filter (fun i => negb (plug_eqb (fst i) (Attribute.path self)))
                          (idents h)
    /\ queue h' = c :: queue h
    /\ recreates (Attribute.path self) c.
Proof.
  intros W [Hd Hc] Hs Hi E U.
  set (p := Attribute.path self) in *.
  (* __enter__ opens the chunk *)
  set (h0 := with_chunk 1 [] (log OpenChunk h)).
  assert (R0 : UndoChunkContext.enter h = (h0, Ok tt)).
  { unfold UndoChunkContext.enter, cmds.undoInfo_openChunk. simpl.
    rewrite Hd, Hc. reflexivity. }
  (* the attribute is unlocked *)
  destruct (setAttr_lock_chunk p false h0 a 0 Hs eq_refl E)
    as (h1 & R1 & A1 & C1 & V1 & K1).
  assert (J1 : in_delete_chunk p (idents h) (undo_length h) (queue h) h1).
  { split; [|split; [|split; [|split]]].
    - apply (wf_ext h); [assumption | | assumption].
      unfold idents. rewrite A1. apply idents_update_lock.
    - rewrite V1. unfold undo_view. simpl. rewrite Hs, Hi. reflexivity.
    - unfold idents. rewrite A1. apply idents_update_lock.
    - rewrite K1. repeat constructor.
    - rewrite A1, lookup_update by reflexivity. rewrite plug_eqb_refl.
      change (attrs h0) with (attrs h). rewrite E. eexists. split; reflexivity. }
  (* the connections into it are broken *)
  destruct (disconnect_loop p (fun c => (c, p))) with
      (ids := idents h) (len := undo_length h) (q := queue h) (h := h1)
      (cs := map fst (filter (fun c => plug_eqb (snd c) p) (conns h1)))
    as (h2 & R2 & J2); try assumption.
  { intros c c'. congruence. }
  { intros c. left. reflexivity. }
  { intros c. left. reflexivity. }
  { apply NoDup_map_fst_filter. destruct J1 as ((_ & N & _) & _). exact N. }
  { intros c Hin. apply in_map_iff in Hin. destruct Hin as ([s d] & <- & Hin).
    apply filter_In in Hin. destruct Hin as [Hin Hp]. simpl in *.
    destruct (plug_eqb_spec d p); [subst; assumption | discriminate]. }
  (* the connections out of it are broken *)
  destruct (disconnect_loop p (fun c => (p, c))) with
      (ids := idents h) (len := undo_length h) (q := queue h) (h := h2)
      (cs := map snd (filter (fun c => plug_eqb (fst c) p) (conns h2)))
    as (h3 & R3 & J3); try assumption.
  { intros c c'. congruence. }
  { intros c. right. reflexivity. }
  { intros c. right. reflexivity. }
  { apply NoDup_map_snd_filter. destruct J2 as ((_ & N & _) & _). exact N. }
  { intros c Hin. apply in_map_iff in Hin. destruct Hin as ([s d] & <- & Hin).
    apply filter_In in Hin. destruct Hin as [Hin Hp]. simpl in *.
    destruct (plug_eqb_spec s p); [subst; assumption | discriminate]. }
  (* the attribute is deleted *)
  destruct J3 as (W3 & V3 & I3 & H3 & a3 & E3 & L3).
  destruct (undo_view_state _ _ _ _ V3) as (Hs3 & Hi3 & Hl3 & Hq3 & Hd3).
  assert (U3 : a_user a3 = true).
  { assert (Hin : In (p, a_user a3) (idents h))
      by (rewrite <- I3; apply lookup_in_idents; assumption).
    destruct W as (N & _). destruct (lookup_ident h p _ N Hin) as (a' & E' & U').
    simpl in E. rewrite E in E'. injection E' as <-. congruence. }
  destruct (deleteAttr_chunk p h3 a3 0 Hs3 Hd3 E3 L3 U3)
    as (h4 & pre & R4 & A4 & C4 & V4 & K4 & P4).
  rewrite V3 in V4.
  destruct (undo_view_state _ _ _ _ V4) as (Hs4 & Hi4 & Hl4 & Hq4 & Hd4).
  (* __exit__ closes the chunk, which goes on the queue *)
  assert (Hne : exists c0 c, chunk h4 = c0 :: c).
  { rewrite K4. destruct pre; simpl; eauto. }
  destruct Hne as (c0 & c & Hch).
  destruct (closeChunk_outermost h4 c0 c Hd4 Hch Hi4)
    as (h5 & R5 & A5 & C5 & S5 & Q5 & Idle5).
  exists h5, (c0 :: c). split; [|split; [|split; [|split; [|split; [|split]]]]].
  - unfold Attribute.delete. fold p.
    eapply with_run; [exact R0 | | exact R5].
    erewrite bind_Ok by exact R1.
    erewrite bind_Ok by reflexivity.
    erewrite bind_Ok by exact R2.
    erewrite bind_Ok by reflexivity.
    erewrite bind_Ok by exact R3.
    exact R4.
  - apply (wf_ext h4); [|unfold idents; rewrite A5; reflexivity | assumption].
    eapply wf_remove; eassumption.
  - exact Idle5.
  - rewrite S5. unfold undo_settings. rewrite Hs4, Hi4, Hl4, Hs, Hi. reflexivity.
  - unfold idents. rewrite A5, A4, idents_remove. fold (idents h3).
    rewrite I3. reflexivity.
  - rewrite Q5, Hq4. reflexivity.
  - rewrite <- Hch, K4. split.
    + apply Forall_app. split.
      * eapply Forall_impl; [|exact P4]. intros [] Hh; simpl in *; tauto.
      * constructor.
        -- simpl. unfold ident. rewrite (lookup_key _ _ _ E3), U3. reflexivity.
        -- eapply Forall_impl; [|exact H3]. intros [] Hh; simpl in *; tauto.
    + apply Exists_app. right. constructor. exact I.
Qed.

(** ** Replaying the chunk of a [delete] *)

Lemma apply_inverse_frame i h :
  undo_settings (apply_inverse i h) = undo_settings h
  /\ queue (apply_inverse i h) = queue h.
Proof.
  destruct i; simpl; try (split; reflexivity).
  - destruct (existsb _ _); split; reflexivity.
  - destruct (lookup _ _); split; reflexivity.
  - destruct (lookup _ _); split; reflexivity.
Qed.

Lemma apply_chunk_frame c : forall h,
  undo_settings (apply_chunk c h) = undo_settings h
  /\ queue (apply_chunk c h) = queue h.
Proof.
  unfold apply_chunk. induction c as [|i c IH]; intros h; simpl; [auto|].
  destruct (IH (apply_inverse i h)) as [-> ->]. apply apply_inverse_frame.
Qed.

Lemma present_idents p h :
  lookup p (attrs h) = None <-> ~ In p (map fst (idents h)).
Proof. rewrite lookup_None. fold (keys h). rewrite keys_idents. tauto. Qed.

(** Once the plug is there, the entries of the chunk change no identity. *)
Lemma apply_entry_present p i h :
  delete_entry p i -> In p (map fst (idents h)) ->
  idents (apply_inverse i h) = idents h.
Proof.
  intros D Hin. destruct i; simpl in D; try contradiction; simpl.
  - unfold idents. simpl. apply idents_update_lock.
  - destruct (existsb _ _); reflexivity.
  - assert (K : key a = p) by (unfold ident in D; congruence).
    rewrite K. destruct (lookup p (attrs h)) eqn:E; [reflexivity|].
    apply present_idents in E. contradiction.
Qed.

Lemma apply_entry_harmless i h :
  harmless i -> idents (apply_inverse i h) = idents h.
Proof.
  intros D. destruct i; simpl in D; try contradiction; simpl.
  - unfold idents. simpl. apply idents_update_lock.
  - destruct (existsb _ _); reflexivity.
Qed.

Lemma apply_chunk_present p c : forall h,
  Forall (delete_entry p) c -> In p (map fst (idents h)) ->
  idents (apply_chunk c h) = idents h.
Proof.
  unfold apply_chunk. induction c as [|i c IH]; intros h F Hin; simpl; [reflexivity|].
  inversion F as [|? ? Hi Hc]; subst.
  assert (E : idents (apply_inverse i h) = idents h)
    by (eapply apply_entry_present; eassumption).
  rewrite IH; [exact E | assumption | rewrite E; assumption].
Qed.

(** Replayed where the plug is missing, the chunk appends it. *)
Lemma apply_chunk_recreates p c : forall h,
  recreates p c -> ~ In p (map fst (idents h)) ->
  idents (apply_chunk c h) = idents h ++ [(p, true)].
Proof.
  unfold recreates, apply_chunk.
  induction c as [|i c IH]; intros h [F X] Hout; [inversion X|].
  inversion F as [|? ? Hi Hc]; subst. simpl.
  destruct i; simpl in Hi; try contradiction.
  - (* a lock restored: go on *)
    assert (E : idents (apply_inverse (InvLock p0 old) h) = idents h)
      by (apply apply_entry_harmless; exact I).
    rewrite IH; [rewrite E; reflexivity | | rewrite E; assumption].
    split; [assumption|]. inversion X as [? ? Hx|]; [contradiction | assumption].
  - (* a connection restored: go on *)
    assert (E : idents (apply_inverse (InvConnect src dst) h) = idents h)
      by (apply apply_entry_harmless; exact I).
    rewrite IH; [rewrite E; reflexivity | | rewrite E; assumption].
    split; [assumption|]. inversion X as [? ? Hx|]; [contradiction | assumption].
  - (* the attribute re-created, last in the list *)
    assert (K : key a = p) by (unfold ident in Hi; congruence).
    assert (E : idents (apply_inverse (InvCreate a) h) = idents h ++ [(p, true)]).
    { simpl. rewrite K. destruct (lookup p (attrs h)) eqn:El.
      - exfalso. apply Hout. apply lookup_in_idents in El.
        apply in_map_iff. eexists. split; [|exact El]. reflexivity.
      - unfold idents. simpl. rewrite map_app. simpl. rewrite Hi. reflexivity. }
    fold (apply_chunk c (apply_inverse (InvCreate a) h)).
    rewrite (apply_chunk_present p); [exact E | assumption |].
    rewrite E, map_app. apply in_or_app. right. left. reflexivity.
Qed.

Lemma undo_run h c q :
  undo_state h = true -> queue h = c :: q ->
  cmds.undo h = (apply_chunk c (with_queue q (log Undo h)), Ok tt).
Proof. intros Hs Hq. unfold cmds.undo. simpl. rewrite Hs, Hq. reflexivity. Qed.

Lemma for_seq_shift {S} (m : M S unit) n : forall a b,
  for_ (seq a n) (fun _ => m) = for_ (seq b n) (fun _ => m).
Proof.
  induction n as [|n IH]; intros a b; simpl; [reflexivity|].
  rewrite (IH (Datatypes.S a) (Datatypes.S b)). reflexivity.
Qed.

Lemma repeat_S {S} (m : M S unit) n :
  AttributeMaster.repeat_ (Datatypes.S n) m = (m ;; AttributeMaster.repeat_ n m).
Proof.
  unfold AttributeMaster.repeat_. simpl.
  rewrite (for_seq_shift m n 1 0). reflexivity.
Qed.

(** Undoing the chunks of the deletions, newest first, appends the
    attributes in that order. *)
Lemma undos_ok (lw : list AttributeMaster.item) q ps cs :
  Forall2 recreates ps cs ->
  forall h,
    undo_state h = true -> queue h = cs ++ q -> NoDup ps ->
    (forall p, In p ps -> ~ In p (map fst (idents h))) ->
    exists h',
      AttributeMaster.repeat_ (List.length cs) (liftH cmds.undo) (h, lw)
      = ((h', lw), Ok tt)
      /\ idents h' = idents h ++ map (fun p => (p, true)) ps
      /\ undo_settings h' = undo_settings h
      /\ queue h' = q.
Proof.
  induction 1 as [|p c ps cs Hpc Hrest IH]; intros h Hs Hq Hn Hout.
  - exists h. simpl. rewrite app_nil_r. auto.
  - simpl in Hq.
    set (h1 := apply_chunk c (with_queue (cs ++ q) (log Undo h))).
    assert (R1 : cmds.undo h = (h1, Ok tt)) by (apply undo_run; assumption).
    destruct (apply_chunk_frame c (with_queue (cs ++ q) (log Undo h))) as [S1 Q1].
    fold h1 in S1, Q1. simpl in Q1.
    assert (E1 : idents h1 = idents h ++ [(p, true)]).
    { unfold h1. rewrite (apply_chunk_recreates p); [reflexivity | assumption |].
      apply Hout. left. reflexivity. }
    destruct (IH h1) as (h' & R & E & S' & Q').
    + unfold undo_settings in S1. simpl in S1. congruence.
    + exact Q1.
    + inversion Hn; assumption.
    + intros p' Hp' Hin. rewrite E1, map_app in Hin. apply in_app_or in Hin.
      destruct Hin as [Hin | [Hin | []]].
      * eapply Hout; [right; exact Hp' | exact Hin].
      * simpl in Hin. subst p'. inversion Hn. contradiction.
    + exists h'. split; [|split; [|split]].
      * simpl List.length. rewrite repeat_S.
        erewrite bind_Ok by (apply liftH_run, R1). exact R.
      * rewrite E, E1, <- app_assoc. reflexivity.
      * rewrite S', S1. reflexivity.
      * exact Q'.
Qed.

(** ** The two loops of [reorder] *)

Lemma filter_kept_cons p ps (l : list (plug * bool)) :
  filter (kept ps) (filter (fun i => negb (plug_eqb (fst i) p)) l)
  = filter (kept (p :: ps)) l.
Proof.
  induction l as [|i l IH]; simpl; [reflexivity|].
  unfold kept at 2. simpl.
  destruct (plug_eqb (fst i) p); simpl; [exact IH|].
  fold (kept ps i). destruct (kept ps i); [f_equal|]; exact IH.
Qed.

Lemma existsb_plug p ps : existsb (plug_eqb p) ps = true <-> In p ps.
Proof.
  rewrite existsb_exists. split.
  - intros (x & Hx & E). destruct (plug_eqb_spec p x); [subst; assumption | discriminate].
  - intros H. exists p. split; [assumption | apply plug_eqb_refl].
Qed.

(** Deleting the widgets one after the other: all of them leave the scene,
    one chunk each on the queue, the last deletion on top. *)
Lemma deletes_ok (lw : list AttributeMaster.item) ws : forall h,
  wf h -> idle h -> undo_state h = true -> undo_infinity h = true ->
  NoDup (map Attribute.path ws) ->
  (forall w, In w ws -> In (Attribute.path w, true) (idents h)) ->
  exists h' cs,
    for_ ws (fun attribute => liftH (Attribute.delete attribute)) (h, lw)
    = ((h', lw), Ok tt)
    /\ wf h' /\ idle h'
    /\ undo_settings h' = undo_settings h
    /\ idents h' = filter (kept (map Attribute.path ws)) (idents h)
    /\ queue h' = rev cs ++ queue h
    /\ Forall2 recreates (map Attribute.path ws) cs.
Proof.
  induction ws as [|w ws IH]; intros h W Idle Hs Hi Hn Hin.
  - exists h, []. split; [reflexivity|]. split; [exact W|]. split; [exact Idle|].
    split; [reflexivity|]. split; [|split; [reflexivity | constructor]].
    simpl. clear. induction (idents h) as [|i l IHl]; simpl; [reflexivity|].
    f_equal. exact IHl.
  - simpl in Hn. inversion Hn as [|? ? Hw Hn']; subst.
    destruct (lookup_ident h (Attribute.path w) true) as (a & E & U);
      [destruct W; assumption | apply Hin; left; reflexivity |].
    destruct (delete_ok w h a W Idle Hs Hi E U)
      as (h1 & c & R1 & W1 & Idle1 & S1 & I1 & Q1 & C1).
    assert (Hs1 : undo_state h1 = true /\ undo_infinity h1 = true)
      by (unfold undo_settings in S1; split; congruence).
    destruct Hs1 as [Hs1 Hi1].
    destruct (IH h1 W1 Idle1 Hs1 Hi1 Hn') as (h' & cs & R & W' & Idle' & S' & I' & Q' & C').
    { intros w' Hw'. rewrite I1. apply filter_In. split.
      - apply Hin. right. exact Hw'.
      - simpl. destruct (plug_eqb_spec (Attribute.path w') (Attribute.path w)) as [Eq|];
          [|reflexivity].
        exfalso. apply Hw. rewrite <- Eq. apply in_map. exact Hw'. }
    exists h', (c :: cs). split; [|split; [|split; [|split; [|split; [|split]]]]];
      try assumption.
    + simpl. erewrite bind_Ok by (apply liftH_run, R1). exact R.
    + congruence.
    + rewrite I', I1. apply filter_kept_cons.
    + rewrite Q', Q1. simpl. rewrite <- app_assoc. reflexivity.
    + simpl. constructor; assumption.
Qed.

Lemma Forall2_rev {A B} (R : A -> B -> Prop) l l' :
  Forall2 R l l' -> Forall2 R (rev l) (rev l').
Proof.
  induction 1; simpl; [constructor|].
  apply Forall2_app; [assumption | repeat constructor; assumption].
Qed.

(** The widgets of rows that show [ds] are the attributes [ds] of [nd]. *)
Lemma rows_show_ordered nd ds lw h :
  rows_show nd ds lw ->
  exists ws,
    AttributeMaster.attributes_ordered (h, lw) = ((h, lw), Ok ws)
    /\ map Attribute.path ws = map (pair nd) ds
    /\ List.length lw = List.length ds.
Proof.
  unfold AttributeMaster.attributes_ordered, AttributeMaster.listWidget.
  rewrite (bind_Ok _ _ (h, lw) (h, lw) lw) by reflexivity. unfold ret.
  induction 1 as [|it d lw ds (w & Hw & Hp) Hrest (ws & R & P & L)].
  - exists []. auto.
  - exists (w :: ws). simpl. rewrite Hw. simpl.
    injection R as R. rewrite R, Hp, P, L. auto.
Qed.

Lemma kept_ext ps ps' (l : list (plug * bool)) :
  (forall p, In p ps <-> In p ps') -> filter (kept ps) l = filter (kept ps') l.
Proof.
  intros H. apply filter_ext. intros i. unfold kept. f_equal.
  destruct (existsb (plug_eqb (fst i)) ps) eqn:E, (existsb (plug_eqb (fst i)) ps') eqn:E';
    try reflexivity.
  - apply existsb_plug, H, existsb_plug in E. congruence.
  - apply existsb_plug, H, existsb_plug in E'. congruence.
Qed.

Lemma NoDup_pair (nd : string) (ds : list string) :
  NoDup ds -> NoDup (map (pair nd) ds).
Proof.
  induction 1 as [|d ds Hd Hn IH]; simpl; constructor; [|assumption].
  intros H. apply in_map_iff in H. destruct H as (d' & E & H).
  injection E as ->. contradiction.
Qed.

(** The reorder protocol on a well-formed scene.  The rows show the user
    attributes [ds] of [nd], no two rows the same one: every deletion and
    every undo succeeds, the attributes [ds] end up after all the others in
    the order of the rows, and the undo settings are those of before. *)
Lemma reorder_ok nd ds lw h :
  wf h -> idle h -> NoDup ds ->
  (forall d, In d ds -> In ((nd, d), true) (idents h)) ->
  rows_show nd ds lw ->
  exists h',
    AttributeMaster.reorder (h, lw) = ((h', lw), Ok tt)
    /\ undo_settings h' = undo_settings h
    /\ idents h' = filter (kept (map (pair nd) ds)) (idents h)
                   ++ map (fun d => ((nd, d), true)) ds.
Proof.
  intros W Idle Hn Hin Hrows.
  unfold AttributeMaster.reorder, with_UndoStateContext.
  rewrite (bind_Ok _ _ (h, lw) (h, lw)
             (UndoStateContext.mk (undo_state h) (undo_infinity h) (undo_length h)))
    by reflexivity.
  set (h1 := with_undo true true (undo_length h) (queue h)
               (log (UndoInfoSet true true None) h)).
  (* the body, from the forced state *)
  destruct (rows_show_ordered nd ds lw h1 Hrows) as (ws & Ro & Pws & Llw).
  assert (Prev : map Attribute.path (rev ws) = rev (map (pair nd) ds))
    by (rewrite map_rev, Pws; reflexivity).
  destruct (deletes_ok lw (rev ws) h1) as (h2 & cs & R2 & W2 & Idle2 & S2 & I2 & Q2 & C2);
    try reflexivity; try assumption.
  { rewrite Prev. apply NoDup_rev, NoDup_pair, Hn. }
  { intros w Hw. apply (in_map Attribute.path) in Hw. rewrite Prev in Hw.
    apply in_rev, in_map_iff in Hw. destruct Hw as (d & <- & Hd). apply Hin, Hd. }
  apply Forall2_rev in C2. rewrite Prev, rev_involutive in C2.
  assert (Lcs : List.length (rev cs) = List.length lw).
  { rewrite <- (Forall2_length C2), length_map. congruence. }
  destruct (undos_ok lw (queue h1) _ _ C2 h2) as (h3 & R3 & I3 & S3 & Q3).
  { unfold undo_settings in S2. simpl in S2. congruence. }
  { exact Q2. }
  { apply NoDup_pair, Hn. }
  { intros p Hp Hk. rewrite I2 in Hk. apply in_map_iff in Hk.
    destruct Hk as (i & <- & Hi). apply filter_In in Hi. destruct Hi as [_ Hi].
    unfold kept in Hi. apply negb_true_iff in Hi.
    assert (Ht : existsb (plug_eqb (fst i)) (map Attribute.path (rev ws)) = true)
      by (apply existsb_plug; rewrite Prev; apply -> in_rev; exact Hp).
    congruence. }
  rewrite Lcs in R3.
  set (h4 := with_undo (undo_state h) (undo_infinity h) (undo_length h)
               (if undo_state h
                then trim (undo_infinity h) (undo_length h)
                          (queue (log (UndoInfoSet (undo_state h) (undo_infinity h)
                                                   (Some (undo_length h))) h3))
                else [])
               (log (UndoInfoSet (undo_state h) (undo_infinity h)
                                 (Some (undo_length h))) h3)).
  exists h4. split; [|split].
  - apply (with_run _ _ _ (h, lw) (h1, lw) (h3, lw) (h4, lw)); [reflexivity | | reflexivity].
    unfold AttributeMaster.reorder_body.
    rewrite (bind_Ok _ _ _ _ _ Ro).
    rewrite (bind_Ok _ _ _ _ _ R2).
    rewrite (bind_Ok _ _ (h2, lw) (h2, lw) lw) by reflexivity.
    exact R3.
  - reflexivity.
  - change (idents h4) with (idents h3). rewrite I3, I2.
    change (idents h1) with (idents h). rewrite map_map. f_equal.
    apply kept_ext. intros p. rewrite Prev. symmetry. apply in_rev.
Qed.

(** ** What the host lists after a reorder *)

Lemma user_names_idents nd h :
  user_names nd h =
  map (fun i => snd (fst i))
      (filter (fun i => (fst (fst i) =? nd)%string && snd i) (idents h)).
Proof.
  unfold user_names, idents. induction (attrs h) as [|a l IH]; simpl; [reflexivity|].
  destruct ((a_node a =? nd)%string && a_user a); simpl; [f_equal|]; exact IH.
Qed.

Lemma in_user_names nd h d :
  In d (user_names nd h) <-> In ((nd, d), true) (idents h).
Proof.
  rewrite user_names_idents, in_map_iff. split.
  - intros ([[n x] u] & E & H). apply filter_In in H. destruct H as [H F].
    simpl in *. apply andb_prop in F. destruct F as [F ->].
    apply String.eqb_eq in F. subst. exact H.
  - intros H. exists ((nd, d), true). split; [reflexivity|].
    apply filter_In. split; [exact H|]. simpl. rewrite String.eqb_refl. reflexivity.
Qed.

Lemma NoDup_user_names nd h : NoDup (keys h) -> NoDup (user_names nd h).
Proof.
  unfold keys, user_names. induction (attrs h) as [|a l IH]; simpl; [constructor|].
  intros Hn. inversion Hn as [|? ? Ha Hl]; subst.
  destruct ((a_node a =? nd)%string && a_user a) eqn:F; [|auto].
  simpl. constructor; [|auto].
  intros H. apply in_map_iff in H. destruct H as (b & E & Hb).
  apply filter_In in Hb. destruct Hb as [Hb Fb].
  apply andb_prop in F, Fb. destruct F as [F _], Fb as [Fb _].
  apply String.eqb_eq in F, Fb. apply Ha. apply in_map_iff. exists b.
  split; [|assumption]. unfold key. congruence.
Qed.

Lemma filter_none {A} (f : A -> bool) l :
  (forall x, In x l -> f x = false) -> filter f l = [].
Proof.
  induction l as [|x l IH]; simpl; intros H; [reflexivity|].
  rewrite (H x) by (left; reflexivity). apply IH. intros y Hy. apply H. right. exact Hy.
Qed.

(** If the rows show every user attribute of the node, the host lists
    them in the order of the rows. *)
Lemma reordered_user_names nd ds h h' :
  idents h' = filter (kept (map (pair nd) ds)) (idents h)
              ++ map (fun d => ((nd, d), true)) ds ->
  (forall x, In x (user_names nd h) -> In x ds) ->
  user_names nd h' = ds.
Proof.
  intros I Hall. rewrite user_names_idents, I, filter_app, map_app.
  rewrite filter_none.
  - simpl. induction ds as [|d ds IH]; simpl; [reflexivity|].
    rewrite String.eqb_refl. simpl. f_equal.
    clear. induction ds as [|d ds IH]; simpl; [reflexivity|].
    rewrite String.eqb_refl. simpl. f_equal. exact IH.
  - intros [[n x] u] H. apply filter_In in H. destruct H as [H K]. simpl.
    destruct (String.eqb_spec n nd) as [->|]; [|reflexivity].
    destruct u; [|reflexivity]. exfalso.
    apply in_user_names, Hall in H.
    unfold kept in K. apply negb_true_iff in K.
    assert (T : existsb (plug_eqb (nd, x)) (map (pair nd) ds) = true)
      by (apply existsb_plug, in_map; exact H).
    simpl in K. congruence.
Qed.

(** C1.  The host lists the user attributes [A, B, C] of the node and the
    rows of the panel show [C, A, B]: [reorder] succeeds, the host then lists
    [C, A, B], and the undo settings (state, infinity, length) are those of
    before the call. *)
Theorem reorder_matches_rows
        (h : host) (lw : list AttributeMaster.item) (nd A B C : string) :
  wf h -> idle h ->
  cmds.listAttr_userDefined nd h = (h, Ok (Some [A; B; C])) ->
  rows_show nd [C; A; B] lw ->
  exists h',
    AttributeMaster.reorder (h, lw) = ((h', lw), Ok tt)
    /\ cmds.listAttr_userDefined nd h' = (h', Ok (Some [C; A; B]))
    /\ undo_settings h' = undo_settings h.
Proof.
  intros W Idle Hl Hrows.
  assert (Hu : user_names nd h = [A; B; C]).
  { unfold cmds.listAttr_userDefined, gets in Hl. fold (user_names nd h) in Hl.
    destruct (user_names nd h); [discriminate | congruence]. }
  assert (Hn : NoDup [A; B; C])
    by (rewrite <- Hu; apply NoDup_user_names; destruct W; assumption).
  assert (Hn' : NoDup [C; A; B]).
  { inversion Hn as [|? ? HA Hn1]; subst. inversion Hn1 as [|? ? HB Hn2]; subst.
    simpl in *. repeat constructor; simpl; intuition congruence. }
  destruct (reorder_ok nd [C; A; B] lw h W Idle Hn') as (h' & R & S & I);
    [|assumption|].
  { intros d Hd. apply in_user_names. rewrite Hu. simpl in *. tauto. }
  exists h'. split; [exact R|]. split; [|exact S].
  unfold cmds.listAttr_userDefined, gets. fold (user_names nd h').
  rewrite (reordered_user_names nd [C; A; B] h h' I); [reflexivity|].
  intros x Hx. rewrite Hu in Hx. simpl in *. tauto.
Qed.

(** ** The undo settings around an operation *)

(** C5.  An operation run under [UndoStateContext] starts with undo on and
    the queue infinite, and whatever it does, and whether it returns or
    raises, its outcome is passed on and the undo settings (state, infinity,
    length) are afterwards those of before; [reorder] is such an operation. *)
Theorem undo_settings_restored :
  (forall (X A : Type) (body : M (host * X) A) (h : host) (x : X),
     exists h1 t2 r h3,
       liftH (UndoStateContext.enter
                (UndoStateContext.mk (undo_state h) (undo_infinity h) (undo_length h)))
             (h, x) = ((h1, x), Ok tt)
       /\ undo_state h1 = true /\ undo_infinity h1 = true
       /\ body (h1, x) = (t2, r)
       /\ with_UndoStateContext body (h, x) = ((h3, snd t2), r)
       /\ undo_settings h3 = undo_settings h
       /\ attrs h3 = attrs (fst t2) /\ conns h3 = conns (fst t2))
  /\ AttributeMaster.reorder = with_UndoStateContext AttributeMaster.reorder_body
  /\ (forall t, undo_settings (fst (fst (AttributeMaster.reorder t)))
                = undo_settings (fst t)).
Proof.
  assert (G : forall (X A : Type) (body : M (host * X) A) (h : host) (x : X),
     exists h1 t2 r h3,
       liftH (UndoStateContext.enter
                (UndoStateContext.mk (undo_state h) (undo_infinity h) (undo_length h)))
             (h, x) = ((h1, x), Ok tt)
       /\ undo_state h1 = true /\ undo_infinity h1 = true
       /\ body (h1, x) = (t2, r)
       /\ with_UndoStateContext body (h, x) = ((h3, snd t2), r)
       /\ undo_settings h3 = undo_settings h
       /\ attrs h3 = attrs (fst t2) /\ conns h3 = conns (fst t2)).
  { intros X A body h x.
    set (h1 := with_undo true true (undo_length h) (queue h)
                 (log (UndoInfoSet true true None) h)).
    destruct (body (h1, x)) as [t2 r] eqn:Eb.
    eexists h1, t2, r, _.
    split; [reflexivity|]. split; [reflexivity|]. split; [reflexivity|].
    split; [exact Eb|]. split; [|split; [|split]].
    - unfold with_UndoStateContext.
      rewrite (bind_Ok _ _ (h, x) (h, x)
                 (UndoStateContext.mk (undo_state h) (undo_infinity h) (undo_length h)))
        by reflexivity.
      eapply with_run; [reflexivity | exact Eb |].
      destruct t2 as [h2 x2]. reflexivity.
    - reflexivity.
    - reflexivity.
    - reflexivity. }
  split; [exact G|]. split; [reflexivity|].
  intros [h lw].
  destruct (G _ _ AttributeMaster.reorder_body h lw)
    as (h1 & t2 & r & h3 & _ & _ & _ & _ & R & S & _).
  unfold AttributeMaster.reorder. rewrite R. exact S.
Qed.

(** The failing exit: the attribute of the second row is gone, its
    [delete] raises, and the settings are restored all the same. *)
Lemma reorder_raises_restores :
  snd (AttributeMaster.reorder (a_host, rows_a_z)) = Raise cmds.no_object
  /\ undo_settings (fst (fst (AttributeMaster.reorder (a_host, rows_a_z))))
     = undo_settings a_host.
Proof. vm_compute. split; reflexivity. Qed.

(** ** Where the code leaves the design *)

(** [delete] does not test [exists]: on an attribute that is not there the
    first [setAttr] raises; the scene is left as it was. *)
Lemma delete_absent_raises self h :
  lookup (Attribute.path self) (attrs h) = None ->
  exists h', Attribute.delete self h = (h', Raise cmds.no_object)
             /\ attrs h' = attrs h /\ conns h' = conns h.
Proof.
  intros N. unfold Attribute.delete, with_.
  unfold UndoChunkContext.enter, cmds.undoInfo_openChunk.
  cbv beta zeta.
  erewrite bind_Raise.
  2:{ unfold cmds.setAttr_lock. apply setAttr_missing. exact N. }
  unfold UndoChunkContext.exit, cmds.undoInfo_closeChunk. simpl.
  destruct (chunk_depth h); [destruct (chunk h)|];
    eexists; split; try reflexivity; split; reflexivity.
Qed.

(** C2 at the second of two calls: the first [delete] removes the
    attribute, the second raises the host's error instead of doing nothing. *)
Theorem delete_twice_raises :
  snd (Attribute.delete (sample_widget "n" "A") a_host) = Ok tt
  /\ lookup ("n", "A")
            (attrs (fst (Attribute.delete (sample_widget "n" "A") a_host))) = None
  /\ snd (Attribute.delete (sample_widget "n" "A")
                           (fst (Attribute.delete (sample_widget "n" "A") a_host)))
     = Raise cmds.no_object
  /\ attrs (fst (Attribute.delete (sample_widget "n" "A")
                                  (fst (Attribute.delete (sample_widget "n" "A") a_host))))
     = attrs (fst (Attribute.delete (sample_widget "n" "A") a_host)).
Proof. vm_compute. repeat split; reflexivity. Qed.

(** ** The deletions and undo steps [reorder] issues *)

Lemma marks_log c h :
  marks (log c h) = marks h ++ (if is_DeleteAttr c || is_Undo c then [c] else []).
Proof.
  unfold marks. simpl. rewrite filter_app. simpl.
  destruct (is_DeleteAttr c || is_Undo c); reflexivity.
Qed.

Lemma trace_record i h : trace (record i h) = trace h.
Proof. unfold record. destruct (undo_state h), (chunk_depth h); reflexivity. Qed.

Lemma trace_apply_chunk c : forall h, trace (apply_chunk c h) = trace h.
Proof.
  unfold apply_chunk. induction c as [|i c IH]; intros h; simpl; [reflexivity|].
  rewrite IH. destruct i; simpl; try reflexivity.
  - destruct (existsb _ _); reflexivity.
  - destruct (lookup _ _); reflexivity.
  - destruct (lookup _ _); reflexivity.
Qed.

(** A command that is neither a deletion nor an undo leaves no mark,
    whether it succeeds or raises. *)
Lemma marks_setAttr_lock p v h : marks (fst (cmds.setAttr_lock p v h)) = marks h.
Proof.
  unfold cmds.setAttr_lock, cmds.setAttr. simpl.
  destruct (lookup p (attrs h)); simpl; unfold marks; simpl;
    rewrite ?trace_record; simpl; rewrite filter_app, app_nil_r; reflexivity.
Qed.

Lemma marks_disconnectAttr s d h : marks (fst (cmds.disconnectAttr s d h)) = marks h.
Proof.
  unfold cmds.disconnectAttr. simpl.
  destruct (existsb _ _); [destruct (lookup d (attrs h)) as [a|]; [destruct (a_lock a)|]|];
    simpl; unfold marks; simpl; rewrite ?trace_record; simpl;
    rewrite filter_app, app_nil_r; reflexivity.
Qed.

Lemma trace_record_connects gone : forall h,
  trace (fold_right (fun c h' => record (InvConnect (fst c) (snd c)) h') h gone)
  = trace h.
Proof.
  induction gone as [|c gone IH]; intros h; simpl; [reflexivity|].
  rewrite trace_record. apply IH.
Qed.

Lemma marks_deleteAttr p h :
  marks (fst (cmds.deleteAttr p h)) = marks h ++ [DeleteAttr p].
Proof.
  unfold cmds.deleteAttr. simpl.
  destruct (lookup p (attrs h)) as [a|]; [destruct (a_lock a); [|destruct (a_user a)]|];
    simpl; unfold marks; simpl; rewrite ?trace_record_connects, ?trace_record; simpl;
    rewrite filter_app; reflexivity.
Qed.

Lemma marks_undo h : marks (fst (cmds.undo h)) = marks h ++ [Undo].
Proof.
  unfold cmds.undo. simpl.
  destruct (undo_state h); [destruct (queue h)|]; simpl; unfold marks;
    rewrite ?trace_apply_chunk; simpl; rewrite filter_app; reflexivity.
Qed.

Lemma marks_closeChunk h : marks (fst (cmds.undoInfo_closeChunk h)) = marks h.
Proof.
  unfold cmds.undoInfo_closeChunk. simpl.
  destruct (chunk_depth h) as [|[|d]]; [|destruct (chunk h)|]; simpl; unfold marks; simpl;
    rewrite filter_app, app_nil_r; reflexivity.
Qed.

Lemma marks_disconnect_loop (f : plug -> plug * plug) cs : forall h,
  marks (fst (for_ cs (fun c => cmds.setAttr_lock c false ;;
                               cmds.disconnectAttr (fst (f c)) (snd (f c))) h))
  = marks h.
Proof.
  induction cs as [|c cs IH]; intros h; simpl; [reflexivity|].
  unfold bind at 1. unfold bind at 1.
  pose proof (marks_setAttr_lock c false h) as M1.
  destruct (cmds.setAttr_lock c false h) as [h1 [[]|e]]; simpl in M1; [|exact M1].
  pose proof (marks_disconnectAttr (fst (f c)) (snd (f c)) h1) as M2.
  destruct (cmds.disconnectAttr (fst (f c)) (snd (f c)) h1) as [h2 [[]|e]];
    simpl in M2; [|simpl; congruence].
  rewrite IH. congruence.
Qed.

(** A [delete] that succeeds issues one deletion, of its plug. *)
Lemma marks_delete self h h' :
  Attribute.delete self h = (h', Ok tt) ->
  marks h' = marks h ++ [DeleteAttr (Attribute.path self)].
Proof.
  unfold Attribute.delete. intros R.
  apply with_inv in R. destruct R as (h0 & h4 & R0 & Rb & R5).
  assert (M0 : marks h0 = marks h).
  { unfold UndoChunkContext.enter, cmds.undoInfo_openChunk in R0.
    injection R0 as <-. unfold marks. simpl. rewrite filter_app, app_nil_r. reflexivity. }
  assert (M5 : marks h' = marks h4).
  { pose proof (marks_closeChunk h4) as Mc. unfold UndoChunkContext.exit in R5.
    rewrite R5 in Mc. exact Mc. }
  apply bind_inv in Rb. destruct Rb as (h1 & [] & R1 & Rb).
  apply bind_inv in Rb. destruct Rb as (h1' & incoming & Ri & Rb).
  injection Ri as <- <-.
  apply bind_inv in Rb. destruct Rb as (h2 & [] & R2 & Rb).
  apply bind_inv in Rb. destruct Rb as (h2' & outgoing & Ro & Rb).
  injection Ro as <- <-.
  apply bind_inv in Rb. destruct Rb as (h3 & [] & R3 & R4).
  pose proof (marks_setAttr_lock (Attribute.path self) false h0) as M1.
  rewrite R1 in M1.
  match type of R2 with
  | for_ ?cs _ _ = _ =>
      pose proof (marks_disconnect_loop (fun c => (c, Attribute.path self)) cs h1) as M2
  end.
  simpl in M2. rewrite R2 in M2.
  match type of R3 with
  | for_ ?cs _ _ = _ =>
      pose proof (marks_disconnect_loop (fun c => (Attribute.path self, c)) cs h2) as M3
  end.
  simpl in M3. rewrite R3 in M3.
  pose proof (marks_deleteAttr (Attribute.path self) h3) as M4.
  rewrite R4 in M4. simpl in *. congruence.
Qed.

Lemma marks_deletes (lw : list AttributeMaster.item) ws : forall h t',
  for_ ws (fun attribute => liftH (Attribute.delete attribute)) (h, lw) = (t', Ok tt) ->
  snd t' = lw
  /\ marks (fst t') = marks h ++ map (fun w => DeleteAttr (Attribute.path w)) ws.
Proof.
  induction ws as [|w ws IH]; intros h t' R; simpl in R.
  - injection R as <-. simpl. rewrite app_nil_r. auto.
  - apply bind_inv in R. destruct R as ([h1 lw1] & [] & R1 & R).
    apply liftH_inv in R1. destruct R1 as [R1 ->].
    apply marks_delete in R1. apply IH in R. destruct R as [-> R].
    split; [reflexivity|]. rewrite R, R1, <- app_assoc. reflexivity.
Qed.

Lemma marks_undos (lw : list AttributeMaster.item) n : forall a h t',
  for_ (seq a n) (fun _ => liftH cmds.undo) (h, lw) = (t', Ok tt) ->
  marks (fst t') = marks h ++ repeat Undo n.
Proof.
  induction n as [|n IH]; intros a h t' R; simpl in R.
  - injection R as <-. simpl. rewrite app_nil_r. reflexivity.
  - apply bind_inv in R. destruct R as ([h1 lw1] & [] & R1 & R).
    apply liftH_inv in R1. destruct R1 as [R1 ->].
    pose proof (marks_undo h) as M1. rewrite R1 in M1. simpl in M1.
    apply IH in R. rewrite R, M1, <- app_assoc. reflexivity.
Qed.

(** X3.  Every successful [reorder] issues the deletions of the item
    widgets, last row first, and then one undo per row: as many undo steps
    as deletions exactly when every row has its widget. *)
Lemma reorder_marks h lw t' :
  AttributeMaster.reorder (h, lw) = (t', Ok tt) ->
  marks (fst t') = marks h
                   ++ map (fun w => DeleteAttr (Attribute.path w)) (rev (widgets lw))
                   ++ repeat Undo (List.length lw).
Proof.
  unfold AttributeMaster.reorder, with_UndoStateContext. intros R.
  apply bind_inv in R. destruct R as (t0 & ctx & R0 & R).
  injection R0 as <- <-.
  apply with_inv in R. destruct R as (t1 & t2 & R1 & Rb & R3).
  injection R1 as <-.
  unfold AttributeMaster.reorder_body in Rb.
  apply bind_inv in Rb. destruct Rb as (t1' & ordered & Ro & Rb).
  injection Ro as <- <-.
  apply bind_inv in Rb. destruct Rb as (t2' & [] & Rd & Rb).
  apply marks_deletes in Rd. destruct Rd as [Ld Md]. destruct t2' as [h2 lw2].
  simpl in Ld, Md. subst lw2.
  apply bind_inv in Rb. destruct Rb as (t2'' & lw' & Rl & Ru).
  injection Rl as <- <-.
  apply marks_undos in Ru.
  destruct t2 as [h3 lw3]. injection R3 as <-. simpl in *.
  unfold marks at 1. simpl. rewrite filter_app, app_nil_r. fold (marks h3).
  rewrite Ru, Md. unfold marks at 1. simpl. rewrite filter_app, app_nil_r.
  fold (marks h). rewrite <- app_assoc. reflexivity.
Qed.

(** C4.  [reorder] on rows that show user attributes of the node, each
    once.  The deletions run over the item widgets last row first and all
    succeed; each leaves a chunk of its own on the undo queue, the one of the
    first row on top, and every chunk holds the re-creation of its
    attribute.  The undo loop then runs once per row, as many steps as
    attributes were deleted, and uses up exactly those chunks.  In the trace
    of the whole call the deletions come in the reverse of the row order,
    followed by that number of undo steps and nothing else of either kind. *)
Theorem reorder_undoes_per_row
        (h : host) (lw : list AttributeMaster.item) (nd : string) (ds : list string) :
  wf h -> idle h -> NoDup ds ->
  (forall d, In d ds -> In ((nd, d), true) (idents h)) ->
  rows_show nd ds lw ->
  exists h2 cs h3 h',
    for_ (rev (widgets lw)) (fun attribute => liftH (Attribute.delete attribute))
         (entered h, lw) = ((h2, lw), Ok tt)
    /\ map Attribute.path (rev (widgets lw)) = map (pair nd) (rev ds)
    /\ queue h2 = cs ++ queue h
    /\ Forall2 recreates (map (pair nd) ds) cs
    /\ AttributeMaster.repeat_ (List.length lw) (liftH cmds.undo) (h2, lw)
       = ((h3, lw), Ok tt)
    /\ List.length lw = List.length ds
    /\ queue h3 = queue h
    /\ AttributeMaster.reorder (h, lw) = ((h', lw), Ok tt)
    /\ marks h' = marks h
                  ++ map (fun d => DeleteAttr (nd, d)) (rev ds)
                  ++ repeat Undo (List.length ds).
Proof.
  intros W Idle Hn Hin Hrows.
  set (h1 := with_undo true true (undo_length h) (queue h)
               (log (UndoInfoSet true true None) h)).
  change (entered h) with h1.
  destruct (rows_show_ordered nd ds lw h1 Hrows) as (ws & Ro & Pws & Llw).
  assert (Ew : AttributeMaster.attributes_ordered (h1, lw) = ((h1, lw), Ok (widgets lw)))
    by reflexivity.
  rewrite Ew in Ro. injection Ro as <-.
  assert (Prev : map Attribute.path (rev (widgets lw)) = rev (map (pair nd) ds))
    by (rewrite map_rev, Pws; reflexivity).
  destruct (deletes_ok lw (rev (widgets lw)) h1)
    as (h2 & cs & R2 & W2 & Idle2 & S2 & I2 & Q2 & C2);
    try reflexivity; try assumption.
  { rewrite Prev. apply NoDup_rev, NoDup_pair, Hn. }
  { intros w Hw. apply (in_map Attribute.path) in Hw. rewrite Prev in Hw.
    apply in_rev, in_map_iff in Hw. destruct Hw as (d & <- & Hd). apply Hin, Hd. }
  apply Forall2_rev in C2. rewrite Prev, rev_involutive in C2.
  assert (Lcs : List.length (rev cs) = List.length lw).
  { rewrite <- (Forall2_length C2), length_map. congruence. }
  destruct (undos_ok lw (queue h1) _ _ C2 h2) as (h3 & R3 & I3 & S3 & Q3).
  { unfold undo_settings in S2. simpl in S2. congruence. }
  { exact Q2. }
  { apply NoDup_pair, Hn. }
  { intros p Hp Hk. rewrite I2 in Hk. apply in_map_iff in Hk.
    destruct Hk as (i & <- & Hi). apply filter_In in Hi. destruct Hi as [_ Hi].
    unfold kept in Hi. apply negb_true_iff in Hi.
    assert (Ht : existsb (plug_eqb (fst i)) (map Attribute.path (rev (widgets lw))) = true)
      by (apply existsb_plug; rewrite Prev; apply -> in_rev; exact Hp).
    congruence. }
  rewrite Lcs in R3.
  set (h4 := with_undo (undo_state h) (undo_infinity h) (undo_length h)
               (if undo_state h
                then trim (undo_infinity h) (undo_length h)
                          (queue (log (UndoInfoSet (undo_state h) (undo_infinity h)
                                                   (Some (undo_length h))) h3))
                else [])
               (log (UndoInfoSet (undo_state h) (undo_infinity h)
                                 (Some (undo_length h))) h3)).
  exists h2, (rev cs), h3, h4.
  split; [exact R2|]. split; [rewrite Prev, map_rev; reflexivity|].
  split; [exact Q2|]. split; [exact C2|]. split; [exact R3|].
  split; [exact Llw|]. split; [exact Q3|]. split.
  - unfold AttributeMaster.reorder, with_UndoStateContext.
    rewrite (bind_Ok _ _ (h, lw) (h, lw)
               (UndoStateContext.mk (undo_state h) (undo_infinity h) (undo_length h)))
      by reflexivity.
    apply (with_run _ _ _ (h, lw) (h1, lw) (h3, lw) (h4, lw)); [reflexivity | | reflexivity].
    unfold AttributeMaster.reorder_body.
    rewrite (bind_Ok _ _ _ _ _ Ew).
    rewrite (bind_Ok _ _ _ _ _ R2).
    rewrite (bind_Ok _ _ (h2, lw) (h2, lw) lw) by reflexivity.
    exact R3.
  - apply marks_deletes in R2. destruct R2 as [_ M2]. simpl in M2.
    unfold AttributeMaster.repeat_ in R3. apply marks_undos in R3. simpl in R3.
    unfold h4. unfold marks at 1. simpl. rewrite filter_app, app_nil_r. fold (marks h3).
    rewrite R3, M2. unfold h1. unfold marks at 1. simpl.
    rewrite filter_app, app_nil_r. fold (marks h).
    rewrite <- app_assoc, Llw. f_equal. f_equal.
    rewrite <- (map_map Attribute.path DeleteAttr), Prev, <- map_rev, map_map.
    reflexivity.
Qed.

(** ** The theorems at sample scenes *)

Lemma abc_host_wf : wf abc_host.
Proof.
  unfold wf, keys. simpl. split; [|split].
  - repeat constructor; simpl; intuition discriminate.
  - repeat constructor; simpl; intuition.
  - intros s d [[= <- <-]|[]]. auto.
Qed.

Lemma reorder_matches_rows_witness :
  wf abc_host /\ idle abc_host
  /\ cmds.listAttr_userDefined "n" abc_host = (abc_host, Ok (Some ["A"; "B"; "C"]))
  /\ exists h',
       AttributeMaster.reorder (abc_host, cab_rows) = ((h', cab_rows), Ok tt)
       /\ cmds.listAttr_userDefined "n" h' = (h', Ok (Some ["C"; "A"; "B"]))
       /\ undo_settings h' = undo_settings abc_host.
Proof.
  split; [exact abc_host_wf|]. split; [split; reflexivity|]. split; [reflexivity|].
  apply (reorder_matches_rows abc_host cab_rows "n" "A" "B" "C").
  - exact abc_host_wf.
  - split; reflexivity.
  - reflexivity.
  - repeat constructor; eexists; split; reflexivity.
Defined.

Lemma reorder_undoes_per_row_witness :
  wf abc_host /\ idle abc_host /\ rows_show "n" ["C"; "A"; "B"] cab_rows
  /\ exists h2 cs h3 h',
       for_ (rev (widgets cab_rows)) (fun attribute => liftH (Attribute.delete attribute))
            (entered abc_host, cab_rows) = ((h2, cab_rows), Ok tt)
       /\ map Attribute.path (rev (widgets cab_rows)) = map (pair "n") (rev ["C"; "A"; "B"])
       /\ queue h2 = cs ++ queue abc_host
       /\ Forall2 recreates (map (pair "n") ["C"; "A"; "B"]) cs
       /\ AttributeMaster.repeat_ (List.length cab_rows) (liftH cmds.undo) (h2, cab_rows)
          = ((h3, cab_rows), Ok tt)
       /\ List.length cab_rows = List.length ["C"; "A"; "B"]
       /\ queue h3 = queue abc_host
       /\ AttributeMaster.reorder (abc_host, cab_rows) = ((h', cab_rows), Ok tt)
       /\ marks h' = marks abc_host
                     ++ map (fun d => DeleteAttr ("n", d)) (rev ["C"; "A"; "B"])
                     ++ repeat Undo (List.length ["C"; "A"; "B"]).
Proof.
  split; [exact abc_host_wf|]. split; [split; reflexivity|].
  split; [repeat constructor; eexists; split; reflexivity|].
  apply (reorder_undoes_per_row abc_host cab_rows "n" ["C"; "A"; "B"]).
  - exact abc_host_wf.
  - split; reflexivity.
  - repeat constructor; simpl; intuition discriminate.
  - intros d [<-|[<-|[<-|[]]]]; vm_compute; tauto.
  - repeat constructor; eexists; split; reflexivity.
Defined.

Lemma add_new_seperator_eleventh_witness :
  selection ten_seperators = ["n"]
  /\ lookup ("n", seperator_name 10) (attrs ten_seperators) = None
  /\ (exists h' lw',
        AttributeMaster.add_new_seperator "title" true (ten_seperators, [])
        = ((h', lw'), Ok tt)
        /\ attrs h' = attrs ten_seperators
                      ++ [mkAttr "n" "__seperator_10" "title" true false true "enum" true])
  /\ AttributeMaster.add_new_seperator "" true (ten_seperators, [])
     = ((ten_seperators, []), Ok tt)
  /\ (forall t, AttributeMaster.add_new_seperator t false (ten_seperators, [])
                = ((ten_seperators, []), Ok tt)).
Proof.
  split; [reflexivity|]. split; [reflexivity|].
  apply (add_new_seperator_eleventh ten_seperators [] "n" [] "title").
  - reflexivity.
  - intros i Hi.
    do 10 (destruct i as [|i]; [vm_compute; discriminate|]). lia.
  - reflexivity.
  - discriminate.
Defined.

Lemma rename_existing_long_name_noop_witness :
  lookup ("n", "B") (attrs abc_host) = Some (sample_attr "n" "B" true false true)
  /\ Attribute.rename None (Some "B") (abc_host, sample_widget "n" "A")
     = ((abc_host, sample_widget "n" "A"), Ok tt).
Proof.
  split; [reflexivity|].
  apply (rename_existing_long_name_noop abc_host (sample_widget "n" "A") "B"
           (sample_attr "n" "B" true false true)).
  reflexivity.
Defined.

Lemma rename_long_name_preserves_lock_witness :
  lookup ("n", "B") (attrs abc_host) = Some (sample_attr "n" "B" true false true)
  /\ lookup ("n", "D") (attrs abc_host) = None
  /\ exists h' self',
       Attribute.rename None (Some "D") (abc_host, sample_widget "n" "B")
       = ((h', self'), Ok tt)
       /\ Attribute.longName self' = "D"
       /\ Attribute.node self' = "n"
       /\ Attribute.is_locked (sample_widget "n" "B") abc_host = (abc_host, Ok true)
       /\ Attribute.is_locked self' h' = (h', Ok true).
Proof.
  split; [reflexivity|]. split; [reflexivity|].
  apply (rename_long_name_preserves_lock abc_host (sample_widget "n" "B")
           (sample_attr "n" "B" true false true) "D"); reflexivity.
Defined.

Lemma refresh_display_class_witness :
  lookup ("n", "B") (attrs abc_host) = Some (sample_attr "n" "B" true false true)
  /\ exists self',
       Attribute.refresh (sample_widget "n" "B") abc_host = (abc_host, Ok self')
       /\ self' = Attribute.setStyleSheet (style_replace (class_color Locked))
                                          (sample_widget "n" "B")
       /\ contains "%" (Attribute.styleSheet self') = false
       /\ forall c, Attribute.styleSheet self' = style_replace (class_color c) ->
                    c = Locked.
Proof.
  split; [reflexivity|].
  exact (refresh_display_class abc_host (sample_widget "n" "B")
           (sample_attr "n" "B" true false true) eq_refl).
Defined.

Lemma set_keyable_unlocks_and_keys_witness :
  selection_alive hidden_host tx_rows
  /\ snd (AttributeMaster.set_keyable (hidden_host, tx_rows)) = Ok tt
  /\ Attribute.is_locked (sample_widget "n" "tx")
                         (fst (fst (AttributeMaster.set_keyable (hidden_host, tx_rows))))
     = (fst (fst (AttributeMaster.set_keyable (hidden_host, tx_rows))), Ok false)
  /\ Attribute.is_keyable (sample_widget "n" "tx")
                          (fst (fst (AttributeMaster.set_keyable (hidden_host, tx_rows))))
     = (fst (fst (AttributeMaster.set_keyable (hidden_host, tx_rows))), Ok true)
  /\ is_hidden_and_not_keyable
       (sample_widget "n" "tx")
       (fst (fst (AttributeMaster.set_keyable (hidden_host, tx_rows))))
     = (fst (fst (AttributeMaster.set_keyable (hidden_host, tx_rows))), Ok false).
Proof.
  assert (A : selection_alive hidden_host tx_rows).
  { intros [|[|i]] it; simpl; try discriminate.
    intros [= <-] _. do 2 eexists. split; reflexivity. }
  split; [exact A|]. split; [vm_compute; reflexivity|].
  destruct (proj2 (set_keyable_unlocks_and_keys hidden_host tx_rows)
                  (fst (fst (AttributeMaster.set_keyable (hidden_host, tx_rows))))
                  (snd (fst (AttributeMaster.set_keyable (hidden_host, tx_rows))))
                  eq_refl 0
                  (AttributeMaster.mkItem (Some (sample_widget "n" "tx")) true)
                  (sample_widget "n" "tx") eq_refl eq_refl eq_refl)
    as (L & K & H & _).
  split; [exact L|]. split; [exact K | exact H].
Defined.

Lemma get_type_index_fallback_witness :
  "float" <> "double"
  /\ get_type_index "float" = type_double
  /\ get_type_index "float" = get_type_index "double".
Proof.
  split; [discriminate|].
  apply (get_type_index_fallback "float"); discriminate.
Defined.

(** * More of the tool *)

(** ** Type names and the separator marker *)

(** X22.  Whatever the name, [get_type_index] answers an index of
    [data_types]; for the six known names the entry at that index is the
    name, capitalised. *)
Theorem get_type_index_in_range :
  (forall name, get_type_index name < List.length data_types)
  /\ map (fun name => nth (get_type_index name) data_types "")
         ["vector"; "integer"; "string"; "double"; "boolean"; "enum"]
     = data_types.
Proof.
  split; [|reflexivity].
  intros name. unfold get_type_index.
  repeat match goal with
         | |- context [if ?b then _ else _] => destruct b
         end;
    unfold data_types, type_vector, type_integer, type_string, type_double,
      type_boolean, type_enum; simpl; lia.
Qed.

Lemma prefix_app s t : prefix s (s ++ t)%string = true.
Proof.
  induction s as [|a s IH]; simpl; [destruct t; reflexivity|].
  destruct (ascii_dec a a); [exact IH | contradiction].
Qed.

Lemma prefix_inv s : forall t, prefix s t = true -> exists u, t = (s ++ u)%string.
Proof.
  induction s as [|a s IH]; intros t H.
  - exists t. reflexivity.
  - destruct t as [|b t]; simpl in H; [discriminate|].
    destruct (ascii_dec a b) as [->|]; [|discriminate].
    destruct (IH t H) as [u ->]. exists u. reflexivity.
Qed.

Lemma contains_eq sub s :
  contains sub s =
  if prefix sub s then true
  else match s with
       | EmptyString => false
       | String _ s' => contains sub s'
       end.
Proof. destruct s; reflexivity. Qed.

(** [contains] is Python's [in]: the string holds the other somewhere. *)
Lemma contains_spec sub s :
  contains sub s = true <-> exists pre post, s = (pre ++ sub ++ post)%string.
Proof.
  split.
  - induction s as [|a s IH]; rewrite contains_eq.
    + destruct (prefix sub "") eqn:E; [|discriminate].
      intros _. apply prefix_inv in E. destruct E as [u E]. exists "", u. exact E.
    + destruct (prefix sub (String a s)) eqn:E.
      * intros _. apply prefix_inv in E. destruct E as [u E]. exists "", u. exact E.
      * intros H. destruct (IH H) as (pre & post & ->).
        exists (String a pre), post. reflexivity.
  - intros (pre & post & ->). induction pre as [|a pre IH]; rewrite contains_eq.
    + change ("" ++ sub ++ post)%string with (sub ++ post)%string.
      rewrite prefix_app. reflexivity.
    + change (String a pre ++ sub ++ post)%string
        with (String a (pre ++ sub ++ post)%string).
      destruct (prefix sub _); [reflexivity | exact IH].
Qed.

(** X21.  A widget whose long name holds the separator marker anywhere is
    styled as a separator, whatever its flags on the host and even when the
    attribute is no longer there; [refresh] asks the host nothing. *)
Theorem refresh_separator_marker
        (h : host) (self : Attribute.t) (pre post : string) :
  Attribute.longName self = (pre ++ "__seperator_" ++ post)%string ->
  Attribute.is_seperator self = true
  /\ Attribute.refresh self h
     = (h, Ok (Attribute.setStyleSheet (style_replace (class_color Separator)) self)).
Proof.
  intros E.
  assert (Hs : Attribute.is_seperator self = true).
  { unfold Attribute.is_seperator. apply contains_spec. eauto. }
  split; [exact Hs|].
  unfold Attribute.refresh. rewrite Hs. reflexivity.
Qed.

(** ** The search for a separator id *)

Lemma next_id_spec fuel nd h : forall k,
  k <= 10 -> 11 - k < fuel ->
  (forall i, i < k -> lookup (nd, seperator_name i) (attrs h) <> None) ->
  exists id,
    AttributeMaster.next_id fuel nd k k h = (h, Ok id)
    /\ k <= id <= 10
    /\ (forall i, i < id -> lookup (nd, seperator_name i) (attrs h) <> None)
    /\ (lookup (nd, seperator_name id) (attrs h) = None \/ id = 10).
Proof.
  induction fuel as [|fuel IH]; intros k Hk Hf Hlt; [lia|].
  destruct (lookup (nd, seperator_name k) (attrs h)) as [a|] eqn:E.
  - destruct (Nat.eq_dec k 10) as [->|Hne].
    + exists 10. rewrite next_id_bound by congruence.
      split; [reflexivity|]. split; [lia|]. split; [assumption | right; reflexivity].
    + rewrite next_id_taken by (congruence || lia).
      replace (k + 1) with (S k) by lia.
      destruct (IH (S k)) as (id & R & B & T & F); [lia | lia | |].
      * intros i Hi. destruct (Nat.eq_dec i k) as [->|]; [congruence | apply Hlt; lia].
      * exists id. split; [exact R|]. split; [lia|]. split; assumption.
  - exists k. rewrite next_id_free by assumption.
    split; [reflexivity|]. split; [lia|]. split; [assumption | left; exact E].
Qed.

(** X15.  The search of [add_new_seperator] only reads the host and stops
    at the least id from 0 to 10 whose separator name is free on the node;
    when all eleven are taken it stops at 10, a taken name. *)
Theorem next_id_least_free (h : host) (nd : string) :
  exists id,
    AttributeMaster.next_id 12 nd 0 0 h = (h, Ok id)
    /\ id <= 10
    /\ (forall i, i < id -> lookup (nd, seperator_name i) (attrs h) <> None)
    /\ (lookup (nd, seperator_name id) (attrs h) = None \/ id = 10).
Proof.
  destruct (next_id_spec 12 nd h 0) as (id & R & B & T & F); [lia | lia | |].
  - intros i Hi. lia.
  - exists id. split; [exact R|]. split; [lia|]. split; assumption.
Qed.

(** ** The rows of the panel *)

Lemma init_form nd nice long lck k cb ty h a :
  lookup (nd, long) (attrs h) = Some a ->
  exists c,
    Attribute.init nd nice long lck k cb ty h
    = (h, Ok (Attribute.setStyleSheet (style_replace (class_color c))
                (Attribute.mk nd nice long lck k cb ty nice long ""))).
Proof.
  intros E. unfold Attribute.init.
  destruct (refresh_total (Attribute.mk nd nice long lck k cb ty nice long "") h)
    as [c Hc].
  exists c. destruct (ty =? "enum")%string.
  - erewrite bind_Ok; [exact Hc|].
    erewrite bind_Ok; [reflexivity|]. unfold cmds.attributeQuery.
    rewrite E. reflexivity.
  - erewrite bind_Ok by reflexivity. exact Hc.
Qed.

Lemma refresh_rows_built select names h : forall lw,
  (forall x, In x names -> lookup (select, x) (attrs h) <> None) ->
  exists rows,
    for_ names (fun x =>
      a <- liftH (cmds.attributeQuery x select) ;;
      w <- liftH (Attribute.init select (a_nice a) (a_long a) false
                                 (a_keyable a) (a_cb a) (a_type a)) ;;
      modify (fun st : AttributeMaster.tool =>
                (fst st, snd st ++ [AttributeMaster.mkItem (Some w) false])))
      (h, lw) = ((h, lw ++ rows), Ok tt)
    /\ Forall2 (built_from h select) rows names.
Proof.
  induction names as [|x names IH]; intros lw Hx.
  - exists []. rewrite app_nil_r. split; [reflexivity | constructor].
  - destruct (lookup (select, x) (attrs h)) as [a|] eqn:E;
      [|exfalso; eapply Hx; [left; reflexivity | exact E]].
    assert (Ka : a_long a = x) by (apply lookup_key in E; unfold key in E; congruence).
    destruct (init_form select (a_nice a) (a_long a) false (a_keyable a) (a_cb a)
                        (a_type a) h a) as [c Hw]; [rewrite Ka; exact E|].
    match type of Hw with
    | _ = (_, Ok ?w0) => set (w := w0) in *
    end.
    destruct (IH (lw ++ [AttributeMaster.mkItem (Some w) false])) as (rows & R & B);
      [intros y Hy; apply Hx; right; exact Hy|].
    exists (AttributeMaster.mkItem (Some w) false :: rows). split.
    + simpl for_. erewrite bind_Ok.
      * rewrite R. rewrite <- app_assoc. reflexivity.
      * erewrite bind_Ok
          by (apply liftH_run; unfold cmds.attributeQuery; rewrite E; reflexivity).
        erewrite bind_Ok by (apply liftH_run, Hw).
        reflexivity.
    + constructor; [|exact B].
      exists w, a, c. subst w. unfold Attribute.path. simpl. rewrite Ka.
      repeat split; try reflexivity. exact E.
Qed.

Lemma user_names_exist nd h x :
  In x (user_names nd h) -> lookup (nd, x) (attrs h) <> None.
Proof.
  intros Hx. apply in_map_iff in Hx. destruct Hx as (a & <- & Ha).
  apply filter_In in Ha. destruct Ha as [Ha Hb].
  apply andb_prop in Hb. destruct Hb as [Hb _].
  apply String.eqb_eq in Hb. subst nd.
  intros N. apply lookup_None in N. apply N. apply in_map_iff. exists a. auto.
Qed.

Lemma tool_refresh_built h lw :
  exists lw',
    AttributeMaster.refresh (h, lw) = ((h, lw'), Ok tt)
    /\ match selection h with
       | [] => lw' = []
       | nd :: _ => Forall2 (built_from h nd) lw' (user_names nd h)
       end.
Proof.
  unfold AttributeMaster.refresh.
  rewrite (bind_Ok _ _ (h, lw) (h, []) tt) by reflexivity.
  rewrite (bind_Ok _ _ (h, []) (h, []) (selection h)) by reflexivity.
  destruct (selection h) as [|select rest]; [exists []; split; reflexivity|].
  erewrite bind_Ok by (apply liftH_run; reflexivity).
  fold (user_names select h).
  destruct (user_names select h) as [|x names] eqn:En.
  - exists []. split; [reflexivity | constructor].
  - destruct (refresh_rows_built select (x :: names) h []) as (rows & R & B).
    + intros y Hy. apply user_names_exist. rewrite En. exact Hy.
    + exists rows. split; [exact R | exact B].
Qed.

(** X19.  The panel's [refresh] leaves the host as it is and rebuilds the
    list from it: no row when nothing is selected, else one unselected row
    per user attribute of the first selected node, in the order the host
    lists them, each with a widget for that attribute that shows the host's
    nice name and the colour of a display class. *)
Theorem tool_refresh_rows (h : host) (lw : list AttributeMaster.item) :
  exists lw',
    AttributeMaster.refresh (h, lw) = ((h, lw'), Ok tt)
    /\ match selection h with
       | [] => lw' = []
       | nd :: _ =>
           Forall2 (built_from h nd) lw' (user_names nd h)
           /\ rows_show nd (user_names nd h) lw'
       end.
Proof.
  destruct (tool_refresh_built h lw) as (lw' & R & B).
  exists lw'. split; [exact R|].
  destruct (selection h) as [|nd rest]; [exact B|].
  split; [exact B|].
  unfold rows_show. eapply Forall2_impl; [|exact B].
  intros it x (w & a & c & Hw & _ & _ & Hp & _). eauto.
Qed.

(** ** [add_new_seperator] on any scene *)

(** X17.  With no node selected, with the dialog cancelled or with an
    empty text, [add_new_seperator] changes nothing, on any scene: neither
    the host, its command trace included, nor the rows of the panel. *)
Theorem add_new_seperator_declined (h : host) (lw : list AttributeMaster.item) :
  (selection h = [] ->
   forall text result,
     AttributeMaster.add_new_seperator text result (h, lw) = ((h, lw), Ok tt))
  /\ (forall text, AttributeMaster.add_new_seperator text false (h, lw) = ((h, lw), Ok tt))
  /\ (forall result, AttributeMaster.add_new_seperator "" result (h, lw) = ((h, lw), Ok tt)).
Proof.
  assert (G : forall text result,
             (selection h = [] \/ result = false \/ text = "") ->
             AttributeMaster.add_new_seperator text result (h, lw) = ((h, lw), Ok tt)).
  { intros text result Hc.
    unfold AttributeMaster.add_new_seperator, AttributeMaster.selected_node.
    rewrite (bind_Ok _ _ (h, lw) (h, lw)
               (match selection h with [] => None | n :: _ => Some n end)).
    2:{ rewrite (bind_Ok _ _ (h, lw) (h, lw) (selection h)) by reflexivity. reflexivity. }
    destruct (selection h) as [|nd rest]; [reflexivity|].
    destruct (next_id_total 12 nd 0 0 h) as [id Rid]; [lia|].
    rewrite (bind_Ok _ _ (h, lw) (h, lw) id) by (apply liftH_run, Rid).
    destruct Hc as [Hc | [-> | ->]]; [discriminate | reflexivity |].
    rewrite andb_false_r. reflexivity. }
  split; [|split].
  - intros Hs text result. apply G. left. exact Hs.
  - intros text. apply G. right. left. reflexivity.
  - intros result. apply G. right. right. reflexivity.
Qed.

Lemma selection_record i h : selection (record i h) = selection h.
Proof. unfold record. destruct (undo_state h), (chunk_depth h); reflexivity. Qed.

Lemma setAttr_frame c inv f p h :
  selection (fst (cmds.setAttr c inv f p h)) = selection h
  /\ conns (fst (cmds.setAttr c inv f p h)) = conns h.
Proof.
  unfold cmds.setAttr. simpl. destruct (lookup p (attrs h)); simpl;
    rewrite ?selection_record, ?conns_record; split; reflexivity.
Qed.

Lemma addAttr_frame nd long ty nice h :
  selection (fst (cmds.addAttr nd long ty nice h)) = selection h
  /\ conns (fst (cmds.addAttr nd long ty nice h)) = conns h.
Proof.
  unfold cmds.addAttr. simpl. destruct (lookup (nd, long) (attrs h)); simpl;
    rewrite ?selection_record, ?conns_record; split; reflexivity.
Qed.

Lemma user_names_app nd h h' a :
  attrs h' = attrs h ++ [a] -> a_node a = nd -> a_user a = true ->
  user_names nd h' = user_names nd h ++ [a_long a].
Proof.
  intros E N U. unfold user_names. rewrite E, filter_app, map_app. simpl.
  rewrite N, U, String.eqb_refl. reflexivity.
Qed.

(** X16.  When one of the ids 0 to 10 is free on the selected node and the
    dialog is accepted with a text, [add_new_seperator] appends the
    separator of the least free id: an enum attribute with the text as its
    nice name, not keyable, shown in the channel box and locked; the
    connections stay as they were and the rebuilt panel shows the new
    attribute in its last row. *)
Theorem add_new_seperator_creates
        (h : host) (lw : list AttributeMaster.item) (nd : string)
        (rest : list string) (text : string) :
  selection h = nd :: rest ->
  text <> "" ->
  (exists i, i <= 10 /\ lookup (nd, seperator_name i) (attrs h) = None) ->
  exists id h' lw',
    id <= 10
    /\ (forall i, i < id -> lookup (nd, seperator_name i) (attrs h) <> None)
    /\ lookup (nd, seperator_name id) (attrs h) = None
    /\ AttributeMaster.add_new_seperator text true (h, lw) = ((h', lw'), Ok tt)
    /\ attrs h' = attrs h
                  ++ [mkAttr nd (seperator_name id) text true false true "enum" true]
    /\ conns h' = conns h
    /\ rows_show nd (user_names nd h ++ [seperator_name id]) lw'.
Proof.
  intros Hsel Ht (i0 & Hi0 & Hfree).
  destruct (next_id_spec 12 nd h 0) as (id & Rid & B & T & F);
    [lia | lia | intros i Hi; lia |].
  assert (N : lookup (nd, seperator_name id) (attrs h) = None).
  { destruct F as [F | ->]; [exact F|].
    destruct (Nat.eq_dec i0 10) as [->|]; [exact Hfree|].
    exfalso. apply (T i0); [lia | exact Hfree]. }
  set (name := seperator_name id) in *.
  set (x := mkAttr nd name text false false false "enum" true).
  destruct (addAttr_run nd name "enum" text h N) as (h1 & R1 & A1).
  assert (E1 : lookup (nd, name) (attrs h1) = Some x)
    by (rewrite A1; apply lookup_app_absent; [assumption | reflexivity]).
  destruct (setAttr_attrs (SetAttrChannelBox (nd, name) true)
              (fun a => InvChannelBox (nd, name) (a_cb a))
              (set_cb true) _ h1 x E1) as (h2 & R2 & A2).
  rewrite A1, update_app_absent in A2 by (assumption || reflexivity).
  assert (E2 : lookup (nd, name) (attrs h2) = Some (set_cb true x))
    by (rewrite A2; apply lookup_app_absent; [assumption | reflexivity]).
  destruct (setAttr_attrs (SetAttrLock (nd, name) true)
              (fun a => InvLock (nd, name) (a_lock a))
              (set_lock true) _ h2 _ E2) as (h3 & R3 & A3).
  rewrite A2, update_app_absent in A3 by (assumption || reflexivity).
  (* the selection and the connections are not touched *)
  pose proof (addAttr_frame nd name "enum" text h) as [S1 C1]. rewrite R1 in S1, C1.
  pose proof (setAttr_frame (SetAttrChannelBox (nd, name) true)
                (fun a => InvChannelBox (nd, name) (a_cb a)) (set_cb true)
                (nd, name) h1) as [S2 C2].
  rewrite R2 in S2, C2.
  pose proof (setAttr_frame (SetAttrLock (nd, name) true)
                (fun a => InvLock (nd, name) (a_lock a)) (set_lock true)
                (nd, name) h2) as [S3 C3].
  rewrite R3 in S3, C3. simpl in S1, C1, S2, C2, S3, C3.
  destruct (tool_refresh_built h3 lw) as (lw' & R4 & B4).
  assert (Hsel3 : selection h3 = nd :: rest) by congruence.
  rewrite Hsel3 in B4.
  exists id, h3, lw'.
  split; [lia|]. split; [exact T|]. split; [exact N|].
  split; [|split; [exact A3 | split; [congruence|]]].
  - unfold AttributeMaster.add_new_seperator, AttributeMaster.selected_node.
    rewrite (bind_Ok _ _ (h, lw) (h, lw) (Some nd)).
    2:{ rewrite (bind_Ok _ _ (h, lw) (h, lw) (selection h)) by reflexivity.
        rewrite Hsel. reflexivity. }
    rewrite (bind_Ok _ _ (h, lw) (h, lw) id) by (apply liftH_run, Rid).
    fold (seperator_name id). fold name.
    destruct text as [|c text]; [congruence|].
    change (true && Nat.ltb 0 (String.length (String c text))) with true.
    cbv iota.
    rewrite (bind_Ok _ _ (h, lw) (h1, lw) tt) by (apply liftH_run, R1).
    rewrite (bind_Ok _ _ (h1, lw) (h2, lw) tt) by (apply liftH_run, R2).
    rewrite (bind_Ok _ _ (h2, lw) (h3, lw) tt) by (apply liftH_run, R3).
    exact R4.
  - rewrite (user_names_app nd h h3 _ A3 eq_refl eq_refl) in B4. simpl in B4.
    unfold rows_show. eapply Forall2_impl; [|exact B4].
    intros it y (w & a & c & Hw & _ & _ & Hp & _). eauto.
Qed.

(** ** [reorder] on any list of rows *)

Lemma existsb_pair (nd x : string) (ds : list string) :
  existsb (plug_eqb (nd, x)) (map (pair nd) ds) = existsb (String.eqb x) ds.
Proof.
  induction ds as [|d ds IH]; simpl; [reflexivity|].
  rewrite IH. unfold plug_eqb. simpl. rewrite String.eqb_refl. reflexivity.
Qed.

Lemma shown_last nd (ds : list string) :
  map (fun i : plug * bool => snd (fst i))
      (filter (fun i => (fst (fst i) =? nd)%string && snd i)
              (map (fun d => ((nd, d), true)) ds)) = ds.
Proof.
  induction ds as [|d ds IH]; simpl; [reflexivity|].
  rewrite String.eqb_refl. simpl. f_equal. exact IH.
Qed.

Lemma shown_elsewhere nd nd' (ds : list string) :
  nd' <> nd ->
  filter (fun i : plug * bool => (fst (fst i) =? nd')%string && snd i)
         (map (fun d => ((nd, d), true)) ds) = [].
Proof.
  intros Hne. induction ds as [|d ds IH]; simpl; [reflexivity|].
  destruct (String.eqb_spec nd nd'); [congruence | exact IH].
Qed.

Lemma kept_user_names nd (ds : list string) (l : list (plug * bool)) :
  map (fun i : plug * bool => snd (fst i))
      (filter (fun i => (fst (fst i) =? nd)%string && snd i)
              (filter (kept (map (pair nd) ds)) l))
  = filter (fun x => negb (existsb (String.eqb x) ds))
           (map (fun i : plug * bool => snd (fst i))
                (filter (fun i => (fst (fst i) =? nd)%string && snd i) l)).
Proof.
  induction l as [|[[n x] u] l IH]; simpl; [reflexivity|].
  destruct (String.eqb_spec n nd) as [->|Hn]; simpl.
  - destruct u; simpl.
    + unfold kept at 1. simpl. rewrite existsb_pair.
      destruct (existsb (String.eqb x) ds); simpl.
      * exact IH.
      * rewrite String.eqb_refl. simpl. f_equal. exact IH.
    + destruct (kept _ _); simpl; [rewrite String.eqb_refl; simpl|]; exact IH.
  - destruct (kept _ _); simpl; [|exact IH].
    destruct (String.eqb_spec n nd); [contradiction | exact IH].
Qed.

Lemma kept_elsewhere nd nd' (ds : list string) (l : list (plug * bool)) :
  nd' <> nd ->
  filter (fun i => (fst (fst i) =? nd')%string && snd i)
         (filter (kept (map (pair nd) ds)) l)
  = filter (fun i => (fst (fst i) =? nd')%string && snd i) l.
Proof.
  intros Hne. induction l as [|[[n x] u] l IH]; [reflexivity|].
  simpl. unfold kept at 1. simpl.
  destruct (existsb (plug_eqb (n, x)) (map (pair nd) ds)) eqn:K; simpl.
  - apply existsb_plug, in_map_iff in K. destruct K as (d & E & _).
    destruct (String.eqb_spec n nd') as [->|]; simpl; [congruence | exact IH].
  - destruct ((n =? nd')%string && u); [f_equal|]; exact IH.
Qed.

(** X1.  The rows show every user attribute of the node once, in any
    order and any number: on a well-formed scene with no chunk open,
    [reorder] succeeds, the host then lists the attributes in the order of
    the rows, and the undo settings are those of before. *)
Theorem reorder_any_order
        (h : host) (lw : list AttributeMaster.item) (nd : string) (ds : list string) :
  wf h -> idle h -> NoDup ds ->
  (forall d, In d ds <-> In d (user_names nd h)) ->
  rows_show nd ds lw ->
  exists h',
    AttributeMaster.reorder (h, lw) = ((h', lw), Ok tt)
    /\ user_names nd h' = ds
    /\ undo_settings h' = undo_settings h.
Proof.
  intros W Idle Hn Hall Hrows.
  destruct (reorder_ok nd ds lw h W Idle Hn) as (h' & R & S & I); [|assumption|].
  { intros d Hd. apply in_user_names, Hall, Hd. }
  exists h'. split; [exact R|]. split; [|exact S].
  apply (reordered_user_names nd ds h h' I). intros x Hx. apply Hall, Hx.
Qed.

(** X2.  The rows show only some of the user attributes of the node (the
    others were added since the panel was refreshed): [reorder] moves the
    shown ones behind the others, in the order of the rows; the others keep
    their order, and so do the attributes of every other node. *)
Theorem reorder_keeps_the_rest
        (h : host) (lw : list AttributeMaster.item) (nd : string) (ds : list string) :
  wf h -> idle h -> NoDup ds ->
  (forall d, In d ds -> In d (user_names nd h)) ->
  rows_show nd ds lw ->
  exists h',
    AttributeMaster.reorder (h, lw) = ((h', lw), Ok tt)
    /\ user_names nd h'
       = filter (fun x => negb (existsb (String.eqb x) ds)) (user_names nd h) ++ ds
    /\ forall nd', nd' <> nd -> user_names nd' h' = user_names nd' h.
Proof.
  intros W Idle Hn Hall Hrows.
  destruct (reorder_ok nd ds lw h W Idle Hn) as (h' & R & S & I); [|assumption|].
  { intros d Hd. apply in_user_names, Hall, Hd. }
  exists h'. split; [exact R|]. split.
  - rewrite !user_names_idents, I, filter_app, map_app, shown_last.
    rewrite kept_user_names. reflexivity.
  - intros nd' Hne.
    rewrite !user_names_idents, I, filter_app, (shown_elsewhere nd nd') by assumption.
    rewrite app_nil_r, kept_elsewhere by assumption. reflexivity.
Qed.

(** X20.  Rows fresh from [refresh] and not dragged: [reorder] succeeds
    and the host lists the attributes of the selected node as before. *)
Theorem refresh_then_reorder
        (h : host) (lw : list AttributeMaster.item) (nd : string) (rest : list string) :
  wf h -> idle h -> selection h = nd :: rest ->
  exists lw' h',
    AttributeMaster.refresh (h, lw) = ((h, lw'), Ok tt)
    /\ AttributeMaster.reorder (h, lw') = ((h', lw'), Ok tt)
    /\ user_names nd h' = user_names nd h
    /\ undo_settings h' = undo_settings h.
Proof.
  intros W Idle Hsel.
  destruct (tool_refresh_built h lw) as (lw' & R & B). rewrite Hsel in B.
  assert (Hrows : rows_show nd (user_names nd h) lw').
  { unfold rows_show. eapply Forall2_impl; [|exact B].
    intros it x (w & a & c & Hw & _ & _ & Hp & _). eauto. }
  destruct (reorder_ok nd (user_names nd h) lw' h W Idle) as (h' & R' & S & I);
    [apply NoDup_user_names; destruct W; assumption
    | intros d Hd; apply in_user_names, Hd | exact Hrows |].
  exists lw', h'. split; [exact R|]. split; [exact R'|]. split; [|exact S].
  apply (reordered_user_names nd _ h h' I). auto.
Qed.

Lemma for_app {S X} (xs ys : list X) (body : X -> M S unit) s :
  for_ (xs ++ ys) body s = (for_ xs body ;; for_ ys body) s.
Proof.
  revert s. induction xs as [|x xs IH]; intros s; simpl.
  - unfold bind, ret. reflexivity.
  - unfold bind. destruct (body x s) as [s1 [[]|e]]; [|reflexivity].
    rewrite IH. unfold bind. reflexivity.
Qed.

(** X4.  A first row whose attribute is no longer on the host, above rows
    that show attributes that are: [reorder] deletes the attributes of the
    other rows, then fails on the stale one and issues no undo; the call
    raises, the deleted attributes stay deleted, and the undo settings are
    restored. *)
Theorem reorder_stale_row
        (h : host) (lw : list AttributeMaster.item) (nd : string) (ds : list string)
        (w0 : Attribute.t) (s0 : bool) :
  wf h -> idle h -> NoDup ds ->
  (forall d, In d ds -> In ((nd, d), true) (idents h)) ->
  rows_show nd ds lw ->
  lookup (Attribute.path w0) (attrs h) = None ->
  exists h',
    AttributeMaster.reorder (h, AttributeMaster.mkItem (Some w0) s0 :: lw)
    = ((h', AttributeMaster.mkItem (Some w0) s0 :: lw), Raise cmds.no_object)
    /\ idents h' = filter (kept (map (pair nd) ds)) (idents h)
    /\ (forall d, In d ds -> lookup (nd, d) (attrs h') = None)
    /\ undo_settings h' = undo_settings h.
Proof.
  intros W Idle Hn Hin Hrows N0.
  set (lw0 := AttributeMaster.mkItem (Some w0) s0 :: lw).
  unfold AttributeMaster.reorder, with_UndoStateContext.
  rewrite (bind_Ok _ _ (h, lw0) (h, lw0)
             (UndoStateContext.mk (undo_state h) (undo_infinity h) (undo_length h)))
    by reflexivity.
  set (h1 := with_undo true true (undo_length h) (queue h)
               (log (UndoInfoSet true true None) h)).
  destruct (rows_show_ordered nd ds lw h1 Hrows) as (ws & Ro & Pws & Llw).
  assert (Ro0 : AttributeMaster.attributes_ordered (h1, lw0) = ((h1, lw0), Ok (w0 :: ws))).
  { unfold AttributeMaster.attributes_ordered, AttributeMaster.listWidget in *.
    rewrite (bind_Ok _ _ (h1, lw0) (h1, lw0) lw0) by reflexivity.
    rewrite (bind_Ok _ _ (h1, lw) (h1, lw) lw) in Ro by reflexivity.
    unfold ret in *. injection Ro as Ro. unfold lw0. simpl. rewrite Ro. reflexivity. }
  assert (Prev : map Attribute.path (rev ws) = rev (map (pair nd) ds))
    by (rewrite map_rev, Pws; reflexivity).
  destruct (deletes_ok lw0 (rev ws) h1) as (h2 & cs & R2 & W2 & Idle2 & S2 & I2 & Q2 & C2);
    try reflexivity; try assumption.
  { rewrite Prev. apply NoDup_rev, NoDup_pair, Hn. }
  { intros w Hw. apply (in_map Attribute.path) in Hw. rewrite Prev in Hw.
    apply in_rev, in_map_iff in Hw. destruct Hw as (d & <- & Hd). apply Hin, Hd. }
  assert (I2' : idents h2 = filter (kept (map (pair nd) ds)) (idents h)).
  { rewrite I2. change (idents h1) with (idents h).
    apply kept_ext. intros p. rewrite Prev. symmetry. apply in_rev. }
  assert (N2 : lookup (Attribute.path w0) (attrs h2) = None).
  { apply present_idents. rewrite I2'. intros Hk. apply in_map_iff in Hk.
    destruct Hk as (i & Hi & Hf). apply filter_In in Hf. destruct Hf as [Hf _].
    apply present_idents in N0. apply N0. apply in_map_iff. eauto. }
  destruct (delete_absent_raises w0 h2 N2) as (h3 & R3 & A3 & C3).
  set (h4 := with_undo (undo_state h) (undo_infinity h) (undo_length h)
               (if undo_state h
                then trim (undo_infinity h) (undo_length h)
                          (queue (log (UndoInfoSet (undo_state h) (undo_infinity h)
                                                   (Some (undo_length h))) h3))
                else [])
               (log (UndoInfoSet (undo_state h) (undo_infinity h)
                                 (Some (undo_length h))) h3)).
  assert (I4 : idents h4 = filter (kept (map (pair nd) ds)) (idents h)).
  { change (idents h4) with (idents h3). unfold idents. rewrite A3.
    fold (idents h2). exact I2'. }
  exists h4. split; [|split; [exact I4 | split; [|reflexivity]]].
  - apply (with_run _ _ _ (h, lw0) (h1, lw0) (h3, lw0) (h4, lw0));
      [reflexivity | | reflexivity].
    unfold AttributeMaster.reorder_body.
    rewrite (bind_Ok _ _ _ _ _ Ro0).
    apply bind_Raise. simpl rev. rewrite for_app.
    rewrite (bind_Ok _ _ _ _ _ R2).
    simpl for_. apply bind_Raise. apply liftH_run. exact R3.
  - intros d Hd. apply present_idents. rewrite I4. intros Hk.
    apply in_map_iff in Hk. destruct Hk as (i & Hi & Hf).
    apply filter_In in Hf. destruct Hf as [_ Hf].
    unfold kept in Hf. apply negb_true_iff in Hf.
    assert (T : existsb (plug_eqb (fst i)) (map (pair nd) ds) = true)
      by (apply existsb_plug; rewrite Hi; apply in_map; exact Hd).
    congruence.
Qed.

(** ** The three other display states *)

Lemma update_update p f g l :
  (forall a, key (f a) = key a) ->
  update p g (update p f l) = update p (fun a => g (f a)) l.
Proof.
  intros Hf. unfold update. rewrite map_map. apply map_ext. intros a.
  destruct (plug_eqb (key a) p) eqn:E; [rewrite Hf, E | rewrite E]; reflexivity.
Qed.

Lemma flagged_nil F l : flagged F [] l = l.
Proof. unfold flagged. simpl. apply map_id. Qed.

Lemma flagged_cons F p ps l :
  (forall a, key (F a) = key a) -> (forall a, F (F a) = F a) ->
  flagged F ps (update p F l) = flagged F (p :: ps) l.
Proof.
  intros Hk Hi. unfold flagged, update. rewrite map_map. apply map_ext. intros a.
  simpl. destruct (plug_eqb (key a) p) eqn:E; simpl.
  - rewrite Hk, Hi. destruct (existsb _ ps); reflexivity.
  - reflexivity.
Qed.

Lemma flagged_ext F ps ps' l :
  (forall p, In p ps <-> In p ps') -> flagged F ps l = flagged F ps' l.
Proof.
  intros H. unfold flagged. apply map_ext. intros a.
  destruct (existsb (plug_eqb (key a)) ps) eqn:E, (existsb (plug_eqb (key a)) ps') eqn:E';
    try reflexivity.
  - apply existsb_plug, H, existsb_plug in E. congruence.
  - apply existsb_plug, H, existsb_plug in E'. congruence.
Qed.

Lemma lookup_flagged F ps l q :
  (forall a, key (F a) = key a) ->
  lookup q (flagged F ps l)
  = if existsb (plug_eqb q) ps then option_map F (lookup q l) else lookup q l.
Proof.
  intros Hk. unfold flagged, lookup in *. induction l as [|a l IH]; cbn [map find].
  - destruct (existsb _ ps); reflexivity.
  - assert (Hq : plug_eqb (key (if existsb (plug_eqb (key a)) ps then F a else a)) q
                 = plug_eqb (key a) q)
      by (destruct (existsb (plug_eqb (key a)) ps); rewrite ?Hk; reflexivity).
    rewrite Hq. destruct (plug_eqb_spec (key a) q) as [<-|Hne]; [|exact IH].
    destruct (existsb (plug_eqb (key a)) ps); reflexivity.
Qed.

Lemma row_plug_sig lw lw' i :
  map row_sig lw' = map row_sig lw -> row_plug lw' i = row_plug lw i.
Proof.
  intros Hs. unfold row_plug.
  assert (H : nth_error (map row_sig lw') i = nth_error (map row_sig lw) i)
    by (rewrite Hs; reflexivity).
  rewrite !nth_error_map in H.
  destruct (nth_error lw' i) as [[wo' s']|], (nth_error lw i) as [[wo s]|];
    simpl in H; try discriminate; [|reflexivity].
  unfold row_sig in H. simpl in *.
  destruct wo', wo; simpl in *; congruence.
Qed.

Section FlagLoop.

(** A loop over the selected rows whose body writes the flags of [F] on
    the plug of its row and refreshes the row. *)
Variable body : nat -> M AttributeMaster.tool unit.
Variable F : attr -> attr.
Hypothesis F_key : forall a, key (F a) = key a.
Hypothesis F_idem : forall a, F (F a) = F a.
Hypothesis body_run : forall i w s h lw a,
  nth_error lw i = Some (AttributeMaster.mkItem (Some w) s) ->
  lookup (Attribute.path w) (attrs h) = Some a ->
  exists h1 lw1,
    body i (h, lw) = ((h1, lw1), Ok tt)
    /\ map row_sig lw1 = map row_sig lw
    /\ attrs h1 = update (Attribute.path w) F (attrs h)
    /\ conns h1 = conns h.

Lemma flag_loop sel : forall h lw,
  (forall i, In i sel ->
     exists w s a, nth_error lw i = Some (AttributeMaster.mkItem (Some w) s)
                   /\ lookup (Attribute.path w) (attrs h) = Some a) ->
  exists h' lw',
    for_ sel body (h, lw) = ((h', lw'), Ok tt)
    /\ map row_sig lw' = map row_sig lw
    /\ conns h' = conns h
    /\ attrs h' = flagged F (flat_map (row_plug lw) sel) (attrs h).
Proof.
  induction sel as [|i sel IH]; intros h lw Hsel.
  - exists h, lw. simpl. rewrite flagged_nil. auto.
  - destruct (Hsel i (or_introl eq_refl)) as (w & s & a & Hn & E).
    destruct (body_run i w s h lw a Hn E) as (h1 & lw1 & R1 & S1 & A1 & C1).
    destruct (IH h1 lw1) as (h' & lw' & R & S' & C' & A').
    { intros j Hj. destruct (Hsel j (or_intror Hj)) as (wj & sj & aj & Hnj & Ej).
      destruct (nth_error_row_sig _ _ _ _ S1 Hnj) as (it' & Hn' & Hs').
      destruct it' as [[wj'|] sj']; unfold row_sig in Hs'; simpl in Hs'; [|discriminate].
      assert (Hp : Attribute.path wj' = Attribute.path wj) by congruence.
      assert (sj' = sj) by congruence. subst sj'.
      assert (Ej' : exists b, lookup (Attribute.path wj) (attrs h1) = Some b).
      { rewrite A1, lookup_update by exact F_key. rewrite Ej.
        destruct (plug_eqb _ _); simpl; eauto. }
      destruct Ej' as [b Eb]. exists wj', sj, b. rewrite Hp. auto. }
    exists h', lw'. split; [|split; [congruence | split; [congruence|]]].
    + simpl. erewrite bind_Ok by exact R1. exact R.
    + rewrite A', A1.
      assert (Hps : flat_map (row_plug lw1) sel = flat_map (row_plug lw) sel).
      { apply flat_map_ext. intros j. apply row_plug_sig, S1. }
      rewrite Hps, flagged_cons by assumption.
      simpl. unfold row_plug at 2. rewrite Hn. reflexivity.
Qed.

End FlagLoop.

Lemma selected_plugs_rows lw sel :
  (forall i, In i sel <->
     exists it, nth_error lw i = Some it /\ AttributeMaster.selected it = true) ->
  forall p, In p (flat_map (row_plug lw) sel) <-> In p (selected_plugs lw).
Proof.
  intros Hin p. unfold selected_plugs. rewrite !in_flat_map. split.
  - intros (i & Hi & Hp). apply Hin in Hi. destruct Hi as (it & Hn & Hs).
    exists it. split; [eapply nth_error_In; eassumption|].
    unfold row_plug in Hp. rewrite Hn in Hp. rewrite Hs. exact Hp.
  - intros (it & Hit & Hp). apply In_nth_error in Hit. destruct Hit as [i Hn].
    destruct (AttributeMaster.selected it) eqn:Hs; [|contradiction].
    exists i. split; [apply Hin; eauto|].
    unfold row_plug. rewrite Hn. exact Hp.
Qed.

(** Three flag writes on the plug of a row, then the refresh of the row. *)
Lemma three_flags_row
      (c1 c2 c3 : plug -> cmd) (i1 i2 i3 : plug -> attr -> inverse)
      (f1 f2 f3 : attr -> attr) i w s h lw a :
  (forall a, key (f1 a) = key a) -> (forall a, key (f2 a) = key a) ->
  nth_error lw i = Some (AttributeMaster.mkItem (Some w) s) ->
  lookup (Attribute.path w) (attrs h) = Some a ->
  exists h1 lw1,
    (w <- AttributeMaster.itemWidget i ;;
     liftH (cmds.setAttr (c1 (Attribute.path w)) (i1 (Attribute.path w)) f1
                         (Attribute.path w)) ;;
     liftH (cmds.setAttr (c2 (Attribute.path w)) (i2 (Attribute.path w)) f2
                         (Attribute.path w)) ;;
     liftH (cmds.setAttr (c3 (Attribute.path w)) (i3 (Attribute.path w)) f3
                         (Attribute.path w)) ;;
     AttributeMaster.refresh_row i w) (h, lw) = ((h1, lw1), Ok tt)
    /\ map row_sig lw1 = map row_sig lw
    /\ attrs h1 = update (Attribute.path w) (fun a => f3 (f2 (f1 a))) (attrs h)
    /\ conns h1 = conns h.
Proof.
  intros K1 K2 Hn E.
  rewrite (bind_Ok _ _ (h, lw) (h, lw) w).
  2:{ unfold AttributeMaster.itemWidget, AttributeMaster.listWidget.
      rewrite (bind_Ok _ _ (h, lw) (h, lw) lw) by reflexivity.
      rewrite Hn. reflexivity. }
  set (p := Attribute.path w) in *.
  destruct (setAttr_attrs (c1 p) (i1 p) f1 p h a E) as (h1 & R1 & A1).
  pose proof (setAttr_frame (c1 p) (i1 p) f1 p h) as [_ C1]. rewrite R1 in C1.
  assert (E1 : lookup p (attrs h1) = Some (f1 a)).
  { rewrite A1, lookup_update by exact K1. rewrite plug_eqb_refl, E. reflexivity. }
  destruct (setAttr_attrs (c2 p) (i2 p) f2 p h1 _ E1) as (h2 & R2 & A2).
  pose proof (setAttr_frame (c2 p) (i2 p) f2 p h1) as [_ C2]. rewrite R2 in C2.
  assert (E2 : lookup p (attrs h2) = Some (f2 (f1 a))).
  { rewrite A2, lookup_update by exact K2. rewrite plug_eqb_refl, E1. reflexivity. }
  destruct (setAttr_attrs (c3 p) (i3 p) f3 p h2 _ E2) as (h3 & R3 & A3).
  pose proof (setAttr_frame (c3 p) (i3 p) f3 p h2) as [_ C3]. rewrite R3 in C3.
  simpl in C1, C2, C3.
  destruct (refresh_total w h3) as [c Hc].
  rewrite (bind_Ok _ _ (h, lw) (h1, lw) tt) by (apply liftH_run, R1).
  rewrite (bind_Ok _ _ (h1, lw) (h2, lw) tt) by (apply liftH_run, R2).
  rewrite (bind_Ok _ _ (h2, lw) (h3, lw) tt) by (apply liftH_run, R3).
  unfold AttributeMaster.refresh_row.
  erewrite bind_Ok by (apply liftH_run, Hc).
  unfold modify. simpl. rewrite Hn.
  do 2 eexists. split; [reflexivity|]. split; [|split].
  - eapply set_nth_row_sig; [eassumption | reflexivity].
  - rewrite A3, A2, A1, !update_update; auto.
  - congruence.
Qed.

Lemma flag_op_run (body : nat -> M AttributeMaster.tool unit) (F : attr -> attr) h lw :
  (forall a, key (F a) = key a) -> (forall a, F (F a) = F a) ->
  (forall i w s h lw a,
     nth_error lw i = Some (AttributeMaster.mkItem (Some w) s) ->
     lookup (Attribute.path w) (attrs h) = Some a ->
     exists h1 lw1,
       body i (h, lw) = ((h1, lw1), Ok tt)
       /\ map row_sig lw1 = map row_sig lw
       /\ attrs h1 = update (Attribute.path w) F (attrs h)
       /\ conns h1 = conns h) ->
  selection_alive h lw ->
  exists h' lw',
    (sel <- AttributeMaster.selectedItems ;; for_ sel body) (h, lw) = ((h', lw'), Ok tt)
    /\ attrs h' = flagged F (selected_plugs lw) (attrs h)
    /\ conns h' = conns h
    /\ map row_sig lw' = map row_sig lw.
Proof.
  intros Hk Hi Hbody Halive.
  destruct (selectedItems_run h lw) as (sel & Rs & Hin).
  rewrite (bind_Ok _ _ _ _ _ Rs).
  destruct (flag_loop body F Hk Hi Hbody sel h lw) as (h' & lw' & R & S' & C' & A').
  { intros i Hsel. apply Hin in Hsel. destruct Hsel as ([wo s] & Hn & Hs).
    destruct (Halive _ _ Hn Hs) as (w & a & Hw & E). simpl in Hw. subst wo.
    exists w, s, a. auto. }
  exists h', lw'. split; [exact R|]. split; [|split; assumption].
  rewrite A'. apply flagged_ext. apply selected_plugs_rows. exact Hin.
Qed.

Lemma selected_row_flagged F h h' lw i it w a :
  (forall a, key (F a) = key a) ->
  attrs h' = flagged F (selected_plugs lw) (attrs h) ->
  nth_error lw i = Some it -> AttributeMaster.selected it = true ->
  AttributeMaster.widget it = Some w ->
  lookup (Attribute.path w) (attrs h) = Some a ->
  lookup (Attribute.path w) (attrs h') = Some (F a).
Proof.
  intros Hk A Hn Hs Hw E. rewrite A, lookup_flagged by exact Hk.
  assert (Hin : In (Attribute.path w) (selected_plugs lw)).
  { unfold selected_plugs. apply in_flat_map. exists it.
    split; [eapply nth_error_In; eassumption|]. rewrite Hs, Hw. left. reflexivity. }
  apply existsb_plug in Hin. rewrite Hin, E. reflexivity.
Qed.

(** X9.  [set_notkeyable], every selected row having a widget for an
    attribute on the host: the selected attributes end up unlocked, not
    keyable and in the channel box, shown in the not-keyable class (or as
    separators); every other attribute, the order of the attributes and the
    connections are as before. *)
Theorem set_notkeyable_sets (h : host) (lw : list AttributeMaster.item) :
  selection_alive h lw ->
  exists h' lw',
    AttributeMaster.set_notkeyable (h, lw) = ((h', lw'), Ok tt)
    /\ attrs h' = flagged as_notkeyable (selected_plugs lw) (attrs h)
    /\ conns h' = conns h
    /\ map row_sig lw' = map row_sig lw
    /\ forall i it w,
         nth_error lw i = Some it -> AttributeMaster.selected it = true ->
         AttributeMaster.widget it = Some w ->
         Attribute.is_locked w h' = (h', Ok false)
         /\ Attribute.is_keyable w h' = (h', Ok false)
         /\ Attribute.is_hidden w h' = (h', Ok false)
         /\ exists a', lookup (Attribute.path w) (attrs h') = Some a'
                       /\ classify (Attribute.is_seperator w) (a_lock a')
                                   (a_keyable a') (a_cb a')
                          = if Attribute.is_seperator w then Separator else NotKeyable.
Proof.
  intros Halive. unfold AttributeMaster.set_notkeyable.
  destruct (flag_op_run
              (fun i =>
                 w <- AttributeMaster.itemWidget i ;;
                 liftH (cmds.setAttr_lock (Attribute.path w) false) ;;
                 liftH (cmds.setAttr_keyable (Attribute.path w) false) ;;
                 liftH (cmds.setAttr_channelBox (Attribute.path w) true) ;;
                 AttributeMaster.refresh_row i w)
              as_notkeyable h lw) as (h' & lw' & R & A & C & S');
    try reflexivity; try assumption.
  { intros i w s h0 lw0 a Hn E.
    exact (three_flags_row
             (fun p => SetAttrLock p false) (fun p => SetAttrKeyable p false)
             (fun p => SetAttrChannelBox p true)
             (fun p a => InvLock p (a_lock a)) (fun p a => InvKeyable p (a_keyable a))
             (fun p a => InvChannelBox p (a_cb a))
             (set_lock false) (set_keyable_flag false) (set_cb true)
             i w s h0 lw0 a (fun _ => eq_refl) (fun _ => eq_refl) Hn E). }
  exists h', lw'. split; [exact R|]. split; [exact A|]. split; [exact C|].
  split; [exact S'|].
  intros i it w Hn Hs Hw.
  destruct (Halive _ _ Hn Hs) as (w0 & a & Hw0 & E). rewrite Hw in Hw0.
  injection Hw0 as <-.
  pose proof (selected_row_flagged as_notkeyable h h' lw i it w a
                (fun _ => eq_refl) A Hn Hs Hw E) as E'.
  rewrite is_locked_run, is_keyable_run, is_hidden_run, E'. simpl.
  repeat split. eexists. split; [reflexivity|]. simpl. unfold classify. simpl.
  destruct (Attribute.is_seperator w); reflexivity.
Qed.

(** X10.  [set_displayable] (the locked state), every selected row having
    a widget for an attribute on the host: the selected attributes end up
    locked, not keyable and in the channel box, shown in the locked class (or
    as separators); every other attribute, the order of the attributes and
    the connections are as before. *)
Theorem set_displayable_sets (h : host) (lw : list AttributeMaster.item) :
  selection_alive h lw ->
  exists h' lw',
    AttributeMaster.set_displayable (h, lw) = ((h', lw'), Ok tt)
    /\ attrs h' = flagged as_displayable (selected_plugs lw) (attrs h)
    /\ conns h' = conns h
    /\ map row_sig lw' = map row_sig lw
    /\ forall i it w,
         nth_error lw i = Some it -> AttributeMaster.selected it = true ->
         AttributeMaster.widget it = Some w ->
         Attribute.is_locked w h' = (h', Ok true)
         /\ Attribute.is_keyable w h' = (h', Ok false)
         /\ Attribute.is_hidden w h' = (h', Ok false)
         /\ exists a', lookup (Attribute.path w) (attrs h') = Some a'
                       /\ classify (Attribute.is_seperator w) (a_lock a')
                                   (a_keyable a') (a_cb a')
                          = if Attribute.is_seperator w then Separator else Locked.
Proof.
  intros Halive. unfold AttributeMaster.set_displayable.
  destruct (flag_op_run
              (fun i =>
                 w <- AttributeMaster.itemWidget i ;;
                 liftH (cmds.setAttr_lock (Attribute.path w) true) ;;
                 liftH (cmds.setAttr_keyable (Attribute.path w) false) ;;
                 liftH (cmds.setAttr_channelBox (Attribute.path w) true) ;;
                 AttributeMaster.refresh_row i w)
              as_displayable h lw) as (h' & lw' & R & A & C & S');
    try reflexivity; try assumption.
  { intros i w s h0 lw0 a Hn E.
    exact (three_flags_row
             (fun p => SetAttrLock p true) (fun p => SetAttrKeyable p false)
             (fun p => SetAttrChannelBox p true)
             (fun p a => InvLock p (a_lock a)) (fun p a => InvKeyable p (a_keyable a))
             (fun p a => InvChannelBox p (a_cb a))
             (set_lock true) (set_keyable_flag false) (set_cb true)
             i w s h0 lw0 a (fun _ => eq_refl) (fun _ => eq_refl) Hn E). }
  exists h', lw'. split; [exact R|]. split; [exact A|]. split; [exact C|].
  split; [exact S'|].
  intros i it w Hn Hs Hw.
  destruct (Halive _ _ Hn Hs) as (w0 & a & Hw0 & E). rewrite Hw in Hw0.
  injection Hw0 as <-.
  pose proof (selected_row_flagged as_displayable h h' lw i it w a
                (fun _ => eq_refl) A Hn Hs Hw E) as E'.
  rewrite is_locked_run, is_keyable_run, is_hidden_run, E'. simpl.
  repeat split. eexists. split; [reflexivity|]. simpl. unfold classify. simpl.
  destruct (Attribute.is_seperator w); reflexivity.
Qed.

(** X11.  [set_hidden], every selected row having a widget for an
    attribute on the host: the selected attributes end up not keyable, locked
    and out of the channel box, so [is_hidden] holds and they are shown in
    the hidden class (or as separators); every other attribute, the order of
    the attributes and the connections are as before. *)
Theorem set_hidden_sets (h : host) (lw : list AttributeMaster.item) :
  selection_alive h lw ->
  exists h' lw',
    AttributeMaster.set_hidden (h, lw) = ((h', lw'), Ok tt)
    /\ attrs h' = flagged as_hidden (selected_plugs lw) (attrs h)
    /\ conns h' = conns h
    /\ map row_sig lw' = map row_sig lw
    /\ forall i it w,
         nth_error lw i = Some it -> AttributeMaster.selected it = true ->
         AttributeMaster.widget it = Some w ->
         Attribute.is_locked w h' = (h', Ok true)
         /\ Attribute.is_keyable w h' = (h', Ok false)
         /\ Attribute.is_hidden w h' = (h', Ok true)
         /\ exists a', lookup (Attribute.path w) (attrs h') = Some a'
                       /\ classify (Attribute.is_seperator w) (a_lock a')
                                   (a_keyable a') (a_cb a')
                          = if Attribute.is_seperator w then Separator else Hidden.
Proof.
  intros Halive. unfold AttributeMaster.set_hidden.
  destruct (flag_op_run
              (fun i =>
                 w <- AttributeMaster.itemWidget i ;;
                 liftH (cmds.setAttr_keyable (Attribute.path w) false) ;;
                 liftH (cmds.setAttr_lock (Attribute.path w) true) ;;
                 liftH (cmds.setAttr_channelBox (Attribute.path w) false) ;;
                 AttributeMaster.refresh_row i w)
              as_hidden h lw) as (h' & lw' & R & A & C & S');
    try reflexivity; try assumption.
  { intros i w s h0 lw0 a Hn E.
    exact (three_flags_row
             (fun p => SetAttrKeyable p false) (fun p => SetAttrLock p true)
             (fun p => SetAttrChannelBox p false)
             (fun p a => InvKeyable p (a_keyable a)) (fun p a => InvLock p (a_lock a))
             (fun p a => InvChannelBox p (a_cb a))
             (set_keyable_flag false) (set_lock true) (set_cb false)
             i w s h0 lw0 a (fun _ => eq_refl) (fun _ => eq_refl) Hn E). }
  exists h', lw'. split; [exact R|]. split; [exact A|]. split; [exact C|].
  split; [exact S'|].
  intros i it w Hn Hs Hw.
  destruct (Halive _ _ Hn Hs) as (w0 & a & Hw0 & E). rewrite Hw in Hw0.
  injection Hw0 as <-.
  pose proof (selected_row_flagged as_hidden h h' lw i it w a
                (fun _ => eq_refl) A Hn Hs Hw E) as E'.
  rewrite is_locked_run, is_keyable_run, is_hidden_run, E'. simpl.
  repeat split. eexists. split; [reflexivity|]. simpl. unfold classify. simpl.
  destruct (Attribute.is_seperator w); reflexivity.
Qed.

(** ** [rename] of the nice name *)

(** X13.  A nice name that is the name of an attribute of the node stops
    [rename] at its first test: nothing is written, and a long name asked
    for in the same call is not applied either. *)
Theorem rename_nice_collision
        (h : host) (self : Attribute.t) (nice : string) (b : attr)
        (longName' : option string) :
  lookup (Attribute.node self, nice) (attrs h) = Some b ->
  Attribute.rename (Some nice) longName' (h, self) = ((h, self), Ok tt).
Proof.
  intros E.
  unfold Attribute.rename, Attribute.self, bind, gets, liftH,
    cmds.attributeQuery_exists.
  simpl. rewrite E. reflexivity.
Qed.

Lemma tmp_name_fresh s : ("TMP_" ++ s)%string <> s.
Proof.
  intros H. apply (f_equal String.length) in H. simpl in H. lia.
Qed.

Lemma lookup_renamed_away nd old new l :
  new <> old -> lookup (nd, old) (update (nd, old) (set_long new) l) = None.
Proof.
  intros Hne. apply lookup_None. intros Hin. apply in_map_iff in Hin.
  destruct Hin as (x & Hk & Hx). unfold update in Hx. apply in_map_iff in Hx.
  destruct Hx as (y & <- & _).
  destruct (plug_eqb_spec (key y) (nd, old)) as [E|E].
  - unfold key in Hk. simpl in Hk. congruence.
  - contradiction.
Qed.

Lemma rename_back nd old new l :
  lookup (nd, new) l = None ->
  update (nd, new) (set_long old) (update (nd, old) (set_long new) l) = l.
Proof.
  intros N. induction l as [|x l IH]; simpl in *; [reflexivity|].
  destruct (plug_eqb_spec (key x) (nd, new)) as [E|E]; [discriminate|].
  rewrite (IH N). f_equal.
  destruct (plug_eqb_spec (key x) (nd, old)) as [E'|E'].
  - unfold key in E'. injection E' as En El. unfold key. simpl.
    rewrite En, plug_eqb_refl. destruct x; simpl in *. subst. reflexivity.
  - destruct (plug_eqb_spec (key x) (nd, new)); [contradiction | reflexivity].
Qed.

Lemma renameAttr_taken nd old new h a b :
  lookup (nd, old) (attrs h) = Some a -> a_lock a = false ->
  lookup (nd, new) (attrs h) = Some b ->
  cmds.renameAttr (nd, old) new h
  = (log (RenameAttr (nd, old) new) h, Raise (RuntimeError "name already in use")).
Proof.
  intros E L T. unfold cmds.renameAttr. simpl. rewrite E, L, T. reflexivity.
Qed.

Lemma set_lock_same a : set_lock (a_lock a) a = a.
Proof. destruct a; reflexivity. Qed.

(** The first steps of the nice-name block: the nice name is written, the
    attribute unlocked if it was locked. *)
Lemma rename_nice_prepare h self a nice (k : bool -> M (host * Attribute.t) unit) :
  lookup (Attribute.path self) (attrs h) = Some a ->
  exists h2 G,
    (liftH (cmds.addAttr_edit_nn (Attribute.path self) nice) ;;
     was_locked <- liftH (Attribute.is_locked self) ;;
     Attribute.unlock_if was_locked ;; k was_locked) (h, self)
    = k (a_lock a) (h2, self)
    /\ attrs h2 = update (Attribute.path self) G (attrs h)
    /\ (forall x, key (G x) = key x)
    /\ G a = set_lock false (set_nice nice a).
Proof.
  intros E. set (p := Attribute.path self) in *.
  destruct (setAttr_attrs (AddAttrNice p nice) (fun x => InvNice p (a_nice x))
              (set_nice nice) p h a E) as (h1 & R1 & A1).
  assert (E1 : lookup p (attrs h1) = Some (set_nice nice a)).
  { rewrite A1, lookup_update by reflexivity. rewrite plug_eqb_refl, E. reflexivity. }
  assert (L1 : Attribute.is_locked self h1 = (h1, Ok (a_lock a))).
  { rewrite is_locked_run. fold p. rewrite E1. reflexivity. }
  unfold cmds.addAttr_edit_nn.
  rewrite (bind_Ok _ _ (h, self) (h1, self) tt) by (apply liftH_run, R1).
  rewrite (bind_Ok _ _ (h1, self) (h1, self) (a_lock a)) by (apply liftH_run, L1).
  destruct (a_lock a) eqn:L.
  - destruct (setAttr_attrs (SetAttrLock p false) (fun x => InvLock p (a_lock x))
                (set_lock false) p h1 _ E1) as (h2 & R2 & A2).
    exists h2, (fun x => set_lock false (set_nice nice x)). split; [|split; [|split]].
    + apply (bind_Ok (Attribute.unlock_if true) (fun _ => k true)
                     (h1, self) (h2, self) tt).
      unfold Attribute.unlock_if, Attribute.self.
      rewrite (bind_Ok _ _ (h1, self) (h1, self) self) by reflexivity.
      apply liftH_run. exact R2.
    + rewrite A2, A1. apply update_update. reflexivity.
    + reflexivity.
    + reflexivity.
  - exists h1, (set_nice nice). split; [reflexivity|]. split; [exact A1|].
    split; [reflexivity|].
    rewrite <- (set_lock_same (set_nice nice a)) at 1. simpl. rewrite L. reflexivity.
Qed.

(** X12.  [rename(niceName=N)] for an attribute on the host, when no
    attribute of the node is named [N] or ["TMP_"] plus the long name:
    the host has the new nice name, the attribute keeps its long name, its
    lock and every other field, all other attributes and the order are as
    before, and the widget shows [N]. *)
Theorem rename_nice_name
        (h : host) (self : Attribute.t) (a : attr) (nice : string) :
  lookup (Attribute.path self) (attrs h) = Some a ->
  lookup (Attribute.node self, nice) (attrs h) = None ->
  lookup (Attribute.node self, ("TMP_" ++ Attribute.longName self)%string) (attrs h) = None ->
  exists h',
    Attribute.rename (Some nice) None (h, self)
    = ((h', Attribute.set_niceName nice self), Ok tt)
    /\ lookup (Attribute.path self) (attrs h') = Some (set_nice nice a)
    /\ (forall q, q <> Attribute.path self ->
                  lookup q (attrs h') = lookup q (attrs h))
    /\ map key (attrs h') = map key (attrs h).
Proof.
  intros E N T.
  set (nd := Attribute.node self) in *. set (long := Attribute.longName self) in *.
  set (tmp := ("TMP_" ++ long)%string) in *.
  assert (Hp : Attribute.path self = (nd, long)) by reflexivity.
  unfold Attribute.rename.
  rewrite (bind_Ok _ _ (h, self) (h, self) self) by reflexivity.
  rewrite (bind_Ok _ _ (h, self) (h, self) false)
    by (apply liftH_run; unfold cmds.attributeQuery_exists, gets; fold nd;
        rewrite N; reflexivity).
  cbv iota.
  match goal with
  | |- context [bind (liftH (cmds.addAttr_edit_nn _ _))
                     (fun _ => bind _ (fun was_locked => bind _ (fun _ => @?k was_locked)))] =>
      destruct (rename_nice_prepare h self a nice k E) as (h2 & G & R2 & A2 & Gk & Ga)
  end.
  cbv beta in R2. rewrite R2. clear R2.
  rewrite Hp in *.
  (* the rename away and back *)
  assert (E2 : lookup (nd, long) (attrs h2) = Some (set_lock false (set_nice nice a))).
  { rewrite A2, lookup_update by exact Gk. rewrite plug_eqb_refl, E. simpl. congruence. }
  assert (T2 : lookup (nd, tmp) (attrs h2) = None).
  { rewrite A2, lookup_update by exact Gk. rewrite T. destruct (plug_eqb _ _); reflexivity. }
  destruct (renameAttr_run nd long tmp h2 _ E2 eq_refl T2) as (h3 & R3 & A3).
  assert (E3 : lookup (nd, tmp) (attrs h3)
               = Some (set_long tmp (set_lock false (set_nice nice a))))
    by (rewrite A3; apply lookup_rename; assumption).
  assert (N3 : lookup (nd, long) (attrs h3) = None)
    by (rewrite A3; apply lookup_renamed_away, tmp_name_fresh).
  destruct (renameAttr_run nd tmp long h3 _ E3 eq_refl N3) as (h4 & R4 & A4).
  rewrite A3, rename_back in A4 by exact T2.
  rewrite (bind_Ok _ _ (h2, self) (h3, self) tt) by (apply liftH_run, R3).
  rewrite (bind_Ok _ _ (h3, self) (h4, self) tt) by (apply liftH_run, R4).
  assert (E4 : lookup (nd, long) (attrs h4) = Some (set_lock false (set_nice nice a)))
    by (rewrite A4; exact E2).
  destruct (a_lock a) eqn:L.
  - (* it was locked: lock it again *)
    destruct (setAttr_attrs (SetAttrLock (nd, long) true)
                (fun x => InvLock (nd, long) (a_lock x))
                (set_lock true) (nd, long) h4 _ E4) as (h5 & R5 & A5).
    exists h5. split; [|split; [|split]].
    + rewrite (bind_Ok _ _ (h4, self) (h5, self) tt).
      2:{ unfold Attribute.relock_if, Attribute.self.
          rewrite (bind_Ok _ _ (h4, self) (h4, self) self) by reflexivity.
          apply liftH_run. exact R5. }
      reflexivity.
    + rewrite A5, lookup_update by reflexivity. rewrite plug_eqb_refl, E4. simpl.
      f_equal. rewrite <- (set_lock_same (set_nice nice a)) at 2. simpl.
      rewrite L. reflexivity.
    + intros q Hq. rewrite A5, A4, A2, !lookup_update by (reflexivity || exact Gk).
      destruct (plug_eqb_spec q (nd, long)); [contradiction | reflexivity].
    + rewrite A5, A4, A2, !key_update by (reflexivity || exact Gk). reflexivity.
  - exists h4. split; [|split; [|split]].
    + reflexivity.
    + rewrite E4. f_equal. rewrite <- (set_lock_same (set_nice nice a)) at 2. simpl.
      rewrite L. reflexivity.
    + intros q Hq. rewrite A4, A2, lookup_update by exact Gk.
      destruct (plug_eqb_spec q (nd, long)); [contradiction | reflexivity].
    + rewrite A4, A2, key_update by exact Gk. reflexivity.
Qed.

(** X14.  [rename(niceName=N)] when the node already has an attribute
    named ["TMP_"] plus the long name: the first [renameAttr] raises after the
    nice name was written and the attribute unlocked; the lock is not put
    back, and the widget still shows the old nice name. *)
Theorem rename_nice_tmp_taken
        (h : host) (self : Attribute.t) (a b : attr) (nice : string)
        (longName' : option string) :
  lookup (Attribute.path self) (attrs h) = Some a ->
  lookup (Attribute.node self, nice) (attrs h) = None ->
  lookup (Attribute.node self, ("TMP_" ++ Attribute.longName self)%string) (attrs h)
  = Some b ->
  exists h',
    Attribute.rename (Some nice) longName' (h, self)
    = ((h', self), Raise (RuntimeError "name already in use"))
    /\ lookup (Attribute.path self) (attrs h')
       = Some (set_lock false (set_nice nice a))
    /\ Attribute.is_locked self h' = (h', Ok false).
Proof.
  intros E N T.
  set (nd := Attribute.node self) in *. set (long := Attribute.longName self) in *.
  set (tmp := ("TMP_" ++ long)%string) in *.
  assert (Hp : Attribute.path self = (nd, long)) by reflexivity.
  unfold Attribute.rename.
  rewrite (bind_Ok _ _ (h, self) (h, self) self) by reflexivity.
  rewrite (bind_Ok _ _ (h, self) (h, self) false)
    by (apply liftH_run; unfold cmds.attributeQuery_exists, gets; fold nd;
        rewrite N; reflexivity).
  cbv iota.
  match goal with
  | |- context [bind (liftH (cmds.addAttr_edit_nn _ _))
                     (fun _ => bind _ (fun was_locked => bind _ (fun _ => @?k was_locked)))] =>
      destruct (rename_nice_prepare h self a nice k E) as (h2 & G & R2 & A2 & Gk & Ga)
  end.
  cbv beta in R2. rewrite R2. clear R2.
  rewrite Hp in *.
  assert (E2 : lookup (nd, long) (attrs h2) = Some (set_lock false (set_nice nice a))).
  { rewrite A2, lookup_update by exact Gk. rewrite plug_eqb_refl, E. simpl. congruence. }
  assert (T2 : exists b2, lookup (nd, tmp) (attrs h2) = Some b2).
  { rewrite A2, lookup_update by exact Gk. rewrite T.
    destruct (plug_eqb _ _); simpl; eauto. }
  destruct T2 as [b2 T2].
  exists (log (RenameAttr (nd, long) tmp) h2). split; [|split].
  - apply bind_Raise. apply liftH_run.
    apply (renameAttr_taken nd long tmp h2 _ b2 E2 eq_refl T2).
  - exact E2.
  - rewrite is_locked_run, Hp. simpl. rewrite E2. reflexivity.
Qed.

(** ** What an undo gives back *)

Lemma same_scene_refl h : same_scene h h.
Proof. split; apply Permutation_refl. Qed.

Lemma same_scene_trans h1 h2 h3 :
  same_scene h1 h2 -> same_scene h2 h3 -> same_scene h1 h3.
Proof. intros [A B] [C D]. split; eapply Permutation_trans; eassumption. Qed.

Lemma same_scene_sym h1 h2 : same_scene h1 h2 -> same_scene h2 h1.
Proof. intros [A B]. split; apply Permutation_sym; assumption. Qed.

Lemma lookup_perm_None p l l' :
  Permutation l l' -> lookup p l = None -> lookup p l' = None.
Proof.
  intros P N. apply lookup_None. apply lookup_None in N. intros Hin. apply N.
  eapply Permutation_in; [|exact Hin]. apply Permutation_map, Permutation_sym, P.
Qed.

Lemma existsb_perm {A} (f : A -> bool) l l' :
  Permutation l l' -> existsb f l = existsb f l'.
Proof.
  intros P. destruct (existsb f l) eqn:E, (existsb f l') eqn:E'; try reflexivity.
  - apply existsb_exists in E. destruct E as (x & Hx & Fx).
    assert (existsb f l' = true)
      by (apply existsb_exists; exists x; split; [eapply Permutation_in; eassumption | exact Fx]).
    congruence.
  - apply existsb_exists in E'. destruct E' as (x & Hx & Fx).
    assert (existsb f l = true)
      by (apply existsb_exists; exists x; split;
          [eapply Permutation_in; [apply Permutation_sym|]; eassumption | exact Fx]).
    congruence.
Qed.

(** Replaying an entry of a [delete] on two scenes that are the same gives
    scenes that are the same. *)
Lemma apply_inverse_respects i h h' :
  replayable i -> same_scene h h' ->
  same_scene (apply_inverse i h) (apply_inverse i h').
Proof.
  intros Hr [Pa Pc]. destruct i; simpl in Hr; try contradiction; simpl.
  - split; [apply Permutation_map; exact Pa | exact Pc].
  - rewrite (existsb_perm _ _ _ Pc).
    destruct (existsb _ (conns h')); split; simpl; try assumption.
    apply Permutation_app_tail. exact Pc.
  - destruct (lookup (key a) (attrs h)) eqn:E, (lookup (key a) (attrs h')) eqn:E';
      split; simpl; try assumption.
    + apply (lookup_perm_None _ _ _ (Permutation_sym Pa)) in E'. congruence.
    + apply (lookup_perm_None _ _ _ Pa) in E. congruence.
    + apply Permutation_app_tail. exact Pa.
Qed.

Lemma apply_chunk_respects c : forall h h',
  Forall replayable c -> same_scene h h' ->
  same_scene (apply_chunk c h) (apply_chunk c h').
Proof.
  unfold apply_chunk. induction c as [|i c IH]; intros h h' F S; simpl; [exact S|].
  inversion F; subst. apply IH; [assumption|]. apply apply_inverse_respects; assumption.
Qed.

Lemma replay_respects cs : forall h h',
  Forall (Forall replayable) cs -> same_scene h h' ->
  same_scene (replay cs h) (replay cs h').
Proof.
  unfold replay. induction cs as [|c cs IH]; intros h h' F S; simpl; [exact S|].
  inversion F; subst. apply IH; [assumption|]. apply apply_chunk_respects; assumption.
Qed.

(** With unique plugs, putting the old lock back undoes a lock write. *)
Lemma update_lock_restore p v l a :
  NoDup (map key l) -> lookup p l = Some a ->
  update p (set_lock (a_lock a)) (update p (set_lock v) l) = l.
Proof.
  intros Hn E. rewrite update_update by reflexivity.
  unfold update. rewrite <- (map_id l) at 2. apply map_ext_in. intros x Hx.
  destruct (plug_eqb_spec (key x) p) as [Ek|]; [|reflexivity].
  assert (x = a).
  { pose proof (lookup_unique l x Hn Hx) as Ux. rewrite Ek, E in Ux. congruence. }
  subst x. destruct a; reflexivity.
Qed.

Lemma filter_id {A} (f : A -> bool) l :
  (forall x, In x l -> f x = true) -> filter f l = l.
Proof.
  induction l as [|x l IH]; simpl; intros H; [reflexivity|].
  rewrite (H x) by (left; reflexivity). f_equal. apply IH.
  intros y Hy. apply H. right. exact Hy.
Qed.

Lemma filter_perm_absent {A} (f : A -> bool) (x : A) l :
  NoDup l -> In x l -> (forall y, f y = false <-> y = x) ->
  Permutation (filter f l ++ [x]) l.
Proof.
  intros Hn Hin Hf. induction l as [|y l IH]; [contradiction|].
  inversion Hn as [|? ? Hy Hn']; subst. simpl.
  destruct (f y) eqn:Fy.
  - destruct Hin as [->|Hin].
    + assert (f x = false) by (apply Hf; reflexivity). congruence.
    + simpl. constructor. apply IH; assumption.
  - apply Hf in Fy. subst y.
    rewrite filter_id.
    + apply Permutation_sym, Permutation_cons_append.
    + intros z Hz. destruct (f z) eqn:Fz; [reflexivity|].
      apply Hf in Fz. subst z. contradiction.
Qed.

Lemma remove_attr_perm p l a :
  NoDup (map key l) -> lookup p l = Some a ->
  Permutation (remove_attr p l ++ [a]) l.
Proof.
  intros Hn E. induction l as [|x l IH]; simpl in *; [discriminate|].
  inversion Hn as [|? ? Hx Hn']; subst.
  destruct (plug_eqb_spec (key x) p) as [Ek|Ek]; simpl.
  - injection E as ->. fold (remove_attr p l). unfold remove_attr.
    rewrite filter_id.
    + apply Permutation_sym, Permutation_cons_append.
    + intros z Hz. destruct (plug_eqb_spec (key z) p) as [Ez|]; [|reflexivity].
      exfalso. apply Hx. rewrite Ek, <- Ez. apply in_map. exact Hz.
  - constructor. apply IH; assumption.
Qed.

Lemma undoable_step h0 len q h h' i :
  undoable_from h0 len q h ->
  chunk h' = i :: chunk h -> replayable i ->
  undo_view h' = undo_view h ->
  NoDup (keys h') -> NoDup (conns h') ->
  same_scene (apply_inverse i h') h ->
  undoable_from h0 len q h'.
Proof.
  intros (V & F & Nk & Nc & S) Hc Hr Hv Nk' Nc' Hs.
  split; [congruence|]. split; [rewrite Hc; constructor; assumption|].
  split; [assumption|]. split; [assumption|].
  rewrite Hc. unfold apply_chunk. simpl. fold (apply_chunk (chunk h) (apply_inverse i h')).
  eapply same_scene_trans; [|exact S].
  apply apply_chunk_respects; assumption.
Qed.

Lemma setAttr_lock_undoable h0 len q p v h h' :
  cmds.setAttr_lock p v h = (h', Ok tt) ->
  undoable_from h0 len q h -> undoable_from h0 len q h'.
Proof.
  intros R U. pose proof U as (V & _ & Nk & Nc & _).
  destruct (undo_view_state _ _ _ _ V) as (Hs & _ & _ & _ & Hd).
  unfold cmds.setAttr_lock, cmds.setAttr in R. simpl in R.
  destruct (lookup p (attrs h)) as [a|] eqn:E; [|discriminate].
  rewrite (record_in_chunk _ (log (SetAttrLock p v) h) 0 Hs Hd) in R.
  injection R as <-.
  apply (undoable_step h0 len q h _ (InvLock p (a_lock a)) U);
    [reflexivity | exact I | | | |].
  - unfold undo_view. simpl. rewrite Hd. reflexivity.
  - unfold keys. simpl. rewrite key_update by reflexivity. exact Nk.
  - exact Nc.
  - split; simpl; [|apply Permutation_refl].
    rewrite update_lock_restore by assumption. apply Permutation_refl.
Qed.

Lemma disconnectAttr_undoable h0 len q s d h h' :
  cmds.disconnectAttr s d h = (h', Ok tt) ->
  undoable_from h0 len q h -> undoable_from h0 len q h'.
Proof.
  intros R U. pose proof U as (V & _ & Nk & Nc & _).
  destruct (undo_view_state _ _ _ _ V) as (Hs & _ & _ & _ & Hd).
  unfold cmds.disconnectAttr in R. simpl in R.
  destruct (existsb (conn_eqb (s, d)) (conns h)) eqn:Ex; [|discriminate].
  destruct (lookup d (attrs h)) as [a|] eqn:E; [|discriminate].
  destruct (a_lock a); [discriminate|].
  rewrite (record_in_chunk _ (log (DisconnectAttr s d) h) 0 Hs Hd) in R.
  injection R as <-.
  assert (Hin : In (s, d) (conns h)).
  { apply existsb_exists in Ex. destruct Ex as (c & Hc & Ec).
    destruct (conn_eqb_spec (s, d) c); [subst; assumption | discriminate]. }
  apply (undoable_step h0 len q h _ (InvConnect s d) U);
    [reflexivity | exact I | | | |].
  - unfold undo_view. simpl. rewrite Hd. reflexivity.
  - exact Nk.
  - simpl. apply NoDup_filter. exact Nc.
  - simpl.
    assert (Hno : existsb (conn_eqb (s, d))
                          (filter (fun c => negb (conn_eqb (s, d) c)) (conns h)) = false).
    { destruct (existsb _ (filter _ _)) eqn:Ex'; [|reflexivity].
      apply existsb_exists in Ex'. destruct Ex' as (c & Hc & Ec).
      apply filter_In in Hc. destruct Hc as [_ Hc]. rewrite Ec in Hc. discriminate. }
    rewrite Hno. split; simpl; [apply Permutation_refl|].
    apply filter_perm_absent; [assumption | assumption |].
    intros y. destruct (conn_eqb_spec (s, d) y); simpl; split; congruence.
Qed.

Lemma disconnect_loop_undoable h0 len q (A B : plug -> plug) cs : forall h h',
  for_ cs (fun c => cmds.setAttr_lock c false ;; cmds.disconnectAttr (A c) (B c)) h
  = (h', Ok tt) ->
  undoable_from h0 len q h -> undoable_from h0 len q h'.
Proof.
  induction cs as [|c cs IH]; intros h h' R U; simpl in R.
  - injection R as <-. exact U.
  - apply bind_inv in R. destruct R as (h2 & [] & R12 & R).
    apply bind_inv in R12. destruct R12 as (h1 & [] & R1 & R2).
    eapply IH; [exact R|].
    eapply disconnectAttr_undoable; [exact R2|].
    eapply setAttr_lock_undoable; eassumption.
Qed.

Lemma replay_connects gone : forall h,
  NoDup gone -> (forall c, In c gone -> ~ In c (conns h)) ->
  attrs (apply_chunk (map (fun c => InvConnect (fst c) (snd c)) gone) h) = attrs h
  /\ conns (apply_chunk (map (fun c => InvConnect (fst c) (snd c)) gone) h)
     = conns h ++ gone.
Proof.
  unfold apply_chunk. induction gone as [|c gone IH]; intros h Hn Hout; simpl.
  - rewrite app_nil_r. auto.
  - inversion Hn as [|? ? Hc Hn']; subst. destruct c as [s d]. simpl.
    assert (Hno : existsb (conn_eqb (s, d)) (conns h) = false).
    { destruct (existsb _ (conns h)) eqn:Ex; [|reflexivity].
      apply existsb_exists in Ex. destruct Ex as (y & Hy & Ey).
      destruct (conn_eqb_spec (s, d) y) as [<-|]; [|discriminate].
      exfalso. eapply Hout; [left; reflexivity | exact Hy]. }
    rewrite Hno. set (c := (s, d)) in *.
    destruct (IH (with_conns (conns h ++ [c]) h) Hn') as [Ha Hc'].
    + intros y Hy Hin. simpl in Hin. apply in_app_or in Hin.
      destruct Hin as [Hin | [<- | []]].
      * eapply Hout; [right; exact Hy | exact Hin].
      * contradiction.
    + rewrite Ha, Hc'. simpl. rewrite <- app_assoc. auto.
Qed.

Lemma filter_split_perm {A} (f : A -> bool) l :
  Permutation (filter (fun x => negb (f x)) l ++ filter f l) l.
Proof.
  induction l as [|x l IH]; simpl; [constructor|].
  destruct (f x); simpl.
  - apply Permutation_sym. eapply Permutation_trans.
    + apply perm_skip, Permutation_sym, IH.
    + apply Permutation_middle.
  - constructor. exact IH.
Qed.

Lemma lookup_remove_same p l : lookup p (remove_attr p l) = None.
Proof.
  apply lookup_None. intros Hin. apply in_map_iff in Hin.
  destruct Hin as (x & Hk & Hx). apply filter_In in Hx. destruct Hx as [_ Hx].
  rewrite Hk, plug_eqb_refl in Hx. discriminate.
Qed.

Lemma apply_chunk_app c1 c2 h :
  apply_chunk (c1 ++ c2) h = apply_chunk c2 (apply_chunk c1 h).
Proof. unfold apply_chunk. apply fold_left_app. Qed.

Lemma apply_chunk_cons i c h :
  apply_chunk (i :: c) h = apply_chunk c (apply_inverse i h).
Proof. reflexivity. Qed.

Lemma deleteAttr_undoable h0 len q p h h' :
  cmds.deleteAttr p h = (h', Ok tt) ->
  undoable_from h0 len q h ->
  undo_view h' = (true, true, len, q, 1)
  /\ Forall replayable (chunk h')
  /\ chunk h' <> []
  /\ same_scene (apply_chunk (chunk h') h') h0.
Proof.
  intros R (V & F & Nk & Nc & S).
  destruct (undo_view_state _ _ _ _ V) as (Hs & _ & _ & _ & Hd).
  unfold cmds.deleteAttr in R. simpl in R.
  destruct (lookup p (attrs h)) as [a|] eqn:E; [|discriminate].
  destruct (a_lock a); [discriminate|].
  destruct (a_user a); simpl in R; [|discriminate].
  set (gone := filter (touches p) (conns h)) in *.
  set (pre := map (fun c => InvConnect (fst c) (snd c)) gone).
  set (hr := record (InvCreate a) (log (DeleteAttr p) h)) in *.
  assert (Hr : hr = with_chunk 1 (InvCreate a :: chunk h) (log (DeleteAttr p) h))
    by exact (record_in_chunk _ (log (DeleteAttr p) h) 0 Hs Hd).
  destruct (record_connects gone hr 0) as [V1 K1];
    [rewrite Hr; assumption | rewrite Hr; reflexivity |].
  injection R as <-.
  assert (Hch : chunk (with_conns (filter (fun c => negb (touches p c)) (conns h))
                         (with_attrs (remove_attr p (attrs h))
                            (fold_right (fun c h' => record (InvConnect (fst c) (snd c)) h')
                                        hr gone)))
                = pre ++ InvCreate a :: chunk h).
  { simpl. rewrite K1, Hr. reflexivity. }
  split; [|split; [|split]].
  - change (undo_view (fold_right (fun c h' => record (InvConnect (fst c) (snd c)) h')
                                  hr gone) = (true, true, len, q, 1)).
    rewrite V1, Hr. unfold undo_view in *. simpl.
    injection V as -> -> -> -> _. reflexivity.
  - rewrite Hch. apply Forall_app. split.
    + apply Forall_forall. intros i Hi. apply in_map_iff in Hi.
      destruct Hi as (c & <- & _). exact I.
    + constructor; [exact I | exact F].
  - rewrite Hch. destruct pre; discriminate.
  - rewrite Hch, apply_chunk_app, apply_chunk_cons.
    match goal with
    | |- same_scene (apply_chunk _ (apply_inverse _ (apply_chunk pre ?hd))) _ =>
        set (h4 := hd)
    end.
    eapply same_scene_trans; [|exact S].
    apply apply_chunk_respects; [exact F|].
    destruct (replay_connects gone h4) as [Ha Hc].
    { apply NoDup_filter. exact Nc. }
    { intros c Hc Hin. simpl in Hin. apply filter_In in Hc, Hin.
      destruct Hc as [_ Hc], Hin as [_ Hin]. rewrite Hc in Hin. discriminate. }
    fold pre in Ha, Hc.
    assert (Ka : key a = p) by (eapply lookup_key; eassumption).
    split.
    + simpl. rewrite Ha. simpl. rewrite Ka, lookup_remove_same. simpl.
      apply remove_attr_perm; assumption.
    + simpl. rewrite Ha. simpl. rewrite Ka, lookup_remove_same. simpl. rewrite Hc. simpl.
      apply filter_split_perm.
Qed.

(** The chunk a successful [delete] leaves on the queue leads back, when
    replayed, to the scene the [delete] started from. *)
Lemma delete_roundtrip self h h' :
  Attribute.delete self h = (h', Ok tt) ->
  idle h -> undo_state h = true -> undo_infinity h = true ->
  NoDup (keys h) -> NoDup (conns h) ->
  exists c,
    queue h' = c :: queue h
    /\ Forall replayable c
    /\ same_scene (apply_chunk c h') h.
Proof.
  unfold Attribute.delete. intros R [Hd Hc] Hs Hi Nk Nc.
  apply with_inv in R. destruct R as (h0 & h4 & R0 & Rb & R5).
  assert (U0 : undoable_from h (undo_length h) (queue h) h0).
  { unfold UndoChunkContext.enter, cmds.undoInfo_openChunk in R0.
    injection R0 as <-. simpl. rewrite Hd, Hc.
    split; [unfold undo_view; simpl; rewrite Hs, Hi; reflexivity|].
    split; [constructor|]. split; [exact Nk|]. split; [exact Nc|].
    split; simpl; apply Permutation_refl. }
  apply bind_inv in Rb. destruct Rb as (h1 & [] & R1 & Rb).
  apply bind_inv in Rb. destruct Rb as (h1' & incoming & Ri & Rb).
  injection Ri as <- <-.
  apply bind_inv in Rb. destruct Rb as (h2 & [] & R2 & Rb).
  apply bind_inv in Rb. destruct Rb as (h2' & outgoing & Ro & Rb).
  injection Ro as <- <-.
  apply bind_inv in Rb. destruct Rb as (h3 & [] & R3 & R4).
  pose proof (setAttr_lock_undoable _ _ _ _ _ _ _ R1 U0) as U1.
  pose proof (disconnect_loop_undoable _ _ _ (fun c => c)
                (fun _ => Attribute.path self) _ _ _ R2 U1) as U2.
  pose proof (disconnect_loop_undoable _ _ _ (fun _ => Attribute.path self)
                (fun c => c) _ _ _ R3 U2) as U3.
  destruct (deleteAttr_undoable _ _ _ _ _ _ R4 U3) as (V4 & F4 & N4 & S4).
  destruct (undo_view_state _ _ _ _ V4) as (Hs4 & Hi4 & _ & Hq4 & Hd4).
  destruct (chunk h4) as [|c0 c] eqn:Hch; [congruence|].
  destruct (closeChunk_outermost h4 c0 c Hd4 Hch Hi4)
    as (h5 & R5' & A5 & C5 & _ & Q5 & _).
  unfold UndoChunkContext.exit in R5. rewrite R5' in R5. injection R5 as <-.
  exists (c0 :: c). split; [congruence|]. split; [exact F4|].
  eapply same_scene_trans; [|exact S4].
  apply apply_chunk_respects; [exact F4|].
  split; [rewrite A5 | rewrite C5]; apply Permutation_refl.
Qed.

Lemma replay_app cs c h : replay (cs ++ [c]) h = apply_chunk c (replay cs h).
Proof. unfold replay. rewrite fold_left_app. reflexivity. Qed.

Lemma deletes_roundtrip (lw : list AttributeMaster.item) ws : forall h,
  wf h -> idle h -> undo_state h = true -> undo_infinity h = true ->
  NoDup (map Attribute.path ws) ->
  (forall w, In w ws -> In (Attribute.path w, true) (idents h)) ->
  exists h' cs,
    for_ ws (fun attribute => liftH (Attribute.delete attribute)) (h, lw)
    = ((h', lw), Ok tt)
    /\ undo_state h' = true
    /\ queue h' = cs ++ queue h
    /\ List.length cs = List.length ws
    /\ Forall (Forall replayable) cs
    /\ (forall u, same_scene u h' -> same_scene (replay cs u) h).
Proof.
  induction ws as [|w ws IH]; intros h W Idle Hs Hi Hn Hin.
  - exists h, []. split; [reflexivity|]. split; [exact Hs|].
    split; [reflexivity|]. split; [reflexivity|]. split; [constructor|].
    intros u Su. exact Su.
  - simpl in Hn. inversion Hn as [|? ? Hw Hn']; subst.
    destruct (lookup_ident h (Attribute.path w) true) as (a & E & U);
      [destruct W; assumption | apply Hin; left; reflexivity |].
    destruct (delete_ok w h a W Idle Hs Hi E U)
      as (h1 & c & R1 & W1 & Idle1 & S1 & I1 & Q1 & C1).
    destruct (delete_roundtrip w h h1 R1 Idle Hs Hi) as (c' & Q1' & F1 & Sc);
      [destruct W; assumption | destruct W as (_ & N & _); exact N |].
    assert (Hs1 : undo_state h1 = true /\ undo_infinity h1 = true)
      by (unfold undo_settings in S1; split; congruence).
    destruct Hs1 as [Hs1 Hi1].
    destruct (IH h1 W1 Idle1 Hs1 Hi1 Hn') as (h' & cs & R & Hs' & Q' & L' & F' & Rep).
    { intros w' Hw'. rewrite I1. apply filter_In. split.
      - apply Hin. right. exact Hw'.
      - simpl. destruct (plug_eqb_spec (Attribute.path w') (Attribute.path w)) as [Eq|];
          [|reflexivity].
        exfalso. apply Hw. rewrite <- Eq. apply in_map. exact Hw'. }
    exists h', (cs ++ [c']). split; [|split; [|split; [|split; [|split]]]].
    + simpl. erewrite bind_Ok by (apply liftH_run, R1). exact R.
    + exact Hs'.
    + rewrite Q', Q1', <- app_assoc. reflexivity.
    + rewrite length_app, L'. simpl. lia.
    + apply Forall_app. split; [exact F' | repeat constructor; exact F1].
    + intros u Su. rewrite replay_app.
      eapply same_scene_trans; [|exact Sc].
      apply apply_chunk_respects; [exact F1|]. apply Rep. exact Su.
Qed.

Lemma undos_scene (lw : list AttributeMaster.item) q cs : forall h,
  Forall (Forall replayable) cs ->
  undo_state h = true -> queue h = cs ++ q ->
  exists h',
    AttributeMaster.repeat_ (List.length cs) (liftH cmds.undo) (h, lw)
    = ((h', lw), Ok tt)
    /\ same_scene h' (replay cs h)
    /\ queue h' = q.
Proof.
  induction cs as [|c cs IH]; intros h F Hs Hq.
  - exists h. split; [reflexivity|]. split; [apply same_scene_refl | exact Hq].
  - inversion F as [|? ? Fc Fcs]; subst. simpl in Hq.
    set (h1 := apply_chunk c (with_queue (cs ++ q) (log Undo h))).
    assert (R1 : cmds.undo h = (h1, Ok tt)) by (apply undo_run; assumption).
    destruct (apply_chunk_frame c (with_queue (cs ++ q) (log Undo h))) as [S1 Q1].
    fold h1 in S1, Q1. simpl in Q1.
    destruct (IH h1 Fcs) as (h' & R & Sc & Q').
    + unfold undo_settings in S1. simpl in S1. congruence.
    + exact Q1.
    + exists h'. split; [|split; [|exact Q']].
      * simpl List.length. rewrite repeat_S.
        erewrite bind_Ok by (apply liftH_run, R1). exact R.
      * eapply same_scene_trans; [exact Sc|].
        change (replay (c :: cs) h) with (replay cs (apply_chunk c h)).
        apply replay_respects; [exact Fcs|].
        apply apply_chunk_respects; [exact Fc|].
        split; apply Permutation_refl.
Qed.

Lemma lookup_perm l l' q :
  Permutation l l' -> NoDup (map key l) -> lookup q l' = lookup q l.
Proof.
  intros P Hn.
  assert (Hn' : NoDup (map key l'))
    by (eapply Permutation_NoDup; [apply Permutation_map; exact P | exact Hn]).
  destruct (lookup q l) as [a|] eqn:E.
  - pose proof (lookup_key _ _ _ E) as K. apply lookup_In in E.
    rewrite <- K. apply lookup_unique; [exact Hn'|].
    eapply Permutation_in; eassumption.
  - eapply lookup_perm_None; eassumption.
Qed.

(** X5.  [reorder] loses nothing.  On a well-formed scene with no chunk
    open, the rows showing user attributes of the node, no two the same one:
    after the call the host has the attributes it had, each with its nice
    name, flags and type, a plug connected to a deleted attribute is locked
    again if it was, and the connections are those of before; the order
    alone has changed. *)
Theorem reorder_keeps_scene
        (h : host) (lw : list AttributeMaster.item) (nd : string) (ds : list string) :
  wf h -> idle h -> NoDup ds ->
  (forall d, In d ds -> In ((nd, d), true) (idents h)) ->
  rows_show nd ds lw ->
  exists h',
    AttributeMaster.reorder (h, lw) = ((h', lw), Ok tt)
    /\ Permutation (attrs h') (attrs h)
    /\ Permutation (conns h') (conns h)
    /\ forall q, lookup q (attrs h') = lookup q (attrs h).
Proof.
  intros W Idle Hn Hin Hrows.
  unfold AttributeMaster.reorder, with_UndoStateContext.
  rewrite (bind_Ok _ _ (h, lw) (h, lw)
             (UndoStateContext.mk (undo_state h) (undo_infinity h) (undo_length h)))
    by reflexivity.
  set (h1 := with_undo true true (undo_length h) (queue h)
               (log (UndoInfoSet true true None) h)).
  destruct (rows_show_ordered nd ds lw h1 Hrows) as (ws & Ro & Pws & Llw).
  assert (Prev : map Attribute.path (rev ws) = rev (map (pair nd) ds))
    by (rewrite map_rev, Pws; reflexivity).
  destruct (deletes_roundtrip lw (rev ws) h1) as (h2 & cs & R2 & Hs2 & Q2 & L2 & F2 & Rep);
    try reflexivity; try assumption.
  { rewrite Prev. apply NoDup_rev, NoDup_pair, Hn. }
  { intros w Hw. apply (in_map Attribute.path) in Hw. rewrite Prev in Hw.
    apply in_rev, in_map_iff in Hw. destruct Hw as (d & <- & Hd). apply Hin, Hd. }
  assert (Lcs : List.length cs = List.length lw).
  { rewrite L2, length_rev. apply (f_equal (@List.length _)) in Pws.
    rewrite !length_map in Pws. congruence. }
  destruct (undos_scene lw (queue h1) cs h2 F2 Hs2 Q2) as (h3 & R3 & S3 & Q3).
  rewrite Lcs in R3.
  set (h4 := with_undo (undo_state h) (undo_infinity h) (undo_length h)
               (if undo_state h
                then trim (undo_infinity h) (undo_length h)
                          (queue (log (UndoInfoSet (undo_state h) (undo_infinity h)
                                                   (Some (undo_length h))) h3))
                else [])
               (log (UndoInfoSet (undo_state h) (undo_infinity h)
                                 (Some (undo_length h))) h3)).
  assert (S4 : same_scene h3 h1).
  { eapply same_scene_trans; [exact S3|]. apply Rep, same_scene_refl. }
  destruct S4 as [Pa Pc].
  change (attrs h1) with (attrs h) in Pa. change (conns h1) with (conns h) in Pc.
  exists h4. split; [|split; [exact Pa | split; [exact Pc|]]].
  - apply (with_run _ _ _ (h, lw) (h1, lw) (h3, lw) (h4, lw)); [reflexivity | | reflexivity].
    unfold AttributeMaster.reorder_body.
    rewrite (bind_Ok _ _ _ _ _ Ro).
    rewrite (bind_Ok _ _ _ _ _ R2).
    rewrite (bind_Ok _ _ (h2, lw) (h2, lw) lw) by reflexivity.
    exact R3.
  - intros q. change (attrs h4) with (attrs h3).
    apply lookup_perm; [apply Permutation_sym; exact Pa | destruct W; assumption].
Qed.

(** X6.  [delete] of a user attribute on the host and then one undo, with
    undo on and the queue infinite: both succeed, the attribute is back with
    its flags, now last in the list, what [delete] had unlocked is locked
    again, the connections are those of before, and the queue is as it
    was. *)
Theorem delete_then_undo (h : host) (self : Attribute.t) (a : attr) :
  wf h -> idle h -> undo_state h = true -> undo_infinity h = true ->
  lookup (Attribute.path self) (attrs h) = Some a -> a_user a = true ->
  exists h1 h2,
    Attribute.delete self h = (h1, Ok tt)
    /\ lookup (Attribute.path self) (attrs h1) = None
    /\ cmds.undo h1 = (h2, Ok tt)
    /\ (forall q, lookup q (attrs h2) = lookup q (attrs h))
    /\ Permutation (conns h2) (conns h)
    /\ idents h2 = filter (fun i => negb (plug_eqb (fst i) (Attribute.path self)))
                          (idents h)
                   ++ [(Attribute.path self, true)]
    /\ queue h2 = queue h.
Proof.
  intros W Idle Hs Hi E U.
  destruct (delete_ok self h a W Idle Hs Hi E U)
    as (h1 & c & R1 & W1 & Idle1 & S1 & I1 & Q1 & C1).
  destruct (delete_roundtrip self h h1 R1 Idle Hs Hi) as (c' & Q1' & F1 & Sc);
    [destruct W; assumption | destruct W as (_ & N & _); exact N |].
  assert (c' = c) by congruence. subst c'.
  assert (Hs1 : undo_state h1 = true) by (unfold undo_settings in S1; congruence).
  assert (Hout : ~ In (Attribute.path self) (map fst (idents h1))).
  { rewrite I1. intros Hk. apply in_map_iff in Hk. destruct Hk as (i & Hi' & Hf).
    apply filter_In in Hf. destruct Hf as [_ Hf].
    rewrite Hi', plug_eqb_refl in Hf. discriminate. }
  set (h2 := apply_chunk c (with_queue (queue h) (log Undo h1))).
  assert (R2 : cmds.undo h1 = (h2, Ok tt)) by (apply undo_run; assumption).
  destruct (apply_chunk_frame c (with_queue (queue h) (log Undo h1))) as [_ Q2].
  fold h2 in Q2. simpl in Q2.
  assert (S2 : same_scene h2 h).
  { eapply same_scene_trans; [|exact Sc].
    apply apply_chunk_respects; [exact F1|]. split; apply Permutation_refl. }
  destruct S2 as [Pa Pc].
  exists h1, h2. split; [exact R1|]. split; [apply present_idents; exact Hout|].
  split; [exact R2|]. split; [|split; [exact Pc | split; [|exact Q2]]].
  - intros q. apply lookup_perm; [apply Permutation_sym; exact Pa | destruct W; assumption].
  - unfold h2. rewrite (apply_chunk_recreates (Attribute.path self));
      [rewrite <- I1; reflexivity | exact C1 | exact Hout].
Qed.

(** ** What [delete] does to the rest of the scene *)

Lemma setAttr_lock_effect p v h h' :
  cmds.setAttr_lock p v h = (h', Ok tt) ->
  attrs h' = update p (set_lock v) (attrs h) /\ conns h' = conns h.
Proof.
  unfold cmds.setAttr_lock, cmds.setAttr. simpl.
  destruct (lookup p (attrs h)); [|discriminate].
  intros [= <-]. simpl. rewrite conns_record. split; reflexivity.
Qed.

Lemma disconnectAttr_effect s d h h' :
  cmds.disconnectAttr s d h = (h', Ok tt) ->
  attrs h' = attrs h
  /\ conns h' = filter (fun c => negb (conn_eqb (s, d) c)) (conns h).
Proof.
  unfold cmds.disconnectAttr. simpl.
  destruct (existsb (conn_eqb (s, d)) (conns h)); [|discriminate].
  destruct (lookup d (attrs h)) as [a|]; [|discriminate].
  destruct (a_lock a); [discriminate|].
  intros [= <-]. simpl. rewrite attrs_record. split; reflexivity.
Qed.

Lemma deleteAttr_effect p h h' :
  cmds.deleteAttr p h = (h', Ok tt) ->
  attrs h' = remove_attr p (attrs h)
  /\ conns h' = filter (fun c => negb (touches p c)) (conns h).
Proof.
  unfold cmds.deleteAttr. simpl.
  destruct (lookup p (attrs h)) as [a|]; [|discriminate].
  destruct (a_lock a); [discriminate|].
  destruct (a_user a); [|discriminate].
  intros [= <-]. split; reflexivity.
Qed.

Lemma closeChunk_keeps_scene h :
  attrs (fst (cmds.undoInfo_closeChunk h)) = attrs h
  /\ conns (fst (cmds.undoInfo_closeChunk h)) = conns h.
Proof.
  unfold cmds.undoInfo_closeChunk. simpl.
  destruct (chunk_depth h) as [|[|d]]; [|destruct (chunk h)|]; split; reflexivity.
Qed.

Lemma filter_twice {A} (f g : A -> bool) l :
  filter g (filter f l) = filter (fun x => f x && g x) l.
Proof.
  induction l as [|x l IH]; simpl; [reflexivity|].
  destruct (f x); simpl; [destruct (g x)|]; rewrite IH; reflexivity.
Qed.

Lemma filter_weaker {A} (f g : A -> bool) l :
  (forall x, g x = true -> f x = true) ->
  filter g (filter f l) = filter g l.
Proof.
  intros H. rewrite filter_twice. apply filter_ext. intros x.
  destruct (g x) eqn:G; [rewrite (H x G); reflexivity | apply andb_false_r].
Qed.

Lemma existsb_filter {A} (P f : A -> bool) l :
  (forall x, P x = true -> f x = true) ->
  existsb P (filter f l) = existsb P l.
Proof.
  intros H. induction l as [|x l IH]; simpl; [reflexivity|].
  destruct (f x) eqn:F; simpl; rewrite IH; [reflexivity|].
  destruct (P x) eqn:Px; [|reflexivity].
  rewrite (H x Px) in F. discriminate.
Qed.

Lemma lookup_remove_other p q l :
  q <> p -> lookup q (remove_attr p l) = lookup q l.
Proof.
  intros Hne. induction l as [|x l IH]; simpl; [reflexivity|].
  destruct (plug_eqb_spec (key x) p) as [E|E]; simpl.
  - destruct (plug_eqb_spec (key x) q) as [E'|E']; [congruence | exact IH].
  - destruct (plug_eqb_spec (key x) q); [reflexivity | exact IH].
Qed.

Lemma sources_of p q l :
  existsb (plug_eqb q) (map fst (filter (fun c => plug_eqb (snd c) p) l))
  = existsb (conn_eqb (q, p)) l.
Proof.
  induction l as [|[s d] l IH]; simpl; [reflexivity|].
  unfold conn_eqb at 1. simpl.
  destruct (plug_eqb_spec d p) as [->|E]; simpl.
  - rewrite IH, plug_eqb_refl, andb_true_r. reflexivity.
  - rewrite IH. destruct (plug_eqb_spec p d); [congruence|].
    rewrite andb_false_r. reflexivity.
Qed.

Lemma destinations_of p q l :
  existsb (plug_eqb q) (map snd (filter (fun c => plug_eqb (fst c) p) l))
  = existsb (conn_eqb (p, q)) l.
Proof.
  induction l as [|[s d] l IH]; simpl; [reflexivity|].
  unfold conn_eqb at 1. simpl.
  destruct (plug_eqb_spec s p) as [->|E]; simpl.
  - rewrite IH, plug_eqb_refl. reflexivity.
  - rewrite IH. destruct (plug_eqb_spec p s); [congruence | reflexivity].
Qed.

Lemma disconnect_loop_effect (A B : plug -> plug) cs : forall h h',
  for_ cs (fun c => cmds.setAttr_lock c false ;; cmds.disconnectAttr (A c) (B c)) h
  = (h', Ok tt) ->
  conns h' = filter (fun x => negb (existsb (fun c => conn_eqb (A c, B c) x) cs))
                    (conns h)
  /\ forall q, lookup q (attrs h')
               = option_map (unlock_when (existsb (plug_eqb q) cs)) (lookup q (attrs h)).
Proof.
  induction cs as [|c cs IH]; intros h h' R; simpl in R.
  - injection R as <-. split.
    + simpl. symmetry. apply filter_id. reflexivity.
    + intros q. simpl. destruct (lookup q (attrs h)); reflexivity.
  - apply bind_inv in R. destruct R as (h2 & [] & R12 & R).
    apply bind_inv in R12. destruct R12 as (h1 & [] & R1 & R2).
    apply setAttr_lock_effect in R1. destruct R1 as [A1 C1].
    apply disconnectAttr_effect in R2. destruct R2 as [A2 C2].
    apply IH in R. destruct R as [C L]. split.
    + rewrite C, C2, C1, filter_twice. apply filter_ext. intros x. simpl.
      rewrite negb_orb. reflexivity.
    + intros q. rewrite L, A2, A1, lookup_update by reflexivity. simpl.
      destruct (plug_eqb q c), (existsb (plug_eqb q) cs), (lookup q (attrs h));
        reflexivity.
Qed.

(** X7.  What a [delete] that succeeds has done, whatever the scene and the
    undo settings: the attribute is gone, the connections are those that did
    not touch it, and every other attribute is as it was except that one
    joined to the deleted attribute by a connection is left unlocked. *)
Theorem delete_effect (self : Attribute.t) (h h' : host) :
  Attribute.delete self h = (h', Ok tt) ->
  lookup (Attribute.path self) (attrs h') = None
  /\ conns h' = filter (fun c => negb (touches (Attribute.path self) c)) (conns h)
  /\ forall q, q <> Attribute.path self ->
       lookup q (attrs h')
       = option_map (unlock_when (linked (Attribute.path self) q (conns h)))
                    (lookup q (attrs h)).
Proof.
  unfold Attribute.delete. intros R.
  set (p := Attribute.path self) in *.
  apply with_inv in R. destruct R as (h0 & h4 & R0 & Rb & R5).
  unfold UndoChunkContext.enter, cmds.undoInfo_openChunk in R0.
  injection R0 as <-.
  apply bind_inv in Rb. destruct Rb as (h1 & [] & R1 & Rb).
  apply bind_inv in Rb. destruct Rb as (h1' & incoming & Ri & Rb).
  injection Ri as <- <-.
  apply bind_inv in Rb. destruct Rb as (h2 & [] & R2 & Rb).
  apply bind_inv in Rb. destruct Rb as (h2' & outgoing & Ro & Rb).
  injection Ro as <- <-.
  apply bind_inv in Rb. destruct Rb as (h3 & [] & R3 & R4).
  apply setAttr_lock_effect in R1. destruct R1 as [A1 C1]. simpl in A1, C1.
  destruct (disconnect_loop_effect (fun c => c) (fun _ => p) _ _ _ R2) as [C2 L2].
  destruct (disconnect_loop_effect (fun _ => p) (fun c => c) _ _ _ R3) as [C3 L3].
  apply deleteAttr_effect in R4. destruct R4 as [A4 C4].
  destruct (closeChunk_keeps_scene h4) as [A5 C5].
  unfold UndoChunkContext.exit in R5. rewrite R5 in A5, C5. simpl in A5, C5.
  assert (T2 : forall cs x, negb (touches p x) = true ->
                 negb (existsb (fun c : plug => conn_eqb (c, p) x) cs) = true).
  { intros cs x Hx. apply negb_true_iff. apply negb_true_iff in Hx.
    destruct (existsb (fun c : plug => conn_eqb (c, p) x) cs) eqn:Ex; [|reflexivity].
    apply existsb_exists in Ex. destruct Ex as (c & _ & Ec).
    destruct (conn_eqb_spec (c, p) x) as [<-|]; [|discriminate].
    unfold touches in Hx. simpl in Hx. rewrite plug_eqb_refl, orb_true_r in Hx.
    discriminate. }
  assert (T3 : forall cs x, negb (touches p x) = true ->
                 negb (existsb (fun c : plug => conn_eqb (p, c) x) cs) = true).
  { intros cs x Hx. apply negb_true_iff. apply negb_true_iff in Hx.
    destruct (existsb (fun c : plug => conn_eqb (p, c) x) cs) eqn:Ex; [|reflexivity].
    apply existsb_exists in Ex. destruct Ex as (c & _ & Ec).
    destruct (conn_eqb_spec (p, c) x) as [<-|]; [|discriminate].
    unfold touches in Hx. simpl in Hx. rewrite plug_eqb_refl in Hx. discriminate. }
  split; [|split].
  - rewrite A5, A4. apply lookup_remove_same.
  - rewrite C5, C4, C3, C2, C1.
    rewrite (filter_weaker _ _ _ (T3 _)). apply filter_weaker, T2.
  - intros q Hq. rewrite A5, A4, (lookup_remove_other _ _ _ Hq), L3, L2, A1.
    rewrite lookup_update by reflexivity.
    destruct (plug_eqb_spec q p) as [|_]; [contradiction|].
    rewrite C1, sources_of, C2, C1, destinations_of.
    rewrite existsb_filter.
    + unfold linked.
      destruct (existsb (conn_eqb (q, p)) (conns h)),
               (existsb (conn_eqb (p, q)) (conns h)),
               (lookup q (attrs h)); reflexivity.
    + intros x Hx. destruct (conn_eqb_spec (p, q) x) as [Ex|]; [|discriminate].
      rewrite <- Ex. clear x Hx Ex.
      apply negb_true_iff.
      destruct (existsb (fun c : plug => conn_eqb (c, p) (p, q))
                        (map fst (filter (fun c => plug_eqb (snd c) p) (conns h))))
               eqn:Ex; [|reflexivity].
      apply existsb_exists in Ex. destruct Ex as (c & _ & Ec).
      destruct (conn_eqb_spec (c, p) (p, q)) as [Eq|]; [|discriminate].
      congruence.
Qed.

(** ** The delete button of a row *)

Lemma selection_record_connects gone : forall h,
  selection (fold_right (fun c h' => record (InvConnect (fst c) (snd c)) h') h gone)
  = selection h.
Proof.
  induction gone as [|c gone IH]; intros h; simpl; [reflexivity|].
  rewrite selection_record. apply IH.
Qed.

Lemma setAttr_lock_selection p v h h' r :
  cmds.setAttr_lock p v h = (h', r) -> selection h' = selection h.
Proof.
  intros R.
  pose proof (proj1 (setAttr_frame (SetAttrLock p v)
                       (fun a => InvLock p (a_lock a)) (set_lock v) p h)) as S.
  unfold cmds.setAttr_lock in R. rewrite R in S. exact S.
Qed.

Lemma disconnect_loop_idents (A B : plug -> plug) cs : forall h h',
  for_ cs (fun c => cmds.setAttr_lock c false ;; cmds.disconnectAttr (A c) (B c)) h
  = (h', Ok tt) ->
  idents h' = idents h /\ selection h' = selection h.
Proof.
  induction cs as [|c cs IH]; intros h h' R; simpl in R.
  - injection R as <-. split; reflexivity.
  - apply bind_inv in R. destruct R as (h2 & [] & R12 & R).
    apply bind_inv in R12. destruct R12 as (h1 & [] & R1 & R2).
    apply IH in R. destruct R as [I S]. rewrite I, S. clear I S IH.
    pose proof (setAttr_lock_effect _ _ _ _ R1) as [A1 _].
    pose proof (setAttr_lock_selection _ _ _ _ _ R1) as S1.
    pose proof (disconnectAttr_effect _ _ _ _ R2) as [A2 _].
    assert (S2 : selection h2 = selection h1).
    { unfold cmds.disconnectAttr in R2. simpl in R2.
      destruct (existsb (conn_eqb (A c, B c)) (conns h1)); [|discriminate].
      destruct (lookup (B c) (attrs h1)) as [a|]; [|discriminate].
      destruct (a_lock a); [discriminate|].
      injection R2 as <-. simpl. rewrite selection_record. reflexivity. }
    unfold idents. rewrite A2, A1, idents_update_lock.
    split; [reflexivity | congruence].
Qed.

Lemma delete_idents self h h' :
  Attribute.delete self h = (h', Ok tt) ->
  idents h' = filter (fun i => negb (plug_eqb (fst i) (Attribute.path self))) (idents h)
  /\ selection h' = selection h.
Proof.
  unfold Attribute.delete. intros R.
  set (p := Attribute.path self) in *.
  apply with_inv in R. destruct R as (h0 & h4 & R0 & Rb & R5).
  unfold UndoChunkContext.enter, cmds.undoInfo_openChunk in R0.
  injection R0 as <-.
  apply bind_inv in Rb. destruct Rb as (h1 & [] & R1 & Rb).
  apply bind_inv in Rb. destruct Rb as (h1' & incoming & Ri & Rb).
  injection Ri as <- <-.
  apply bind_inv in Rb. destruct Rb as (h2 & [] & R2 & Rb).
  apply bind_inv in Rb. destruct Rb as (h2' & outgoing & Ro & Rb).
  injection Ro as <- <-.
  apply bind_inv in Rb. destruct Rb as (h3 & [] & R3 & R4).
  pose proof (setAttr_lock_effect _ _ _ _ R1) as [A1 _]. simpl in A1.
  pose proof (setAttr_lock_selection _ _ _ _ _ R1) as S1. simpl in S1.
  destruct (disconnect_loop_idents (fun c => c) (fun _ => p) _ _ _ R2) as [I2 S2].
  destruct (disconnect_loop_idents (fun _ => p) (fun c => c) _ _ _ R3) as [I3 S3].
  assert (I4 : idents h4 = filter (fun i => negb (plug_eqb (fst i) p)) (idents h3)
               /\ selection h4 = selection h3).
  { pose proof (deleteAttr_effect _ _ _ R4) as [A4 _].
    unfold idents. rewrite A4, idents_remove. split; [reflexivity|].
    unfold cmds.deleteAttr in R4. simpl in R4.
    destruct (lookup p (attrs h3)) as [a|]; [|discriminate].
    destruct (a_lock a); [discriminate|].
    destruct (a_user a); [|discriminate].
    injection R4 as <-. simpl.
    rewrite selection_record_connects, selection_record. reflexivity. }
  destruct I4 as [I4 S4].
  assert (I5 : idents h' = idents h4 /\ selection h' = selection h4).
  { unfold UndoChunkContext.exit, cmds.undoInfo_closeChunk in R5. simpl in R5.
    destruct (chunk_depth h4) as [|[|d]]; [|destruct (chunk h4)|];
      injection R5 as <-; split; reflexivity. }
  destruct I5 as [I5 S5].
  rewrite I5, I4, I3, I2, S5, S4, S3, S2, S1. unfold idents. rewrite A1, idents_update_lock.
  split; reflexivity.
Qed.

Lemma user_names_without nd p h h' :
  idents h' = filter (fun i => negb (plug_eqb (fst i) p)) (idents h) ->
  user_names nd h' = filter (fun y => negb (plug_eqb (nd, y) p)) (user_names nd h).
Proof.
  intros I. rewrite !user_names_idents, I. clear I.
  induction (idents h) as [|[[n x] u] l IH]; simpl; [reflexivity|].
  destruct (plug_eqb (n, x) p) eqn:E; simpl;
    destruct (String.eqb_spec n nd) as [->|Hn]; simpl;
    destruct u; simpl; rewrite ?E; simpl; try (f_equal; exact IH); exact IH.
Qed.

(** X24.  The delete button of a row.  Where the [delete] of the row's
    attribute succeeds, the handler goes on to rebuild the panel from the
    host as the deletion left it: with a node selected, the rows are those
    of the node's user attributes without the deleted one, in the order
    they had. *)
Theorem delete_button_rows
        (self : Attribute.t) (h h1 : host) (lw : list AttributeMaster.item)
        (nd : string) (rest : list string) :
  Attribute.delete self h = (h1, Ok tt) ->
  selection h = nd :: rest ->
  exists lw',
    __delete self (h, lw) = ((h1, lw'), Ok tt)
    /\ user_names nd h1
       = filter (fun y => negb (plug_eqb (nd, y) (Attribute.path self))) (user_names nd h)
    /\ Forall2 (built_from h1 nd) lw' (user_names nd h1)
    /\ rows_show nd (user_names nd h1) lw'.
Proof.
  intros R Hsel.
  destruct (delete_idents _ _ _ R) as [I S].
  destruct (tool_refresh_built h1 lw) as (lw' & Rr & B).
  rewrite S, Hsel in B.
  exists lw'. split; [|split; [|split]].
  - unfold __delete. erewrite bind_Ok by (apply liftH_run; exact R). exact Rr.
  - apply user_names_without. exact I.
  - exact B.
  - unfold rows_show. eapply Forall2_impl; [|exact B].
    intros it x (w & a & c & Hw & _ & _ & Hp & _). eauto.
Qed.

(** ** [delete] of an attribute that is not there *)

(** X8.  [delete] of an attribute the host does not have, with no chunk
    open: the first [setAttr] raises, [__exit__] closes the chunk that
    [__enter__] opened and lets the error through; the attributes, the
    connections, the undo queue and the undo settings are as before and no
    chunk is left open. *)
Theorem delete_absent_leaves_host (self : Attribute.t) (h : host) :
  idle h ->
  lookup (Attribute.path self) (attrs h) = None ->
  exists h',
    Attribute.delete self h = (h', Raise cmds.no_object)
    /\ attrs h' = attrs h /\ conns h' = conns h
    /\ queue h' = queue h /\ undo_settings h' = undo_settings h
    /\ idle h'.
Proof.
  intros [Hd Hc] N. unfold Attribute.delete, with_.
  unfold UndoChunkContext.enter, cmds.undoInfo_openChunk.
  cbv beta zeta.
  erewrite bind_Raise.
  2:{ unfold cmds.setAttr_lock. apply setAttr_missing. exact N. }
  unfold UndoChunkContext.exit, cmds.undoInfo_closeChunk. simpl.
  rewrite Hd, Hc. simpl.
  eexists. split; [reflexivity|]. unfold idle. simpl. tauto.
Qed.

(** ** Closing the window *)

Section Closing.

Variable R : Type.
Variable removeCallback : nat -> M R unit.
Variable super_closeEvent : M R unit.

Lemma closeEvent_closed (s : R * Window.t) :
  Window.window_is_open (snd s) = false ->
  Window.closeEvent R removeCallback super_closeEvent s = (s, Ok tt).
Proof. unfold Window.closeEvent, bind, gets. simpl. intros ->. reflexivity. Qed.

Lemma closeEvent_closes (s : R * Window.t) :
  Window.window_is_open
    (snd (fst (Window.closeEvent R removeCallback super_closeEvent s))) = false.
Proof.
  unfold Window.closeEvent, Window.remove_callback, bind, gets, modify, liftH, raise.
  simpl. destruct (Window.window_is_open (snd s)) eqn:E; simpl; [|exact E].
  destruct (Window.callback (snd s)) as [[id|]|]; simpl.
  - destruct (removeCallback id (fst s)) as [r [[]|e]]; simpl; [|reflexivity].
    destruct (super_closeEvent r); reflexivity.
  - destruct (super_closeEvent (fst s)); reflexivity.
  - reflexivity.
Qed.

Lemma closeEvent_again n : forall s : R * Window.t,
  Window.window_is_open (snd s) = false ->
  AttributeMaster.repeat_ n (Window.closeEvent R removeCallback super_closeEvent) s
  = (s, Ok tt).
Proof.
  induction n as [|n IH]; intros s E; [reflexivity|].
  rewrite repeat_S. erewrite bind_Ok by (apply closeEvent_closed; exact E).
  apply IH. exact E.
Qed.

(** X23.  After a first close event, every further one does nothing.
    Whatever the host's [removeCallback] and the base class do, and whether
    the first event returned or ended in an error, the state it leaves has
    the window marked closed; a close event run on that state returns at the
    guard with the state unchanged, and so does any number of them in a
    row: the callback is not released a second time. *)
Theorem closeEvent_once (n : nat) (s : R * Window.t) :
  Window.window_is_open
    (snd (fst (Window.closeEvent R removeCallback super_closeEvent s))) = false
  /\ Window.closeEvent R removeCallback super_closeEvent
       (fst (Window.closeEvent R removeCallback super_closeEvent s))
     = (fst (Window.closeEvent R removeCallback super_closeEvent s), Ok tt)
  /\ AttributeMaster.repeat_ n (Window.closeEvent R removeCallback super_closeEvent)
       (fst (Window.closeEvent R removeCallback super_closeEvent s))
     = (fst (Window.closeEvent R removeCallback super_closeEvent s), Ok tt).
Proof.
  pose proof (closeEvent_closes s) as E.
  split; [exact E|]. split.
  - apply closeEvent_closed. exact E.
  - apply closeEvent_again. exact E.
Qed.

End Closing.

(** * Instances

    Each property that has a precondition, at a sample scene. *)

Lemma abc_rows_shown : rows_show "n" ["C"; "A"; "B"] cab_rows.
Proof. repeat constructor; eexists; split; reflexivity. Qed.

Lemma NoDup_cab : NoDup ["C"; "A"; "B"].
Proof. repeat constructor; simpl; intuition discriminate. Qed.

Lemma abc_host_idle : idle abc_host.
Proof. split; reflexivity. Qed.

Lemma abc_host_inf_wf : wf abc_host_inf.
Proof. apply (wf_ext abc_host); [exact abc_host_wf | reflexivity | reflexivity]. Qed.

Lemma tx_rows_alive : selection_alive hidden_host tx_rows.
Proof.
  intros i it H _. destruct i as [|[|i]]; simpl in H; try discriminate.
  injection H as <-. eexists. eexists. split; reflexivity.
Qed.

Lemma reorder_any_order_witness :
  wf abc_host /\ idle abc_host /\ NoDup ["C"; "A"; "B"]
  /\ rows_show "n" ["C"; "A"; "B"] cab_rows
  /\ exists h',
       AttributeMaster.reorder (abc_host, cab_rows) = ((h', cab_rows), Ok tt)
       /\ user_names "n" h' = ["C"; "A"; "B"]
       /\ undo_settings h' = undo_settings abc_host.
Proof.
  split; [exact abc_host_wf|]. split; [exact abc_host_idle|].
  split; [exact NoDup_cab|]. split; [exact abc_rows_shown|].
  apply (reorder_any_order abc_host cab_rows "n" ["C"; "A"; "B"]).
  - exact abc_host_wf.
  - exact abc_host_idle.
  - exact NoDup_cab.
  - intros d. vm_compute. tauto.
  - exact abc_rows_shown.
Defined.

Lemma reorder_keeps_the_rest_witness :
  rows_show "n" ["A"] a_rows
  /\ exists h',
       AttributeMaster.reorder (abc_host, a_rows) = ((h', a_rows), Ok tt)
       /\ user_names "n" h'
          = filter (fun x => negb (existsb (String.eqb x) ["A"])) (user_names "n" abc_host)
            ++ ["A"]
       /\ forall nd', nd' <> "n" -> user_names nd' h' = user_names nd' abc_host.
Proof.
  split; [repeat constructor; eexists; split; reflexivity|].
  apply (reorder_keeps_the_rest abc_host a_rows "n" ["A"]).
  - exact abc_host_wf.
  - exact abc_host_idle.
  - repeat constructor. simpl. tauto.
  - intros d. vm_compute. tauto.
  - repeat constructor; eexists; split; reflexivity.
Defined.

Lemma reorder_marks_witness :
  snd (AttributeMaster.reorder (abc_host, cab_rows)) = Ok tt
  /\ marks (fst (fst (AttributeMaster.reorder (abc_host, cab_rows))))
     = marks abc_host
       ++ map (fun w => DeleteAttr (Attribute.path w)) (rev (widgets cab_rows))
       ++ repeat Undo (List.length cab_rows).
Proof.
  split; [vm_compute; reflexivity|].
  apply (reorder_marks abc_host cab_rows (fst (AttributeMaster.reorder (abc_host, cab_rows)))).
  vm_compute. reflexivity.
Defined.

Lemma reorder_stale_row_witness :
  lookup (Attribute.path (sample_widget "n" "Z")) (attrs abc_host) = None
  /\ exists h',
       AttributeMaster.reorder
         (abc_host, AttributeMaster.mkItem (Some (sample_widget "n" "Z")) false :: a_rows)
       = ((h', AttributeMaster.mkItem (Some (sample_widget "n" "Z")) false :: a_rows),
          Raise cmds.no_object)
       /\ idents h' = filter (kept (map (pair "n") ["A"])) (idents abc_host)
       /\ (forall d, In d ["A"] -> lookup ("n", d) (attrs h') = None)
       /\ undo_settings h' = undo_settings abc_host.
Proof.
  split; [reflexivity|].
  apply (reorder_stale_row abc_host a_rows "n" ["A"] (sample_widget "n" "Z") false).
  - exact abc_host_wf.
  - exact abc_host_idle.
  - repeat constructor. simpl. tauto.
  - intros d [<-|[]]. vm_compute. tauto.
  - repeat constructor; eexists; split; reflexivity.
  - reflexivity.
Defined.

Lemma reorder_keeps_scene_witness :
  wf abc_host /\ idle abc_host
  /\ exists h',
       AttributeMaster.reorder (abc_host, cab_rows) = ((h', cab_rows), Ok tt)
       /\ Permutation (attrs h') (attrs abc_host)
       /\ Permutation (conns h') (conns abc_host)
       /\ forall q, lookup q (attrs h') = lookup q (attrs abc_host).
Proof.
  split; [exact abc_host_wf|]. split; [exact abc_host_idle|].
  apply (reorder_keeps_scene abc_host cab_rows "n" ["C"; "A"; "B"]).
  - exact abc_host_wf.
  - exact abc_host_idle.
  - exact NoDup_cab.
  - intros d [<-|[<-|[<-|[]]]]; vm_compute; tauto.
  - exact abc_rows_shown.
Defined.

Lemma delete_then_undo_witness :
  wf abc_host_inf /\ idle abc_host_inf
  /\ lookup ("n", "B") (attrs abc_host_inf) = Some (sample_attr "n" "B" true false true)
  /\ exists h1 h2,
       Attribute.delete (sample_widget "n" "B") abc_host_inf = (h1, Ok tt)
       /\ lookup (Attribute.path (sample_widget "n" "B")) (attrs h1) = None
       /\ cmds.undo h1 = (h2, Ok tt)
       /\ (forall q, lookup q (attrs h2) = lookup q (attrs abc_host_inf))
       /\ Permutation (conns h2) (conns abc_host_inf)
       /\ idents h2
          = filter (fun i => negb (plug_eqb (fst i) (Attribute.path (sample_widget "n" "B"))))
                   (idents abc_host_inf)
            ++ [(Attribute.path (sample_widget "n" "B"), true)]
       /\ queue h2 = queue abc_host_inf.
Proof.
  split; [exact abc_host_inf_wf|]. split; [split; reflexivity|]. split; [reflexivity|].
  apply (delete_then_undo abc_host_inf (sample_widget "n" "B")
                          (sample_attr "n" "B" true false true)).
  - exact abc_host_inf_wf.
  - split; reflexivity.
  - reflexivity.
  - reflexivity.
  - reflexivity.
  - reflexivity.
Defined.

Lemma delete_effect_witness :
  snd (Attribute.delete (sample_widget "n" "A") abc_host) = Ok tt
  /\ lookup (Attribute.path (sample_widget "n" "A"))
            (attrs (fst (Attribute.delete (sample_widget "n" "A") abc_host))) = None
  /\ conns (fst (Attribute.delete (sample_widget "n" "A") abc_host))
     = filter (fun c => negb (touches (Attribute.path (sample_widget "n" "A")) c))
              (conns abc_host)
  /\ forall q, q <> Attribute.path (sample_widget "n" "A") ->
       lookup q (attrs (fst (Attribute.delete (sample_widget "n" "A") abc_host)))
       = option_map (unlock_when (linked (Attribute.path (sample_widget "n" "A")) q
                                         (conns abc_host)))
                    (lookup q (attrs abc_host)).
Proof.
  split; [vm_compute; reflexivity|].
  apply (delete_effect (sample_widget "n" "A") abc_host
                       (fst (Attribute.delete (sample_widget "n" "A") abc_host))).
  vm_compute. reflexivity.
Defined.

Lemma delete_absent_leaves_host_witness :
  idle a_host
  /\ lookup (Attribute.path (sample_widget "n" "Z")) (attrs a_host) = None
  /\ exists h',
       Attribute.delete (sample_widget "n" "Z") a_host = (h', Raise cmds.no_object)
       /\ attrs h' = attrs a_host /\ conns h' = conns a_host
       /\ queue h' = queue a_host /\ undo_settings h' = undo_settings a_host
       /\ idle h'.
Proof.
  split; [split; reflexivity|]. split; [reflexivity|].
  apply (delete_absent_leaves_host (sample_widget "n" "Z") a_host).
  - split; reflexivity.
  - reflexivity.
Defined.

Lemma set_notkeyable_sets_witness :
  selection_alive hidden_host tx_rows
  /\ exists h' lw',
       AttributeMaster.set_notkeyable (hidden_host, tx_rows) = ((h', lw'), Ok tt)
       /\ attrs h' = flagged as_notkeyable (selected_plugs tx_rows) (attrs hidden_host)
       /\ conns h' = conns hidden_host
       /\ map row_sig lw' = map row_sig tx_rows
       /\ forall i it w,
            nth_error tx_rows i = Some it -> AttributeMaster.selected it = true ->
            AttributeMaster.widget it = Some w ->
            Attribute.is_locked w h' = (h', Ok false)
            /\ Attribute.is_keyable w h' = (h', Ok false)
            /\ Attribute.is_hidden w h' = (h', Ok false)
            /\ exists a', lookup (Attribute.path w) (attrs h') = Some a'
                          /\ classify (Attribute.is_seperator w) (a_lock a')
                                      (a_keyable a') (a_cb a')
                             = if Attribute.is_seperator w then Separator else NotKeyable.
Proof.
  split; [exact tx_rows_alive|].
  apply (set_notkeyable_sets hidden_host tx_rows). exact tx_rows_alive.
Defined.

Lemma set_displayable_sets_witness :
  selection_alive hidden_host tx_rows
  /\ exists h' lw',
       AttributeMaster.set_displayable (hidden_host, tx_rows) = ((h', lw'), Ok tt)
       /\ attrs h' = flagged as_displayable (selected_plugs tx_rows) (attrs hidden_host)
       /\ conns h' = conns hidden_host
       /\ map row_sig lw' = map row_sig tx_rows
       /\ forall i it w,
            nth_error tx_rows i = Some it -> AttributeMaster.selected it = true ->
            AttributeMaster.widget it = Some w ->
            Attribute.is_locked w h' = (h', Ok true)
            /\ Attribute.is_keyable w h' = (h', Ok false)
            /\ Attribute.is_hidden w h' = (h', Ok false)
            /\ exists a', lookup (Attribute.path w) (attrs h') = Some a'
                          /\ classify (Attribute.is_seperator w) (a_lock a')
                                      (a_keyable a') (a_cb a')
                             = if Attribute.is_seperator w then Separator else Locked.
Proof.
  split; [exact tx_rows_alive|].
  apply (set_displayable_sets hidden_host tx_rows). exact tx_rows_alive.
Defined.

Lemma set_hidden_sets_witness :
  selection_alive hidden_host tx_rows
  /\ exists h' lw',
       AttributeMaster.set_hidden (hidden_host, tx_rows) = ((h', lw'), Ok tt)
       /\ attrs h' = flagged as_hidden (selected_plugs tx_rows) (attrs hidden_host)
       /\ conns h' = conns hidden_host
       /\ map row_sig lw' = map row_sig tx_rows
       /\ forall i it w,
            nth_error tx_rows i = Some it -> AttributeMaster.selected it = true ->
            AttributeMaster.widget it = Some w ->
            Attribute.is_locked w h' = (h', Ok true)
            /\ Attribute.is_keyable w h' = (h', Ok false)
            /\ Attribute.is_hidden w h' = (h', Ok true)
            /\ exists a', lookup (Attribute.path w) (attrs h') = Some a'
                          /\ classify (Attribute.is_seperator w) (a_lock a')
                                      (a_keyable a') (a_cb a')
                             = if Attribute.is_seperator w then Separator else Hidden.
Proof.
  split; [exact tx_rows_alive|].
  apply (set_hidden_sets hidden_host tx_rows). exact tx_rows_alive.
Defined.

Lemma rename_nice_name_witness :
  lookup ("n", "A") (attrs abc_host) = Some (sample_attr "n" "A" false true false)
  /\ lookup ("n", "Alpha") (attrs abc_host) = None
  /\ lookup ("n", "TMP_A") (attrs abc_host) = None
  /\ exists h',
       Attribute.rename (Some "Alpha") None (abc_host, sample_widget "n" "A")
       = ((h', Attribute.set_niceName "Alpha" (sample_widget "n" "A")), Ok tt)
       /\ lookup (Attribute.path (sample_widget "n" "A")) (attrs h')
          = Some (set_nice "Alpha" (sample_attr "n" "A" false true false))
       /\ (forall q, q <> Attribute.path (sample_widget "n" "A") ->
                     lookup q (attrs h') = lookup q (attrs abc_host))
       /\ map key (attrs h') = map key (attrs abc_host).
Proof.
  split; [reflexivity|]. split; [reflexivity|]. split; [reflexivity|].
  apply (rename_nice_name abc_host (sample_widget "n" "A")
                          (sample_attr "n" "A" false true false) "Alpha");
    reflexivity.
Defined.

Lemma rename_nice_collision_witness :
  lookup ("n", "B") (attrs abc_host) = Some (sample_attr "n" "B" true false true)
  /\ Attribute.rename (Some "B") None (abc_host, sample_widget "n" "A")
     = ((abc_host, sample_widget "n" "A"), Ok tt).
Proof.
  split; [reflexivity|].
  apply (rename_nice_collision abc_host (sample_widget "n" "A") "B"
                               (sample_attr "n" "B" true false true) None).
  reflexivity.
Defined.

Lemma rename_nice_tmp_taken_witness :
  lookup ("n", "TMP_A") (attrs tmp_host) = Some (sample_attr "n" "TMP_A" false true false)
  /\ exists h',
       Attribute.rename (Some "Alpha") None (tmp_host, sample_widget "n" "A")
       = ((h', sample_widget "n" "A"), Raise (RuntimeError "name already in use"))
       /\ lookup (Attribute.path (sample_widget "n" "A")) (attrs h')
          = Some (set_lock false (set_nice "Alpha" (sample_attr "n" "A" true true false)))
       /\ Attribute.is_locked (sample_widget "n" "A") h' = (h', Ok false).
Proof.
  split; [reflexivity|].
  apply (rename_nice_tmp_taken tmp_host (sample_widget "n" "A")
                               (sample_attr "n" "A" true true false)
                               (sample_attr "n" "TMP_A" false true false) "Alpha" None);
    reflexivity.
Defined.

Lemma add_new_seperator_creates_witness :
  selection ten_seperators = ["n"]
  /\ exists id h' lw',
       id <= 10
       /\ (forall i, i < id -> lookup ("n", seperator_name i) (attrs ten_seperators) <> None)
       /\ lookup ("n", seperator_name id) (attrs ten_seperators) = None
       /\ AttributeMaster.add_new_seperator "title" true (ten_seperators, [])
          = ((h', lw'), Ok tt)
       /\ attrs h' = attrs ten_seperators
                     ++ [mkAttr "n" (seperator_name id) "title" true false true "enum" true]
       /\ conns h' = conns ten_seperators
       /\ rows_show "n" (user_names "n" ten_seperators ++ [seperator_name id]) lw'.
Proof.
  split; [reflexivity|].
  apply (add_new_seperator_creates ten_seperators [] "n" [] "title").
  - reflexivity.
  - discriminate.
  - exists 10. split; [lia | reflexivity].
Defined.

Lemma add_new_seperator_declined_witness :
  AttributeMaster.add_new_seperator "title" false (abc_host, cab_rows)
  = ((abc_host, cab_rows), Ok tt).
Proof.
  exact (proj1 (proj2 (add_new_seperator_declined abc_host cab_rows)) "title").
Defined.

Lemma add_new_seperator_bound_witness :
  selection eleven_seperators = ["n"]
  /\ exists h',
       AttributeMaster.add_new_seperator "title" true (eleven_seperators, [])
       = ((h', []), Raise (RuntimeError "name already in use"))
       /\ attrs h' = attrs eleven_seperators.
Proof.
  split; [reflexivity|].
  apply (add_new_seperator_bound eleven_seperators [] "n" [] "title").
  - reflexivity.
  - intros i Hi.
    do 11 (destruct i as [|i]; [vm_compute; discriminate|]). lia.
  - discriminate.
Defined.

Lemma refresh_then_reorder_witness :
  wf abc_host /\ idle abc_host /\ selection abc_host = ["n"]
  /\ exists lw' h',
       AttributeMaster.refresh (abc_host, []) = ((abc_host, lw'), Ok tt)
       /\ AttributeMaster.reorder (abc_host, lw') = ((h', lw'), Ok tt)
       /\ user_names "n" h' = user_names "n" abc_host
       /\ undo_settings h' = undo_settings abc_host.
Proof.
  split; [exact abc_host_wf|]. split; [exact abc_host_idle|]. split; [reflexivity|].
  apply (refresh_then_reorder abc_host [] "n" []).
  - exact abc_host_wf.
  - exact abc_host_idle.
  - reflexivity.
Defined.

Lemma refresh_separator_marker_witness :
  Attribute.longName (sample_widget "n" "my__seperator_1")
  = ("my" ++ "__seperator_" ++ "1")%string
  /\ Attribute.is_seperator (sample_widget "n" "my__seperator_1") = true
  /\ Attribute.refresh (sample_widget "n" "my__seperator_1") a_host
     = (a_host, Ok (Attribute.setStyleSheet (style_replace (class_color Separator))
                                            (sample_widget "n" "my__seperator_1"))).
Proof.
  split; [reflexivity|].
  apply (refresh_separator_marker a_host (sample_widget "n" "my__seperator_1") "my" "1").
  reflexivity.
Defined.

Lemma delete_button_rows_witness :
  snd (Attribute.delete (sample_widget "n" "A") abc_host) = Ok tt
  /\ selection abc_host = ["n"]
  /\ exists lw',
       __delete (sample_widget "n" "A") (abc_host, cab_rows)
       = ((fst (Attribute.delete (sample_widget "n" "A") abc_host), lw'), Ok tt)
       /\ user_names "n" (fst (Attribute.delete (sample_widget "n" "A") abc_host))
          = filter (fun y => negb (plug_eqb ("n", y) (Attribute.path (sample_widget "n" "A"))))
                   (user_names "n" abc_host)
       /\ Forall2 (built_from (fst (Attribute.delete (sample_widget "n" "A") abc_host)) "n")
                  lw' (user_names "n" (fst (Attribute.delete (sample_widget "n" "A") abc_host)))
       /\ rows_show "n"
                    (user_names "n" (fst (Attribute.delete (sample_widget "n" "A") abc_host)))
                    lw'.
Proof.
  split; [vm_compute; reflexivity|]. split; [reflexivity|].
  apply (delete_button_rows (sample_widget "n" "A") abc_host
                            (fst (Attribute.delete (sample_widget "n" "A") abc_host))
                            cab_rows "n" []).
  - vm_compute. reflexivity.
  - reflexivity.
Defined.
